(** * Point-in-time recovery: chain resolver, restore pipeline, binlog window
      extraction and deferred apply.

    A shallow embedding of
      - [scripts/tasks/restore/point_in_time_restore.py]
      - [scripts/tasks/binlog/apply_pitr_binlog.py]
    followed by the properties established about them.

    Conventions of the model.
      - Strings are byte strings; [str.upper], [str.strip], [\d] and string
        comparison are modelled on ASCII.  The DDL filter, which decodes its
        input as UTF-8 and matches Unicode-aware patterns, is modelled on
        UTF-8 text.
      - [strftime] is the C library's: [%Y] is not padded (glibc).  Naive
        [datetime.timestamp()] is the local zone's, an oracle of the
        environment.
      - The file system is a finite list of nodes, in directory-listing
        order.  Reading, writing and unlinking a node that exists succeeds;
        the [except] handlers that only guard such operating-system failures
        carry no behaviour here.
      - [datetime.strptime] on the user's target string is library code: the
        functions below receive the [datetime] value it returns ([main]
        rejects a target that does not parse before anything else runs).
      - External programs ([xtrabackup], [mysqlbinlog], [mc], [mysql], [tar])
        are oracles of the environment; the programs are assumed installed
        except where the source tests for them.
      - Logging is omitted, and so are the steps without a counterpart in
        the model: [os.chdir] (every path is absolute), the [chown]/[chmod]
        after the copy-back (permissions are not modelled), and the
        read-back of the marker after it is written (it only logs). *)

From Stdlib Require Import String Ascii List ZArith Bool Arith Lia.
From Stdlib Require Import Sorted Permutation.
Import ListNotations.

Local Open Scope string_scope.
Local Open Scope list_scope.

(* ===================================================================== *)
(** ** Python string primitives *)
(* ===================================================================== *)

Module PyStr.

Definition LF : ascii := "010"%char.
Definition CR : ascii := "013"%char.

(** [\d] *)
Definition is_digit (c : ascii) : bool :=
  (Ascii.leb "0" c && Ascii.leb c "9")%char.

(** [str.isspace] on ASCII: 0x09-0x0d, 0x1c-0x20. *)
Definition is_space (c : ascii) : bool :=
  let n := nat_of_ascii c in
  ((9 <=? n) && (n <=? 13))%nat || ((28 <=? n) && (n <=? 32))%nat.

Fixpoint lstrip (s : string) : string :=
  match s with
  | EmptyString => EmptyString
  | String c s' => if is_space c then lstrip s' else s
  end.

Fixpoint rstrip (s : string) : string :=
  match s with
  | EmptyString => EmptyString
  | String c s' =>
      match rstrip s' with
      | EmptyString => if is_space c then EmptyString else String c EmptyString
      | r => String c r
      end
  end.

(** [s.strip()] *)
Definition strip (s : string) : string := lstrip (rstrip s).

(** [s.lstrip(chars)] *)
Fixpoint lstrip_chars (chars : list ascii) (s : string) : string :=
  match s with
  | EmptyString => EmptyString
  | String c s' =>
      if existsb (Ascii.eqb c) chars then lstrip_chars chars s' else s
  end.

Definition to_upper (c : ascii) : ascii :=
  if (Ascii.leb "a" c && Ascii.leb c "z")%char
  then ascii_of_nat (nat_of_ascii c - 32)
  else c.

(** [s.upper()] *)
Fixpoint upper (s : string) : string :=
  match s with
  | EmptyString => EmptyString
  | String c s' => String (to_upper c) (upper s')
  end.

(** [needle in hay] *)
Fixpoint contains (needle hay : string) : bool :=
  String.prefix needle hay
  || match hay with
     | EmptyString => false
     | String _ hay' => contains needle hay'
     end.

(** [s.startswith(p)] *)
Definition startswith (p s : string) : bool := String.prefix p s.

(** [s[n:]] *)
Fixpoint drop (n : nat) (s : string) : string :=
  match n, s with
  | O, _ => s
  | S _, EmptyString => EmptyString
  | S n', String _ s' => drop n' s'
  end.

(** [s[a:b]], for [a <= b]. *)
Definition slice (a b : nat) (s : string) : string :=
  String.substring a (b - a) s.

(** [s.split(sep)] for a one-character separator. *)
Fixpoint split_on (sep : ascii -> bool) (s : string) : list string :=
  match s with
  | EmptyString => [EmptyString]
  | String c s' =>
      if sep c then EmptyString :: split_on sep s'
      else match split_on sep s' with
           | h :: t => String c h :: t
           | [] => [String c EmptyString]
           end
  end.

Definition split_newline (s : string) : list string :=
  split_on (Ascii.eqb LF) s.

(** Iterating over a text file: lines are cut at newlines (universal
    newlines: LF, CR or CR LF).  Every caller strips each line and skips the
    empty ones, so cutting at each CR and each LF yields the same lines. *)
Definition file_lines (content : string) : list string :=
  split_on (fun c => Ascii.eqb c LF || Ascii.eqb c CR) content.

(** [s.split()]: maximal runs of non-whitespace. *)
Fixpoint words (s : string) : list string :=
  match s with
  | EmptyString => []
  | String c s' =>
      if is_space c then words s'
      else match s' with
           | EmptyString => [String c EmptyString]
           | String c' _ =>
               if is_space c' then String c EmptyString :: words s'
               else match words s' with
                    | h :: t => String c h :: t
                    | [] => [String c EmptyString]
                    end
           end
  end.

(** Consume exactly [n] digits ([\d{n}]) and return the rest. *)
Fixpoint digits_then (n : nat) (s : string) : option string :=
  match n with
  | O => Some s
  | S n' =>
      match s with
      | String c s' => if is_digit c then digits_then n' s' else None
      | EmptyString => None
      end
  end.

(** The anchor [$] of [re.match]: end of string, or just before a final
    newline. *)
Definition at_end (s : string) : bool :=
  match s with
  | EmptyString => true
  | String c EmptyString => Ascii.eqb c LF
  | _ => false
  end.

(** [re.match(r'^\d{8}_\d{6}$', s)] *)
Definition match_timestamp (s : string) : bool :=
  match digits_then 8 s with
  | Some (String "_" r) =>
      match digits_then 6 r with
      | Some r' => at_end r'
      | None => false
      end
  | _ => false
  end.

(** [re.match(r'^backup_(\d{8}_\d{6})\.tar\.gz$', s)], giving [group(1)]. *)
Definition match_backup_file (s : string) : option string :=
  if String.prefix "backup_" s then
    let r := drop 7 s in
    match digits_then 8 r with
    | Some (String "_" r1) =>
        match digits_then 6 r1 with
        | Some r2 =>
            if String.prefix ".tar.gz" r2 && at_end (drop 7 r2)
            then Some (slice 0 15 r)
            else None
        | None => None
        end
    | _ => None
    end
  else None.

(** Python truthiness of a [str]. *)
Definition nonempty (s : string) : bool :=
  match s with EmptyString => false | _ => true end.

End PyStr.

(* ===================================================================== *)
(** ** Timestamp codec *)
(* ===================================================================== *)

Module Codec.

Local Open Scope Z_scope.

(** A naive [datetime.datetime]. *)
Record datetime := mkDT {
  year : Z; month : Z; day : Z; hour : Z; minute : Z; second : Z
}.

Definition is_leap (y : Z) : bool :=
  ((y mod 4 =? 0) && negb (y mod 100 =? 0)) || (y mod 400 =? 0).

Definition days_in_month (y m : Z) : Z :=
  if m =? 2 then (if is_leap y then 29 else 28)
  else if (m =? 4) || (m =? 6) || (m =? 9) || (m =? 11) then 30
  else 31.

(** The values the [datetime] constructor accepts. *)
Definition valid_datetime (d : datetime) : bool :=
  (1 <=? year d) && (year d <=? 9999)
  && (1 <=? month d) && (month d <=? 12)
  && (1 <=? day d) && (day d <=? days_in_month (year d) (month d))
  && (0 <=? hour d) && (hour d <=? 23)
  && (0 <=? minute d) && (minute d <=? 59)
  && (0 <=? second d) && (second d <=? 59).

(** Days from 1970-01-01 in the proleptic Gregorian calendar. *)
Definition days_from_civil (y m d : Z) : Z :=
  let y' := if m <=? 2 then y - 1 else y in
  let era := y' / 400 in
  let yoe := y' - era * 400 in
  let mp := (m + 9) mod 12 in
  let doy := (153 * mp + 2) / 5 + d - 1 in
  let doe := yoe * 365 + yoe / 4 - yoe / 100 + doy in
  era * 146097 + doe - 719468.

Definition civil_from_days (z : Z) : Z * Z * Z :=
  let z' := z + 719468 in
  let era := z' / 146097 in
  let doe := z' - era * 146097 in
  let yoe := (doe - doe / 1460 + doe / 36524 - doe / 146096) / 365 in
  let y := yoe + era * 400 in
  let doy := doe - (365 * yoe + yoe / 4 - yoe / 100) in
  let mp := (5 * doy + 2) / 153 in
  let d := doy - (153 * mp + 2) / 5 + 1 in
  let m := if mp <? 10 then mp + 3 else mp - 9 in
  (if m <=? 2 then y + 1 else y, m, d).

(** Seconds between 1970-01-01 00:00:00 and the wall-clock reading [d]. *)
Definition wall_seconds (d : datetime) : Z :=
  days_from_civil (year d) (month d) (day d) * 86400
  + hour d * 3600 + minute d * 60 + second d.

(** [int(d.replace(tzinfo=timezone(timedelta(seconds=off))).timestamp())] *)
Definition timestamp_at (off : Z) (d : datetime) : Z := wall_seconds d - off.

(** UTC+8, the offset the source hard-codes for Asia/Shanghai. *)
Definition SHANGHAI : Z := 8 * 3600.

(** [datetime.utcfromtimestamp(t)]; [None] when the year leaves 1..9999
    (the call raises). *)
Definition utcfromtimestamp (t : Z) : option datetime :=
  let days := t / 86400 in
  let rem := t mod 86400 in
  let '(y, m, d) := civil_from_days days in
  if (1 <=? y) && (y <=? 9999)
  then Some (mkDT y m d (rem / 3600) ((rem mod 3600) / 60) (rem mod 60))
  else None.

Definition digit_char (n : Z) : ascii :=
  ascii_of_nat (48 + Z.to_nat (n mod 10)).

Definition pad2 (n : Z) : string :=
  String (digit_char (n / 10)) (String (digit_char n) EmptyString).

(** [%Y] of [strftime].  Python hands the format to the C library, and the
    C library of the image (glibc) writes the year without padding: "2025",
    but "999" for the year 999. *)
Definition year_text (n : Z) : string :=
  if n <? 10 then String (digit_char n) EmptyString
  else if n <? 100 then pad2 n
  else if n <? 1000 then String (digit_char (n / 100)) (pad2 n)
  else String (digit_char (n / 1000)) (String (digit_char (n / 100)) (pad2 n)).

(** [d.strftime("%Y%m%d_%H%M%S")] *)
Definition strftime_compact (d : datetime) : string :=
  year_text (year d) ++ pad2 (month d) ++ pad2 (day d) ++ "_"
  ++ pad2 (hour d) ++ pad2 (minute d) ++ pad2 (second d).

(** [d.strftime("%Y-%m-%d %H:%M:%S")] *)
Definition strftime_iso (d : datetime) : string :=
  year_text (year d) ++ "-" ++ pad2 (month d) ++ "-" ++ pad2 (day d) ++ " "
  ++ pad2 (hour d) ++ ":" ++ pad2 (minute d) ++ ":" ++ pad2 (second d).

Fixpoint number_of (acc : Z) (s : string) : option Z :=
  match s with
  | EmptyString => Some acc
  | String c s' =>
      if PyStr.is_digit c
      then number_of (acc * 10 + Z.of_nat (nat_of_ascii c - 48)) s'
      else None
  end.

(** A field of fixed width made of digits only. *)
Definition field (w : nat) (s : string) : option Z :=
  if (String.length s =? w)%nat then number_of 0 s else None.

(** Lines 536-541 of point_in_time_restore.py: the compact stamp is cut into
    [ts[0:4]], [ts[4:6]], [ts[6:8]], [ts[9:11]], [ts[11:13]], [ts[13:15]],
    reassembled as "Y-m-d H:M:S" and handed to [strptime].  Every stamp that
    reaches this code matched [\d{8}_\d{6}], so each slice is a full-width
    run of digits; [strptime] then accepts exactly the valid calendar
    values.  [None] stands for the [ValueError]. *)
Definition parse_compact (ts : string) : option datetime :=
  match field 4 (PyStr.slice 0 4 ts), field 2 (PyStr.slice 4 6 ts),
        field 2 (PyStr.slice 6 8 ts), field 2 (PyStr.slice 9 11 ts),
        field 2 (PyStr.slice 11 13 ts), field 2 (PyStr.slice 13 15 ts) with
  | Some y, Some mo, Some d, Some h, Some mi, Some sec =>
      let dt := mkDT y mo d h mi sec in
      if valid_datetime dt then Some dt else None
  | _, _, _, _, _, _ => None
  end.

(** [datetime.strptime(d.strftime("%Y-%m-%d %H:%M:%S"), "%Y-%m-%d %H:%M:%S")]:
    [%Y] of [strptime] reads exactly four digits, so the text of a year
    below 1000, which [strftime] does not pad, is refused ([ValueError]). *)
Definition reparse_iso (d : datetime) : option datetime :=
  if 1000 <=? year d then Some d else None.

(** The text handed to [strptime] above (it is kept even when parsing
    fails). *)
Definition compact_to_iso_text (ts : string) : string :=
  PyStr.slice 0 4 ts ++ "-" ++ PyStr.slice 4 6 ts ++ "-" ++ PyStr.slice 6 8 ts
  ++ " " ++ PyStr.slice 9 11 ts ++ ":" ++ PyStr.slice 11 13 ts ++ ":"
  ++ PyStr.slice 13 15 ts.

End Codec.

(* ===================================================================== *)
(** ** File system *)
(* ===================================================================== *)

Module FS.

(** A [pathlib.Path]: the components below the root. *)
Definition Path := list string.

Inductive Node := Dir | File (content : string).

(** The nodes that exist, in the order directory listings report them. *)
Definition t := list (Path * Node).

Fixpoint path_eqb (p q : Path) : bool :=
  match p, q with
  | [], [] => true
  | a :: p', b :: q' => String.eqb a b && path_eqb p' q'
  | _, _ => false
  end.

(** [Path(s)]: empty and "." components are dropped. *)
Definition of_string (s : string) : Path :=
  filter (fun c => PyStr.nonempty c && negb (String.eqb c "."))
         (PyStr.split_on (Ascii.eqb "/") s).

(** [p / s] for a relative [s]. *)
Definition join (p : Path) (s : string) : Path := p ++ of_string s.

(** [str(p)] *)
Definition str (p : Path) : string := "/" ++ String.concat "/" p.

(** [p.name] *)
Definition name (p : Path) : string := last p "".

Definition lookup (fs : t) (p : Path) : option Node :=
  match find (fun e => path_eqb (fst e) p) fs with
  | Some e => Some (snd e)
  | None => None
  end.

Definition exists_ (fs : t) (p : Path) : bool :=
  match lookup fs p with Some _ => true | None => false end.

Definition is_dir (fs : t) (p : Path) : bool :=
  match lookup fs p with Some Dir => true | _ => false end.

Definition is_file (fs : t) (p : Path) : bool :=
  match lookup fs p with Some (File _) => true | _ => false end.

Definition read_text (fs : t) (p : Path) : option string :=
  match lookup fs p with Some (File c) => Some c | _ => None end.

(** [st_size == 0] *)
Definition is_empty_file (fs : t) (p : Path) : bool :=
  match lookup fs p with Some (File EmptyString) => true | _ => false end.

(** [Some n] when [p] is the child [d / n]. *)
Fixpoint child_name (d p : Path) : option string :=
  match d, p with
  | [], [n] => Some n
  | a :: d', b :: p' => if String.eqb a b then child_name d' p' else None
  | _, _ => None
  end.

(** [d.iterdir()], as names. *)
Definition iterdir (fs : t) (d : Path) : list string :=
  flat_map (fun e => match child_name d (fst e) with
                     | Some n => [n]
                     | None => []
                     end) fs.

Fixpoint is_prefix (d p : Path) : bool :=
  match d, p with
  | [], _ => true
  | a :: d', b :: p' => String.eqb a b && is_prefix d' p'
  | _ :: _, [] => false
  end.

Definition unlink (fs : t) (p : Path) : t :=
  filter (fun e => negb (path_eqb (fst e) p)) fs.

Definition rmtree (fs : t) (p : Path) : t :=
  filter (fun e => negb (is_prefix p (fst e))) fs.

Definition put (fs : t) (p : Path) (n : Node) : t :=
  if exists_ fs p
  then map (fun e => if path_eqb (fst e) p then (p, n) else e) fs
  else fs ++ [(p, n)].

(** [open(p, "w").write(c)] *)
Definition write_text (fs : t) (p : Path) (c : string) : t := put fs p (File c).

(** [open(p, "a").write(c)] *)
Definition append_text (fs : t) (p : Path) (c : string) : t :=
  match read_text fs p with
  | Some c0 => write_text fs p (c0 ++ c)
  | None => write_text fs p c
  end.

(** [p.mkdir(parents=True, exist_ok=True)] *)
Definition mkdir_p (fs : t) (p : Path) : t :=
  fold_left (fun acc k =>
               let q := firstn k p in
               if exists_ acc q then acc else acc ++ [(q, Dir)])
            (seq 1 (List.length p)) fs.

(** [shutil.copy2(src, dst)] of a regular file; other sources raise, and
    every caller swallows that exception. *)
Definition copy2 (fs : t) (src dst : Path) : t :=
  match read_text fs src with
  | Some c => write_text fs dst c
  | None => fs
  end.

(** [shutil.copytree(src, dst, dirs_exist_ok=True)] *)
Definition copytree (fs : t) (src dst : Path) : t :=
  fold_left (fun acc e =>
               if is_prefix src (fst e)
               then put acc (dst ++ skipn (List.length src) (fst e)) (snd e)
               else acc)
            fs fs.

Definition endswith (suffix s : string) : bool :=
  (String.length suffix <=? String.length s)%nat
  && String.eqb (PyStr.drop (String.length s - String.length suffix) s) suffix.

(** [d.glob("*" + suffix)] *)
Definition glob_suffix (fs : t) (d : Path) (suffix : string) : list string :=
  filter (endswith suffix) (iterdir fs d).

(** [d.glob(prefix + "*")] *)
Definition glob_prefix (fs : t) (d : Path) (prefix : string) : list string :=
  filter (String.prefix prefix) (iterdir fs d).

(** [d.glob(prefix + "[0-9]*")] *)
Definition glob_prefix_digit (fs : t) (d : Path) (prefix : string) : list string :=
  filter (fun n => String.prefix prefix n
                   && match PyStr.drop (String.length prefix) n with
                      | String c _ => PyStr.is_digit c
                      | EmptyString => false
                      end)
         (iterdir fs d).

(** Distinct nodes have distinct paths. *)
Definition wf (fs : t) : Prop := NoDup (map fst fs).

(** [open(p, "w")] succeeds: the parent of [p] is a directory (the root
    always is) and [p] itself is not one. *)
Definition can_open_w (fs : t) (p : Path) : bool :=
  match p with
  | [] => false
  | _ :: _ =>
      match removelast p with
      | [] => true
      | parent => is_dir fs parent
      end
      && negb (is_dir fs p)
  end.

End FS.

(* ===================================================================== *)
(** ** Configuration, environment and the effect monad *)
(* ===================================================================== *)

(** The module-level constants read from [os.environ]. *)
Record Config := {
  BACKUP_BASE_DIR : FS.Path;
  MYSQL_DATA_DIR : FS.Path;
  S3_BACKUP_ENABLED : bool;
  S3_ENDPOINT : string;
  S3_ACCESS_KEY : string;
  S3_SECRET_KEY : string;
  S3_BUCKET : string;
  S3_ALIAS : string
}.

(** What the surrounding system answers. *)
Record Env := {
  (** [subprocess.run(["mc", ...])] can be started *)
  mc_installed : bool;
  (** [mc ls <path>]: return code and standard output *)
  mc_ls : string -> Z * string;
  (** [mc cp <s3 path> <local file>]: return code and effect *)
  mc_cp : string -> FS.Path -> FS.t -> Z * FS.t;
  (** [tarfile.open(tarball).extractall(dest)]: whether it returns ([false]:
      it raises), and the file system it leaves -- on failure, with the
      members written before the error *)
  untar : FS.Path -> FS.Path -> FS.t -> bool * FS.t;
  (** [xtrabackup <args>]: return code and effect *)
  xtrabackup : list string -> FS.t -> Z * FS.t;
  (** [shutil.which("mysqlbinlog")] *)
  mysqlbinlog_installed : bool;
  (** [mysqlbinlog <args>]: return code and standard output *)
  mysqlbinlog : list string -> FS.t -> Z * string;
  (** [d.timestamp()] of a naive [d]: the epoch of the wall-clock reading
      [d] in the process's local zone ([TZ] is set to [RESTORE_TZ]), under
      that zone's rules *)
  local_timestamp : Codec.datetime -> Z;
  (** [datetime.now().strftime('%Y%m%d_%H%M%S')] at its three uses *)
  now_binlog_temp : string;
  now_existing_backup : string;
  now_replay : string;
  (** [random.randint(1000, 9999)] *)
  rand_replay : string
}.

(** Invocations of the two collaborator tools, oldest first, with the
    arguments that follow the program name. *)
Inductive Event :=
| Xtrabackup (args : list string)
| Mysqlbinlog (args : list string).

(** The calls of [error_exit] (exit status 1). *)
Inductive Fatal :=
| NoFullForIncremental      (* "未找到全量备份，无法应用增量备份" *)
| S3DownloadFailed          (* "无法从 S3 下载备份，且本地备份不存在" *)
| FullBackupMissing         (* "全量备份目录不存在或不完整" *)
| CheckpointsMissing        (* "备份文件不完整，找不到 xtrabackup_checkpoints 文件" *)
| FinalPrepareFailed.       (* "备份准备失败，无法继续恢复" *)

Inductive Outcome (A : Type) :=
| Ok (a : A)                (* the call returns *)
| Exit1 (why : Fatal)       (* [sys.exit(1)] through [error_exit] *)
| Raised.                   (* an exception nobody catches *)

Arguments Ok {A} a.
Arguments Exit1 {A} why.
Arguments Raised {A}.

Record State := mkState { st_fs : FS.t; st_trace : list Event }.

Definition M (A : Type) : Type := State -> Outcome A * State.

Definition ret {A} (a : A) : M A := fun s => (Ok a, s).

Definition bind {A B} (c : M A) (k : A -> M B) : M B :=
  fun s =>
    match c s with
    | (Ok a, s') => k a s'
    | (Exit1 w, s') => (Exit1 w, s')
    | (Raised, s') => (Raised, s')
    end.

Definition error_exit {A} (w : Fatal) : M A := fun s => (Exit1 w, s).
Definition raise {A} : M A := fun s => (Raised, s).
Definition get_fs : M FS.t := fun s => (Ok (st_fs s), s).
Definition set_fs (fs : FS.t) : M unit :=
  fun s => (Ok tt, mkState fs (st_trace s)).
Definition update_fs (f : FS.t -> FS.t) : M unit :=
  fun s => (Ok tt, mkState (f (st_fs s)) (st_trace s)).
Definition emit (e : Event) : M unit :=
  fun s => (Ok tt, mkState (st_fs s) (st_trace s ++ [e])).

Declare Scope pitr_scope.
Delimit Scope pitr_scope with pitr.
Notation "x <- c ;; k" := (bind c (fun x => k))
  (at level 61, c at next level, right associativity) : pitr_scope.
Notation "c ;;; k" := (bind c (fun _ => k))
  (at level 61, right associativity) : pitr_scope.

(** A [for] loop whose body may [continue]. *)
Fixpoint for_each {A} (l : list A) (body : A -> M unit) : M unit :=
  match l with
  | [] => ret tt
  | x :: l' => bind (body x) (fun _ => for_each l' body)
  end.

(* ===================================================================== *)
(** ** Chain resolver *)
(* ===================================================================== *)

Inductive Kind := Full | Incremental.

(** [list.sort] is stable; [insert_by le x l] puts [x], which preceded every
    element of [l] in the original list, in front of the first [y] with
    [le x y]. *)
Fixpoint insert_by {A} (le : A -> A -> bool) (x : A) (l : list A) : list A :=
  match l with
  | [] => [x]
  | y :: l' => if le x y then x :: l else y :: insert_by le x l'
  end.

Definition sort_by {A} (le : A -> A -> bool) (l : list A) : list A :=
  fold_right (insert_by le) [] l.

(** [l.sort()] on strings *)
Definition sort_asc (l : list string) : list string := sort_by String.leb l.

(** [l.sort(reverse=True)] on strings *)
Definition sort_desc (l : list string) : list string :=
  sort_by (fun x y => String.leb y x) l.

(** [all_backups.sort(key=lambda x: x[1], reverse=True)] *)
Definition sort_backups_desc (l : list (Kind * string)) : list (Kind * string) :=
  sort_by (fun x y => String.leb (snd y) (snd x)) l.

Section Resolver.

Variable cfg : Config.
Variable env : Env.

Definition full_root : FS.Path := FS.join (BACKUP_BASE_DIR cfg) "full".
Definition incremental_root : FS.Path := FS.join (BACKUP_BASE_DIR cfg) "incremental".

(** [setup_s3_if_needed()] *)
Definition setup_s3_if_needed : bool :=
  S3_BACKUP_ENABLED cfg
  && PyStr.nonempty (S3_ENDPOINT cfg)
  && PyStr.nonempty (S3_ACCESS_KEY cfg)
  && PyStr.nonempty (S3_SECRET_KEY cfg)
  && mc_installed env.

(** The sub-directories of [root] whose name is a timestamp. *)
Definition timestamp_dirs (fs : FS.t) (root : FS.Path) : list string :=
  if FS.exists_ fs root
  then filter (fun n => FS.is_dir fs (FS.join root n) && PyStr.match_timestamp n)
              (FS.iterdir fs root)
  else [].

(** The timestamps [mc ls] reports under [full/] or [incremental/]. *)
Definition s3_timestamps (sub : string) : list string :=
  let '(rc, out) := mc_ls env (S3_ALIAS cfg ++ "/" ++ S3_BUCKET cfg ++ "/" ++ sub ++ "/") in
  if (rc =? 0)%Z then
    flat_map (fun line =>
                match nth_error (PyStr.words line) 5 with
                | Some filename =>
                    match PyStr.match_backup_file filename with
                    | Some ts => [ts]
                    | None => []
                    end
                | None => []
                end)
             (PyStr.split_newline out)
  else [].

(** The backup catalog, as [find_latest_backup_before_target] enumerates
    it: local full, local incremental, then remote full and remote
    incremental when S3 is set up. *)
Definition catalog (fs : FS.t) : list (Kind * string) :=
  map (pair Full) (timestamp_dirs fs full_root)
  ++ map (pair Incremental) (timestamp_dirs fs incremental_root)
  ++ (if setup_s3_if_needed
      then map (pair Full) (s3_timestamps "full")
           ++ map (pair Incremental) (s3_timestamps "incremental")
      else []).

Definition at_or_before (target_timestamp : string) (l : list string) : list string :=
  filter (fun n => String.leb n target_timestamp) l.

(** [all_backups] of [find_latest_backup_before_target], in append order. *)
Definition all_backups (fs : FS.t) (target_timestamp : string) : list (Kind * string) :=
  map (pair Full) (at_or_before target_timestamp (timestamp_dirs fs full_root))
  ++ map (pair Incremental) (at_or_before target_timestamp (timestamp_dirs fs incremental_root))
  ++ (if setup_s3_if_needed
      then map (pair Full) (at_or_before target_timestamp (s3_timestamps "full"))
           ++ map (pair Incremental) (at_or_before target_timestamp (s3_timestamps "incremental"))
      else []).

Definition find_latest_backup_before_target
    (fs : FS.t) (target_datetime : Codec.datetime) : Kind * string :=
  let target_timestamp := Codec.strftime_compact target_datetime in
  match sort_backups_desc (all_backups fs target_timestamp) with
  | b :: _ => b
  | [] => (Full, "")
  end.

(** The names [find_incremental_backups] returns, oldest first; the paths
    are [incremental_root / name], and paths with one parent sort by name. *)
Definition find_incremental_names
    (fs : FS.t) (full_backup_timestamp : string) (target_datetime : Codec.datetime)
    : list string :=
  let target_timestamp := Codec.strftime_compact target_datetime in
  sort_asc
    (filter (fun inc_timestamp =>
               String.ltb full_backup_timestamp inc_timestamp
               && String.ltb inc_timestamp target_timestamp)
            (timestamp_dirs fs incremental_root)).

Definition find_incremental_backups
    (fs : FS.t) (full_backup_timestamp : string) (target_datetime : Codec.datetime)
    : list FS.Path :=
  map (FS.join incremental_root)
      (find_incremental_names fs full_backup_timestamp target_datetime).

(** Python truthiness of an optional string argument. *)
Definition given (o : option string) : option string :=
  match o with
  | Some s => if PyStr.nonempty s then Some s else None
  | None => None
  end.

(** Lines 887-892 of [restore_to_point_in_time]. *)
Definition choose_backup
    (fs : FS.t) (target_datetime : Codec.datetime)
    (full_backup_timestamp : option string) : Kind * string :=
  match given full_backup_timestamp with
  | Some ts => (Full, ts)
  | None => find_latest_backup_before_target fs target_datetime
  end.

(** Lines 894-920: the base and the incrementals fixed before discovery.
    Both branches overwrite the caller's [incremental_backups]. *)
Definition choose_base
    (fs : FS.t) (chosen : Kind * string) : Outcome (string * list FS.Path) :=
  match chosen with
  | (Incremental, backup_timestamp) =>
      match sort_desc (timestamp_dirs fs full_root) with
      | full_backup_timestamp :: _ =>
          Ok (full_backup_timestamp,
              [FS.join incremental_root backup_timestamp])
      | [] => Exit1 NoFullForIncremental
      end
  | (Full, backup_timestamp) => Ok (backup_timestamp, [])
  end.

(** Lines 1027-1037: discovery runs when no incremental is fixed yet. *)
Definition discover
    (fs : FS.t) (target_datetime : Codec.datetime)
    (full_backup_timestamp : string) (incremental_backups : list FS.Path)
    : list FS.Path :=
  match incremental_backups with
  | [] => find_incremental_backups fs full_backup_timestamp target_datetime
  | _ => incremental_backups
  end.

(** The chain a restore works with: base timestamp and incrementals. *)
Definition resolve_chain
    (fs : FS.t) (target_datetime : Codec.datetime)
    (full_backup_timestamp : option string) : Outcome (string * list FS.Path) :=
  match choose_base fs (choose_backup fs target_datetime full_backup_timestamp) with
  | Ok (base, incs) => Ok (base, discover fs target_datetime base incs)
  | Exit1 w => Exit1 w
  | Raised => Raised
  end.

End Resolver.

(* ===================================================================== *)
(** ** Binlog window extractor: [apply_binlog_to_datetime] *)
(* ===================================================================== *)

Section Binlog.

Variable cfg : Config.
Variable env : Env.

Local Open Scope pitr_scope.

Definition ORIGINAL_DATA_DIR : FS.Path := FS.of_string "/var/lib/mysql".

Definition pitr_marker : FS.Path := FS.join (BACKUP_BASE_DIR cfg) ".pitr_restore_marker".

Definition temp_sql : FS.Path :=
  FS.join (BACKUP_BASE_DIR cfg)
          ("pitr_replay_" ++ now_replay env ++ "_" ++ rand_replay env ++ ".sql").

(** Lines 388-414: the index file and the directory its entries are
    relative to. *)
Definition locate_binlog_index (fs : FS.t) : option (FS.Path * FS.Path) :=
  let binlog_index_file := FS.join (MYSQL_DATA_DIR cfg) "mysql-bin.index" in
  if FS.exists_ fs binlog_index_file
  then Some (binlog_index_file, MYSQL_DATA_DIR cfg)
  else
    let original_binlog_index := FS.join ORIGINAL_DATA_DIR "mysql-bin.index" in
    if FS.exists_ fs original_binlog_index
    then Some (original_binlog_index, ORIGINAL_DATA_DIR)
    else None.

(** Lines 418-448; [None] when the index cannot be read. *)
Definition read_binlog_files
    (fs : FS.t) (binlog_index binlog_dir : FS.Path) : option (list FS.Path) :=
  match FS.read_text fs binlog_index with
  | None => None
  | Some content =>
      Some (flat_map
              (fun raw =>
                 let line := PyStr.strip raw in
                 if PyStr.nonempty line then
                   let binlog_file :=
                     if PyStr.startswith "/" line then FS.of_string line
                     else FS.join binlog_dir line in
                   if FS.exists_ fs binlog_file then [binlog_file]
                   else
                     let filename := FS.name (FS.of_string line) in
                     let binlog_file := FS.join binlog_dir filename in
                     if FS.exists_ fs binlog_file then [binlog_file] else []
                 else [])
              (PyStr.file_lines content))
  end.

(** Lines 490-504: the newest timestamp among the applied incrementals. *)
Definition newest_applied_incremental
    (applied_incremental_backups : option (list string)) : option string :=
  match applied_incremental_backups with
  | Some l =>
      match sort_desc (filter PyStr.match_timestamp
                              (map (fun inc_path => FS.name (FS.of_string inc_path)) l)) with
      | ts :: _ => Some ts
      | [] => None
      end
  | None => None
  end.

(** Lines 511-524: [latest_backup_timestamp] (empty when unknown). *)
Definition latest_backup_timestamp_of
    (full_backup_timestamp : option string)
    (applied_incremental_backups : option (list string)) : string :=
  match given (newest_applied_incremental applied_incremental_backups),
        given full_backup_timestamp with
  | Some inc, Some full => if String.ltb full inc then inc else full
  | Some inc, None => inc
  | None, Some full => full
  | None, None => ""
  end.

(** [d.timestamp()] of a naive [d]. *)
Definition naive_timestamp (d : Codec.datetime) : Z := local_timestamp env d.

(** Lines 585-590 and 660-667: the stop bound, target + 1 second in UTC.
    [Ok None]: the epoch is falsy; [Raised]: [utcfromtimestamp] is out of
    range. *)
Definition stop_datetime_utc_of (target_timestamp_epoch : Z) : M (option string) :=
  if (target_timestamp_epoch =? 0)%Z then ret None
  else
    let stop_timestamp := (target_timestamp_epoch + 1)%Z in
    match Codec.utcfromtimestamp stop_timestamp with
    | Some stop_dt_utc => ret (Some (Codec.strftime_iso stop_dt_utc))
    | None => raise
    end.

(** Lines 593-620: [true] when the step is to be skipped.  Both bounds are
    parsed back from their texts, outside any [try]. *)
Definition window_is_void
    (latest_backup_timestamp : string) (target_timestamp_epoch : Z)
    (start_datetime_utc stop_datetime_utc : option string) : M bool :=
  match start_datetime_utc, stop_datetime_utc with
  | Some _, Some _ =>
      match Codec.parse_compact latest_backup_timestamp,
            match Codec.utcfromtimestamp (target_timestamp_epoch + 1) with
            | Some stop_dt => Codec.reparse_iso stop_dt
            | None => None
            end with
      | Some start_dt, Some stop_dt =>
          let start_epoch := naive_timestamp start_dt in
          let stop_epoch := naive_timestamp stop_dt in
          let backup_timestamp_epoch := Codec.timestamp_at 0 start_dt in
          if (stop_epoch <=? start_epoch)%Z
          then ret (target_timestamp_epoch <=? backup_timestamp_epoch)%Z
          else ret false
      | _, _ => raise
      end
  | _, _ => ret false
  end.

(** Lines 529-549: the backup instant shown in the local zone; absent when
    the stamp does not parse or the shift overflows. *)
Definition latest_backup_datetime_local_of (latest_backup_timestamp : string)
    : option string :=
  match Codec.parse_compact latest_backup_timestamp with
  | Some backup_dt_utc =>
      option_map Codec.strftime_iso
        (Codec.utcfromtimestamp (Codec.timestamp_at 0 backup_dt_utc + Codec.SHANGHAI))
  | None => None
  end.

Definition run_mysqlbinlog (args : list string) : M (Z * string) :=
  fun s =>
    (Ok (mysqlbinlog env args (st_fs s)),
     mkState (st_fs s) (st_trace s ++ [Mysqlbinlog args])).

(** Lines 645-678: the arguments of the batched call. *)
Definition binlog_cmd_args
    (start_datetime_utc : option string) (stop_datetime_utc : string)
    (binlog_files : list FS.Path) : list string :=
  ["--skip-gtids"]
  ++ match start_datetime_utc with
     | Some start => ["--start-datetime"; start; "--start-datetime"; start]
     | None => []
     end
  ++ ["--stop-datetime"; stop_datetime_utc]
  ++ map FS.str binlog_files.

(** Lines 718-725: the arguments of one per-segment call. *)
Definition single_cmd
    (start_datetime_utc latest_backup_datetime_local : option string)
    (stop_datetime_utc : string) (binlog_file : FS.Path) : list string :=
  ["--skip-gtids"]
  ++ match start_datetime_utc, given latest_backup_datetime_local with
     | Some _, Some local => ["--start-datetime"; local]
     | _, _ => []
     end
  ++ ["--stop-datetime"; stop_datetime_utc]
  ++ [FS.str binlog_file].

(** Lines 716-749: per-segment extraction, counting the segments kept.  The
    scratch file of each round is created and unlinked within the round. *)
Fixpoint extract_each
    (start_datetime_utc latest_backup_datetime_local : option string)
    (stop_datetime_utc : string) (binlog_files : list FS.Path)
    (processed_files : nat) : M nat :=
  match binlog_files with
  | [] => ret processed_files
  | binlog_file :: rest =>
      r <- run_mysqlbinlog
             (single_cmd start_datetime_utc latest_backup_datetime_local
                         stop_datetime_utc binlog_file) ;;
      let '(returncode, content) := r in
      if (returncode =? 0)%Z && PyStr.nonempty (PyStr.strip content)
      then update_fs (fun fs => FS.append_text fs temp_sql content) ;;;
           extract_each start_datetime_utc latest_backup_datetime_local
                        stop_datetime_utc rest (S processed_files)
      else extract_each start_datetime_utc latest_backup_datetime_local
                        stop_datetime_utc rest processed_files
  end.

Definition unlink_if_exists (p : FS.Path) : M unit :=
  update_fs (fun fs => if FS.exists_ fs p then FS.unlink fs p else fs).

(** Lines 778-869: keep the replay file and persist the marker, or drop an
    empty replay file. *)
Definition publish_replay_file : M unit :=
  fs <- get_fs ;;
  if negb (FS.exists_ fs temp_sql) || FS.is_empty_file fs temp_sql
  then unlink_if_exists temp_sql
  else
    update_fs (fun fs => FS.mkdir_p fs (BACKUP_BASE_DIR cfg)) ;;;
    update_fs (fun fs => FS.write_text fs pitr_marker (FS.str temp_sql)).

(** Lines 637-776: the batched extraction and its per-segment fallback. *)
Definition extract_window
    (start_datetime_utc latest_backup_datetime_local : option string)
    (stop_datetime_utc : string) (binlog_files : list FS.Path) : M unit :=
  r <- run_mysqlbinlog
         (binlog_cmd_args start_datetime_utc stop_datetime_utc binlog_files) ;;
  let '(returncode, stdout) := r in
  update_fs (fun fs => FS.write_text fs temp_sql stdout) ;;;
  if negb (returncode =? 0)%Z then
    processed_files <-
      extract_each start_datetime_utc latest_backup_datetime_local
                   stop_datetime_utc binlog_files 0 ;;
    match processed_files with
    | O => unlink_if_exists temp_sql
    | S _ => publish_replay_file
    end
  else publish_replay_file.

Definition apply_binlog_to_datetime
    (target_datetime : Codec.datetime)
    (full_backup_timestamp : option string)
    (applied_incremental_backups : option (list string)) : M unit :=
  fs <- get_fs ;;
  match locate_binlog_index fs with
  | None => ret tt
  | Some (binlog_index, binlog_dir) =>
      match read_binlog_files fs binlog_index binlog_dir with
      | None => ret tt
      | Some [] => ret tt
      | Some binlog_files =>
          if negb (mysqlbinlog_installed env) then ret tt
          else
            let latest_backup_timestamp :=
              latest_backup_timestamp_of full_backup_timestamp
                                         applied_incremental_backups in
            let latest_backup_datetime_utc :=
              if PyStr.nonempty latest_backup_timestamp
              then Some (Codec.compact_to_iso_text latest_backup_timestamp)
              else None in
            let latest_backup_datetime_local :=
              latest_backup_datetime_local_of latest_backup_timestamp in
            let target_timestamp_epoch :=
              Codec.timestamp_at Codec.SHANGHAI target_datetime in
            let start_datetime_utc := latest_backup_datetime_utc in
            stop_datetime_utc <- stop_datetime_utc_of target_timestamp_epoch ;;
            void <- window_is_void latest_backup_timestamp target_timestamp_epoch
                                   start_datetime_utc stop_datetime_utc ;;
            if (void : bool) then ret tt
            else
              match stop_datetime_utc with
              | None => ret tt
              | Some stop =>
                  extract_window start_datetime_utc latest_backup_datetime_local
                                 stop binlog_files
              end
      end
  end.

End Binlog.

(* ===================================================================== *)
(** ** Restore pipeline: [restore_to_point_in_time] *)
(* ===================================================================== *)

Section Pipeline.

Variable cfg : Config.
Variable env : Env.

Local Open Scope pitr_scope.

Definition run_xtrabackup (args : list string) : M Z :=
  fun s =>
    let '(returncode, fs') := xtrabackup env args (st_fs s) in
    (Ok returncode, mkState fs' (st_trace s ++ [Xtrabackup args])).

(** [with tarfile.open(tarball) as tar: tar.extractall(path=dest)] followed
    by [tarball.unlink()], outside any [try]. *)
Definition extract_tarball (tarball dest : FS.Path) : M unit :=
  fun s =>
    let '(extracted, fs') := untar env tarball dest (st_fs s) in
    if extracted : bool
    then (Ok tt, mkState (FS.unlink fs' tarball) (st_trace s))
    else (Raised, mkState fs' (st_trace s)).

(** The common body of the two S3 download functions: every failure is
    caught and reported as [False]. *)
Definition download_from_s3 (sub timestamp : string) (target_dir : FS.Path) : M bool :=
  fun s =>
    let fs0 := FS.mkdir_p (st_fs s) target_dir in
    let backup_file := ("backup_" ++ timestamp ++ ".tar.gz")%string in
    let s3_path :=
      (S3_ALIAS cfg ++ "/" ++ S3_BUCKET cfg ++ "/" ++ sub ++ "/" ++ backup_file)%string in
    let local_file := FS.join target_dir "backup.tar.gz" in
    let '(returncode, fs1) := mc_cp env s3_path local_file fs0 in
    if negb (returncode =? 0)%Z then (Ok false, mkState fs1 (st_trace s))
    else if FS.exists_ fs1 local_file then
      let '(extracted, fs2) := untar env local_file target_dir fs1 in
      if extracted : bool
      then (Ok true, mkState (FS.unlink fs2 local_file) (st_trace s))
      else (Ok false, mkState fs2 (st_trace s))
    else (Ok false, mkState fs1 (st_trace s)).

Definition download_full_backup_from_s3 (timestamp : string) (target_dir : FS.Path) : M bool :=
  let timestamp := PyStr.strip timestamp in
  if negb (PyStr.nonempty timestamp) then ret false
  else download_from_s3 "full" timestamp target_dir.

Definition download_incremental_backup_from_s3 (timestamp : string) (target_dir : FS.Path) : M bool :=
  download_from_s3 "incremental" timestamp target_dir.

Definition checkpoints (dir : FS.Path) : FS.Path := FS.join dir "xtrabackup_checkpoints".
Definition tarball (dir : FS.Path) : FS.Path := FS.join dir "backup.tar.gz".

(** Lines 922-941: the base must be on disk, or be fetched. *)
Definition ensure_full_backup (full_backup_timestamp : string) : M unit :=
  let full_backup_dir := FS.join (full_root cfg) full_backup_timestamp in
  fs <- get_fs ;;
  if negb (FS.exists_ fs full_backup_dir) || negb (FS.exists_ fs (checkpoints full_backup_dir))
  then
    if FS.exists_ fs (tarball full_backup_dir)
    then extract_tarball (tarball full_backup_dir) full_backup_dir
    else if setup_s3_if_needed cfg env then
      ok <- download_full_backup_from_s3 full_backup_timestamp full_backup_dir ;;
      if (ok : bool) then ret tt else error_exit S3DownloadFailed
    else error_exit FullBackupMissing
  else ret tt.

Definition binlog_temp_dir : FS.Path :=
  FS.join (BACKUP_BASE_DIR cfg) ("binlog_temp_pitr_" ++ now_binlog_temp env).

(** Lines 972-1017, one index entry. *)
Definition save_binlog_entry (raw : string) : M unit :=
  let line := PyStr.strip raw in
  if negb (PyStr.nonempty line) then ret tt
  else
    fs <- get_fs ;;
    let binlog_file :=
      if PyStr.startswith "/" line then FS.of_string line
      else FS.join (MYSQL_DATA_DIR cfg) (PyStr.lstrip_chars ["."; "/"]%char line) in
    let found :=
      if FS.exists_ fs binlog_file then Some binlog_file
      else
        let binlog_file_alt := FS.join (MYSQL_DATA_DIR cfg) (FS.name (FS.of_string line)) in
        if FS.exists_ fs binlog_file_alt then Some binlog_file_alt else None in
    match found with
    | None => ret tt
    | Some binlog_file =>
        if PyStr.startswith "mysql-bin." (FS.name binlog_file)
        then update_fs (fun fs => FS.copy2 fs binlog_file
                                           (FS.join binlog_temp_dir (FS.name binlog_file)))
        else ret tt
    end.

(** Lines 945-1025: the live binlog files are copied aside. *)
Definition save_binlogs : M unit :=
  update_fs (fun fs => FS.mkdir_p fs binlog_temp_dir) ;;;
  fs <- get_fs ;;
  let binlog_index_file := FS.join (MYSQL_DATA_DIR cfg) "mysql-bin.index" in
  if FS.exists_ fs binlog_index_file then
    update_fs (fun fs => FS.copy2 fs binlog_index_file
                                  (FS.join binlog_temp_dir "mysql-bin.index")) ;;;
    match FS.read_text fs binlog_index_file with
    | Some content => for_each (PyStr.file_lines content) save_binlog_entry
    | None => ret tt
    end
  else ret tt.

(** Decompress what [dir] holds, when its checkpoint file is missing;
    returns whether the checkpoint file is there afterwards. *)
Definition unpack (dir : FS.Path) : M bool :=
  fs <- get_fs ;;
  if FS.exists_ fs (checkpoints dir) then ret true
  else
    (if FS.exists_ fs (tarball dir) then extract_tarball (tarball dir) dir else ret tt) ;;;
    fs <- get_fs ;;
    (match FS.glob_suffix fs dir ".zst" with
     | [] => ret tt
     | _ => rc <- run_xtrabackup ["--decompress"; ("--target-dir=" ++ FS.str dir)%string] ;; ret tt
     end) ;;;
    fs <- get_fs ;;
    ret (FS.exists_ fs (checkpoints dir)).

(** Lines 1039-1074: the base prepare, with [--apply-log-only]. *)
Definition prepare_base (full_backup_dir : FS.Path) : M unit :=
  ready <- unpack full_backup_dir ;;
  if (ready : bool) then
    rc <- run_xtrabackup ["--prepare"; "--apply-log-only";
                          ("--target-dir=" ++ FS.str full_backup_dir)%string] ;;
    ret tt
  else error_exit CheckpointsMissing.

(** Lines 1077-1136: one round of the merge loop. *)
Definition merge_incremental (full_backup_dir inc_backup_dir : FS.Path) : M unit :=
  let inc_timestamp := FS.name inc_backup_dir in
  fs <- get_fs ;;
  present <-
    (if negb (FS.exists_ fs inc_backup_dir) || negb (FS.exists_ fs (checkpoints inc_backup_dir))
     then
       if FS.exists_ fs (tarball inc_backup_dir) then
         update_fs (fun fs => FS.mkdir_p fs inc_backup_dir) ;;;
         extract_tarball (tarball inc_backup_dir) inc_backup_dir ;;;
         ret true
       else if setup_s3_if_needed cfg env then
         download_incremental_backup_from_s3 inc_timestamp inc_backup_dir
       else ret false
     else ret true) ;;
  if (present : bool) then
    fs <- get_fs ;;
    if FS.exists_ fs inc_backup_dir then
      ready <- unpack inc_backup_dir ;;
      if (ready : bool) then
        rc <- run_xtrabackup ["--prepare"; "--apply-log-only";
                              ("--target-dir=" ++ FS.str full_backup_dir)%string;
                              ("--incremental-dir=" ++ FS.str inc_backup_dir)%string] ;;
        ret tt
      else ret tt
    else ret tt
  else ret tt.

(** Lines 1138-1155: the final prepare; the one checked return code. *)
Definition final_prepare (full_backup_dir : FS.Path) : M unit :=
  rc <- run_xtrabackup ["--prepare"; ("--target-dir=" ++ FS.str full_backup_dir)%string] ;;
  if negb (rc =? 0)%Z then error_exit FinalPrepareFailed else ret tt.

(** Lines 1168-1201: the data directory is copied aside and emptied. *)
Definition purge_datadir : M unit :=
  fs <- get_fs ;;
  let datadir := MYSQL_DATA_DIR cfg in
  match (if FS.exists_ fs datadir then FS.iterdir fs datadir else []) with
  | [] => ret tt
  | _ :: _ =>
      let existing_backup :=
        FS.join (BACKUP_BASE_DIR cfg) ("existing_data_backup_" ++ now_existing_backup env) in
      update_fs (fun fs => FS.mkdir_p fs existing_backup) ;;;
      fs <- get_fs ;;
      for_each (FS.iterdir fs datadir)
        (fun item =>
           if negb (PyStr.startswith "mysql-bin." item) then
             update_fs (fun fs =>
                          if FS.is_file fs (FS.join datadir item)
                          then FS.copy2 fs (FS.join datadir item) (FS.join existing_backup item)
                          else if FS.is_dir fs (FS.join datadir item)
                          then FS.copytree fs (FS.join datadir item) (FS.join existing_backup item)
                          else fs)
           else ret tt) ;;;
      fs <- get_fs ;;
      for_each (FS.iterdir fs datadir)
        (fun item =>
           update_fs (fun fs =>
                        if FS.is_file fs (FS.join datadir item)
                        then FS.unlink fs (FS.join datadir item)
                        else if FS.is_dir fs (FS.join datadir item)
                        then FS.rmtree fs (FS.join datadir item)
                        else fs))
  end.

(** Lines 1203-1214: the materialization. *)
Definition copy_back (full_backup_dir : FS.Path) : M unit :=
  rc <- run_xtrabackup ["--copy-back"; ("--target-dir=" ++ FS.str full_backup_dir)%string;
                        ("--datadir=" ++ FS.str (MYSQL_DATA_DIR cfg))%string] ;;
  ret tt.

Definition unlink_file (p : FS.Path) : M unit :=
  update_fs (fun fs => if FS.is_file fs p then FS.unlink fs p else fs).

(** Lines 1224-1243: binlog files that came with the snapshot are removed. *)
Definition drop_stale_binlogs : M unit :=
  fs <- get_fs ;;
  let datadir := MYSQL_DATA_DIR cfg in
  match FS.glob_prefix fs datadir "mysql-bin." with
  | [] => ret tt
  | restored_binlog_files =>
      for_each restored_binlog_files (fun n => unlink_file (FS.join datadir n)) ;;;
      unlink_file (FS.join datadir "mysql-bin.index")
  end.

(** Lines 1245-1282: the live binlog files are copied back. *)
Definition restore_binlogs : M unit :=
  fs <- get_fs ;;
  let datadir := MYSQL_DATA_DIR cfg in
  let saved_binlog_index := FS.join binlog_temp_dir "mysql-bin.index" in
  if FS.exists_ fs binlog_temp_dir && FS.is_file fs saved_binlog_index then
    update_fs (fun fs => FS.copy2 fs saved_binlog_index (FS.join datadir "mysql-bin.index")) ;;;
    for_each (FS.glob_prefix_digit fs binlog_temp_dir "mysql-bin.")
      (fun n => update_fs (fun fs => FS.copy2 fs (FS.join binlog_temp_dir n)
                                              (FS.join datadir n))) ;;;
    update_fs (fun fs => FS.rmtree fs binlog_temp_dir)
  else ret tt.

(** Lines 1286-1292 *)
Definition applied_inc_backups (fs : FS.t) (incremental_backups : list FS.Path) : list string :=
  map FS.str
      (filter (fun d => FS.exists_ fs d && FS.exists_ fs (checkpoints d))
              incremental_backups).

(** Lines 887-1037: the chain the restore works with -- the base, checked
    to be on disk or fetched, and the incrementals to merge. *)
Definition resolve_backup_chain
    (target_datetime : Codec.datetime)
    (full_backup_timestamp : option string)
    : M (string * list FS.Path) :=
  fs <- get_fs ;;
  let chosen := choose_backup cfg env fs target_datetime full_backup_timestamp in
  match choose_base cfg fs chosen with
  | Exit1 w => error_exit w
  | Raised => raise
  | Ok (full_backup_timestamp, incremental_backups) =>
      ensure_full_backup full_backup_timestamp ;;;
      save_binlogs ;;;
      fs <- get_fs ;;
      ret (full_backup_timestamp,
           discover cfg fs target_datetime full_backup_timestamp incremental_backups)
  end.

(** Everything up to the binlog step; returns what that step is given. *)
Definition restore_backup_chain
    (target_datetime : Codec.datetime)
    (full_backup_timestamp : option string)
    : M (string * list string) :=
  chain <- resolve_backup_chain target_datetime full_backup_timestamp ;;
  let '(full_backup_timestamp, incremental_backups) := chain in
  let full_backup_dir := FS.join (full_root cfg) full_backup_timestamp in
  prepare_base full_backup_dir ;;;
  for_each incremental_backups (merge_incremental full_backup_dir) ;;;
  final_prepare full_backup_dir ;;;
  purge_datadir ;;;
  copy_back full_backup_dir ;;;
  drop_stale_binlogs ;;;
  restore_binlogs ;;;
  fs <- get_fs ;;
  ret (full_backup_timestamp, applied_inc_backups fs incremental_backups).

(** [restore_to_point_in_time].  The caller's list of incrementals is
    overwritten on both branches of the backup-type test before it is read,
    so it is not a parameter here.  Returning [Ok tt] is the run that logs
    "时间点恢复完成" and lets the process end with status 0. *)
Definition restore_to_point_in_time
    (target_datetime : Codec.datetime)
    (full_backup_timestamp : option string) : M unit :=
  chain <- restore_backup_chain target_datetime full_backup_timestamp ;;
  let '(full_backup_timestamp, applied) := chain in
  apply_binlog_to_datetime cfg env target_datetime (Some full_backup_timestamp)
    (match applied with [] => None | _ => Some applied end) ;;;
  ret tt.

End Pipeline.

(* ===================================================================== *)
(** ** Deferred apply engine: apply_pitr_binlog.py *)
(* ===================================================================== *)

Module DeferredApply.

Definition PITR_MARKER : FS.Path := FS.of_string "/backups/.pitr_restore_marker".

(** How [subprocess.run(["mysql", ..., "--force"], stdin=sql, timeout=3600)]
    ends. *)
Inductive MysqlRun :=
| Exited (returncode : Z) (stdout stderr : string)
| TimedOut
| Failed.

Record Env := {
  (** [wait_for_mysql()] *)
  wait_for_mysql : bool;
  (** the replay of a file with the given content; the files the server
      writes while it replays are its own and not part of [FS.t] here *)
  mysql_force : string -> MysqlRun
}.

(** Lines 234-241 *)
Definition is_non_critical (line_upper : string) : bool :=
  PyStr.contains "ERROR 1050" line_upper
  || PyStr.contains "ERROR 1062" line_upper
  || PyStr.contains "ERROR 1032" line_upper
  || PyStr.contains "ERROR 1146" line_upper
  || PyStr.contains "USING A PASSWORD" line_upper
  || PyStr.contains "WARNING" line_upper.

(** Lines 227-243: the test that puts a line into [critical_errors]. *)
Definition is_critical (line : string) : bool :=
  let line_upper := PyStr.upper line in
  PyStr.contains "ERROR" line_upper && negb (is_non_critical line_upper).

(** Lines 225-243 *)
Definition critical_errors (output : string) : list string :=
  map PyStr.strip (filter is_critical (PyStr.split_newline output)).

Section Engine.

Variable env : Env.

(** [apply_sql_file]: success flag, exit code, combined output and number of
    critical lines ([error_stats] is only logged). *)
Definition apply_sql_file (fs : FS.t) (sql_file : FS.Path) : bool * Z * string * nat :=
  match FS.read_text fs sql_file with
  | None => (false, (-1)%Z, "", O)
  | Some sql =>
      match mysql_force env sql with
      | Exited returncode stdout stderr =>
          let output := (stdout ++ stderr)%string in
          (true, returncode, output, List.length (critical_errors output))
      | TimedOut => (false, (-1)%Z, "", O)
      | Failed => (false, (-1)%Z, "", O)
      end
  end.

Definition remove_marker (fs : FS.t) : FS.t :=
  if FS.exists_ fs PITR_MARKER then FS.unlink fs PITR_MARKER else fs.

(** [main()]: the value returned and the file system left behind. *)
Definition main (fs : FS.t) : Z * FS.t :=
  if negb (FS.exists_ fs PITR_MARKER) then (0%Z, fs)
  else
    match FS.read_text fs PITR_MARKER with
    | None => (1%Z, fs)
    | Some raw =>
        let sql_file := PyStr.strip raw in
        if negb (PyStr.nonempty sql_file) || negb (FS.exists_ fs (FS.of_string sql_file))
        then (1%Z, remove_marker fs)
        else if negb (wait_for_mysql env) then (1%Z, fs)
        else
          let '(success, exit_code, output, critical_count) :=
            apply_sql_file fs (FS.of_string sql_file) in
          if negb success then (1%Z, fs)
          else if (exit_code =? 0)%Z then (0%Z, remove_marker fs)
          else if (critical_count =? 0)%nat then (0%Z, remove_marker fs)
          else (1%Z, fs)
    end.

End Engine.

End DeferredApply.

(* ===================================================================== *)
(** ** Observations used to state the properties *)
(* ===================================================================== *)

(** The command line of an extraction carries [--stop-datetime v] right
    after [--skip-gtids] and the optional start bound. *)
Definition stop_bound_is (v : string) (args : list string) : Prop :=
  exists start_part files,
    args = ["--skip-gtids"] ++ start_part ++ ["--stop-datetime"; v] ++ files
    /\ (start_part = []
        \/ exists start,
             start_part = ["--start-datetime"; start]
             \/ start_part = ["--start-datetime"; start; "--start-datetime"; start]).

(** An extraction event whose stop bound is [stop]. *)
Definition extraction_stops_at (stop : string) (e : Event) : Prop :=
  exists args, e = Mysqlbinlog args /\ stop_bound_is stop args.

(** [c] only appends events that satisfy [P]. *)
Definition emits {A} (P : Event -> Prop) (c : M A) : Prop :=
  forall s, exists evs,
    st_trace (snd (c s)) = st_trace s ++ evs /\ Forall P evs.

(** First day of year [y] of an era, counted from the era's first day. *)
Definition year_start (y : Z) : Z := (365 * y + y / 4 - y / 100 + y / 400)%Z.

(** The year of the era [Codec.civil_from_days] assigns to day [doe]. *)
Definition year_of_era (doe : Z) : Z :=
  ((doe - doe / 1460 + doe / 36524 - doe / 146096) / 365)%Z.

(** Year [y] of an era begins and ends in year [y] and has at most 366
    days. *)
Definition year_check (y : Z) : bool :=
  ((year_of_era (year_start y) =? y)
   && (year_of_era (year_start (y + 1) - 1) =? y)
   && (year_start y <? year_start (y + 1))
   && (year_start (y + 1) - year_start y <=? 366))%Z.

(** [year_check] on [n] consecutive years from [y]. *)
Fixpoint years_checked (n : nat) (y : Z) : bool :=
  match n with
  | O => true
  | S n' => year_check y && years_checked n' (y + 1)%Z
  end.

(* ===================================================================== *)
(** ** Sample worlds *)
(* ===================================================================== *)

Module Worlds.

Definition cfg_local : Config := {|
  BACKUP_BASE_DIR := FS.of_string "/backups";
  MYSQL_DATA_DIR := FS.of_string "/var/lib/mysql";
  S3_BACKUP_ENABLED := false;
  S3_ENDPOINT := ""; S3_ACCESS_KEY := ""; S3_SECRET_KEY := "";
  S3_BUCKET := "mysql-backups"; S3_ALIAS := "s3" |}.

Definition cfg_s3 : Config := {|
  BACKUP_BASE_DIR := FS.of_string "/backups";
  MYSQL_DATA_DIR := FS.of_string "/var/lib/mysql";
  S3_BACKUP_ENABLED := true;
  S3_ENDPOINT := "minio:9000"; S3_ACCESS_KEY := "key"; S3_SECRET_KEY := "secret";
  S3_BUCKET := "mysql-backups"; S3_ALIAS := "s3" |}.

(** Every tool is installed and succeeds; the remote store lists nothing. *)
Definition env_ok : Env := {|
  mc_installed := true;
  mc_ls := fun _ => (0%Z, "");
  mc_cp := fun _ _ fs => (1%Z, fs);
  untar := fun _ _ fs => (false, fs);
  xtrabackup := fun _ fs => (0%Z, fs);
  mysqlbinlog_installed := true;
  mysqlbinlog := fun _ _ => (0%Z, "BINLOG 'aGVsbG8=';");
  local_timestamp := fun d => (Codec.wall_seconds d - 28800)%Z;
  now_binlog_temp := "20250110_000000";
  now_existing_backup := "20250110_000001";
  now_replay := "20250110_000002";
  rand_replay := "1234" |}.

(** The remote store holds one full backup, newer than the local one. *)
Definition env_remote_full : Env := {|
  mc_installed := true;
  mc_ls := fun path =>
    if String.eqb path "s3/mysql-backups/full/"
    then (0%Z, "[2025-01-05 00:10:00 UTC] 1.2GiB STANDARD backup_20250105_000000.tar.gz")
    else (0%Z, "");
  mc_cp := fun _ _ fs => (1%Z, fs);
  untar := fun _ _ fs => (false, fs);
  xtrabackup := fun _ fs => (0%Z, fs);
  mysqlbinlog_installed := true;
  mysqlbinlog := fun _ _ => (0%Z, "BINLOG 'aGVsbG8=';");
  local_timestamp := fun d => (Codec.wall_seconds d - 28800)%Z;
  now_binlog_temp := "20250110_000000";
  now_existing_backup := "20250110_000001";
  now_replay := "20250110_000002";
  rand_replay := "1234" |}.

(** [xtrabackup] fails on every apply-log-only prepare and on copy-back;
    only the final prepare succeeds. *)
Definition env_failing_merge : Env := {|
  mc_installed := true;
  mc_ls := fun _ => (0%Z, "");
  mc_cp := fun _ _ fs => (1%Z, fs);
  untar := fun _ _ fs => (false, fs);
  xtrabackup := fun args fs =>
    if existsb (String.eqb "--apply-log-only") args
       || existsb (String.eqb "--copy-back") args
    then (1%Z, fs) else (0%Z, fs);
  mysqlbinlog_installed := true;
  mysqlbinlog := fun _ _ => (0%Z, "BINLOG 'aGVsbG8=';");
  local_timestamp := fun d => (Codec.wall_seconds d - 28800)%Z;
  now_binlog_temp := "20250110_000000";
  now_existing_backup := "20250110_000001";
  now_replay := "20250110_000002";
  rand_replay := "1234" |}.

(** [mysqlbinlog] is not installed. *)
Definition env_no_mysqlbinlog : Env := {|
  mc_installed := true;
  mc_ls := fun _ => (0%Z, "");
  mc_cp := fun _ _ fs => (1%Z, fs);
  untar := fun _ _ fs => (false, fs);
  xtrabackup := fun _ fs => (0%Z, fs);
  mysqlbinlog_installed := false;
  mysqlbinlog := fun _ _ => (127%Z, "");
  local_timestamp := fun d => (Codec.wall_seconds d - 28800)%Z;
  now_binlog_temp := "20250110_000000";
  now_existing_backup := "20250110_000001";
  now_replay := "20250110_000002";
  rand_replay := "1234" |}.

Definition dir (p : string) : FS.Path * FS.Node := (FS.of_string p, FS.Dir).
Definition file (p c : string) : FS.Path * FS.Node := (FS.of_string p, FS.File c).

(** A prepared backup directory. *)
Definition backup (p : string) : FS.t :=
  [dir p; file (p ++ "/xtrabackup_checkpoints")%string "backup_type = full-backuped"].

Definition live_datadir : FS.t :=
  [dir "/var/lib/mysql";
   file "/var/lib/mysql/mysql-bin.index" "./mysql-bin.000001";
   file "/var/lib/mysql/mysql-bin.000001" "binlog";
   file "/var/lib/mysql/ibdata1" "data"].

Definition roots : FS.t :=
  [dir "/backups"; dir "/backups/full"; dir "/backups/incremental"].

(** Full@0101, Inc@0102, Full@0104. *)
Definition fs_two_fulls : FS.t :=
  roots ++ backup "/backups/full/20250101_000000"
  ++ backup "/backups/incremental/20250102_000000"
  ++ backup "/backups/full/20250104_000000"
  ++ live_datadir.

(** Full@0101, Inc@0102 12:00. *)
Definition fs_full_inc : FS.t :=
  roots ++ backup "/backups/full/20250101_000000"
  ++ backup "/backups/incremental/20250102_120000"
  ++ live_datadir.

(** Full@0101 and Inc@0106 on disk (a newer full is remote only). *)
Definition fs_old_full_new_inc : FS.t :=
  roots ++ backup "/backups/full/20250101_000000"
  ++ backup "/backups/incremental/20250106_000000"
  ++ live_datadir.

(** Only Inc@0106 on disk (the full backups are remote only). *)
Definition fs_no_local_full : FS.t :=
  roots ++ backup "/backups/incremental/20250106_000000" ++ live_datadir.

(** Only Full@0101. *)
Definition fs_one_full : FS.t :=
  roots ++ backup "/backups/full/20250101_000000" ++ live_datadir.

(** Only Full@0101 10:00. *)
Definition fs_late_full : FS.t :=
  roots ++ backup "/backups/full/20250101_100000" ++ live_datadir.

(** The replay exits with status 1 and reports one duplicate-key error. *)
Definition env_apply_duplicates : DeferredApply.Env := {|
  DeferredApply.wait_for_mysql := true;
  DeferredApply.mysql_force := fun _ =>
    DeferredApply.Exited 1 ""
      "ERROR 1062 (23000) at line 12: Duplicate entry '7' for key 'PRIMARY'" |}.

(** A marker that names an existing replay file. *)
Definition fs_pending : FS.t :=
  [dir "/backups";
   file "/backups/.pitr_restore_marker" "/backups/pitr_replay_20250110_000002_1234.sql";
   file "/backups/pitr_replay_20250110_000002_1234.sql" "BINLOG 'aGVsbG8=';"].

End Worlds.

(* ===================================================================== *)
(** ** Further observations *)
(* ===================================================================== *)

(** [c], started in a state that satisfies [P], ends with an outcome and a
    state that satisfy [Q]. *)
Definition triple {A} (P : State -> Prop) (c : M A)
    (Q : Outcome A -> State -> Prop) : Prop :=
  forall s, P s -> Q (fst (c s)) (snd (c s)).

(** [c] never ends in [error_exit]. *)
Definition never_exits {A} (c : M A) : Prop :=
  forall s w s', c s <> (Exit1 w, s').

(** When [c] ends in [error_exit], it has only appended events that
    satisfy [P]. *)
Definition exits_within {A} (P : Event -> Prop) (c : M A) : Prop :=
  forall s w s', c s = (Exit1 w, s') ->
    exists evs, st_trace s' = st_trace s ++ evs /\ Forall P evs.

(** [c] never returns normally, and only appends events that satisfy
    [P]. *)
Definition halts_within {A} (P : Event -> Prop) (c : M A) : Prop :=
  forall s,
    (forall a s', c s <> (Ok a, s'))
    /\ exists evs, st_trace (snd (c s)) = st_trace s ++ evs /\ Forall P evs.

(** A run of [xtrabackup] that works on a backup directory only:
    [--prepare] or [--decompress]. *)
Definition preparation (e : Event) : Prop :=
  exists args, e = Xtrabackup ("--prepare" :: args)
               \/ e = Xtrabackup ("--decompress" :: args).

(** No character of [s] satisfies [sep]. *)
Fixpoint free_of (sep : ascii -> bool) (s : string) : bool :=
  match s with
  | EmptyString => true
  | String c s' => negb (sep c) && free_of sep s'
  end.

(** A path component, as [FS.of_string] keeps them. *)
Definition component (c : string) : bool :=
  PyStr.nonempty c && negb (String.eqb c ".") && free_of (Ascii.eqb "/") c.

(* ===================================================================== *)
(** ** Further sample worlds *)
(* ===================================================================== *)

Module MoreWorlds.

(** Full@0101, then Inc@0102 and Full@0102 carrying the same timestamp. *)
Definition fs_tie : FS.t :=
  Worlds.roots ++ Worlds.backup "/backups/full/20250101_000000"
  ++ Worlds.backup "/backups/incremental/20250102_000000"
  ++ Worlds.backup "/backups/full/20250102_000000"
  ++ Worlds.live_datadir.

(** Full@0101 with Inc@0103 listed before Inc@0102 ... *)
Definition fs_incs_later_first : FS.t :=
  Worlds.roots ++ Worlds.backup "/backups/full/20250101_000000"
  ++ Worlds.backup "/backups/incremental/20250103_000000"
  ++ Worlds.backup "/backups/incremental/20250102_000000"
  ++ Worlds.live_datadir.

(** ... and the same backups with Inc@0102 listed first. *)
Definition fs_incs_earlier_first : FS.t :=
  Worlds.roots ++ Worlds.backup "/backups/full/20250101_000000"
  ++ Worlds.backup "/backups/incremental/20250102_000000"
  ++ Worlds.backup "/backups/incremental/20250103_000000"
  ++ Worlds.live_datadir.

(** A marker whose replay file is gone. *)
Definition fs_stale_marker : FS.t :=
  [Worlds.dir "/backups";
   Worlds.file "/backups/.pitr_restore_marker"
               "/backups/pitr_replay_20250110_000002_1234.sql"].

(** [xtrabackup] succeeds on every call but the final prepare. *)
Definition env_failing_final_prepare : Env := {|
  mc_installed := true;
  mc_ls := fun _ => (0%Z, "");
  mc_cp := fun _ _ fs => (1%Z, fs);
  untar := fun _ _ fs => (false, fs);
  xtrabackup := fun args fs =>
    match args with
    | ["--prepare"; _] => (1%Z, fs)
    | _ => (0%Z, fs)
    end;
  mysqlbinlog_installed := true;
  mysqlbinlog := fun _ _ => (0%Z, "BINLOG 'aGVsbG8=';");
  local_timestamp := fun d => (Codec.wall_seconds d - 28800)%Z;
  now_binlog_temp := "20250110_000000";
  now_existing_backup := "20250110_000001";
  now_replay := "20250110_000002";
  rand_replay := "1234" |}.

(** Full@0101 prepared, Inc@0102 12:00 without its checkpoint file. *)
Definition fs_unusable_inc : FS.t :=
  Worlds.roots ++ Worlds.backup "/backups/full/20250101_000000"
  ++ [Worlds.dir "/backups/incremental/20250102_120000"]
  ++ Worlds.live_datadir.

End MoreWorlds.

(* ===================================================================== *)
(** ** DDL filter: [filter_ddl_statements] of apply_pitr_binlog.py *)
(* ===================================================================== *)

Module DdlFilter.

(** *** The source read as text

    The file is opened with [encoding='utf-8', errors='ignore']: the bytes
    the decoder refuses are left out, the others are the text.  Lines stay
    byte strings here, in UTF-8 (what remains after decoding is valid
    UTF-8, and the output is written in UTF-8), and the patterns read them
    character by character. *)

(** A continuation byte, 0x80-0xBF. *)
Definition is_continuation (c : ascii) : bool :=
  (128 <=? nat_of_ascii c)%nat && (nat_of_ascii c <? 192)%nat.

(** The second byte of a sequence of three or four is a continuation byte
    within the range its lead byte allows (no overlong form, no surrogate,
    nothing above U+10FFFF). *)
Definition second_ok (lead : nat) (c2 : ascii) : bool :=
  let n2 := nat_of_ascii c2 in
  is_continuation c2
  && (if lead =? 224 then 160 <=? n2
      else if lead =? 237 then n2 <? 160
      else if lead =? 240 then 144 <=? n2
      else if lead =? 244 then n2 <? 144
      else true)%nat.

(** The decoder with [errors='ignore'].  An invalid lead byte (0x80-0xC1,
    0xF5-0xFF) is dropped; a sequence that breaks off at a byte that cannot
    continue it is dropped up to that byte, which is read again as a lead;
    a sequence cut short by the end of the file is dropped. *)
Fixpoint decode_ignore (s : string) : string :=
  match s with
  | EmptyString => EmptyString
  | String c s1 =>
      let lead := nat_of_ascii c in
      if (lead <? 128)%nat then String c (decode_ignore s1)
      else if ((lead <? 194) || (245 <=? lead))%nat then decode_ignore s1
      else
        match s1 with
        | EmptyString => EmptyString
        | String c2 s2 =>
            if (lead <? 224)%nat then
              if is_continuation c2 then String c (String c2 (decode_ignore s2))
              else decode_ignore s1
            else if negb (second_ok lead c2) then decode_ignore s1
            else
              match s2 with
              | EmptyString => EmptyString
              | String c3 s3 =>
                  if negb (is_continuation c3) then decode_ignore s2
                  else if (lead <? 240)%nat then
                    String c (String c2 (String c3 (decode_ignore s3)))
                  else
                    match s3 with
                    | EmptyString => EmptyString
                    | String c4 s4 =>
                        if is_continuation c4
                        then String c (String c2 (String c3 (String c4 (decode_ignore s4))))
                        else decode_ignore s3
                    end
              end
        end
  end.

(** Text-mode reading: CR LF and a lone CR become LF. *)
Fixpoint universal_newlines (s : string) : string :=
  match s with
  | EmptyString => EmptyString
  | String c s' =>
      if Ascii.eqb c PyStr.CR then
        match s' with
        | String c' s'' =>
            if Ascii.eqb c' PyStr.LF then String PyStr.LF (universal_newlines s'')
            else String PyStr.LF (universal_newlines s')
        | EmptyString => String PyStr.LF EmptyString
        end
      else String c (universal_newlines s')
  end.

(** The lines [for line in infile] yields: each keeps its newline. *)
Fixpoint keepends (s : string) : list string :=
  match s with
  | EmptyString => []
  | String c s' =>
      if Ascii.eqb c PyStr.LF then String c EmptyString :: keepends s'
      else match keepends s' with
           | h :: t => String c h :: t
           | [] => [String c EmptyString]
           end
  end.

(** The text of the file, as the loop reads it. *)
Definition read (content : string) : string :=
  universal_newlines (decode_ignore content).

Definition readlines (content : string) : list string := keepends (read content).

(** *** The patterns

    The patterns are [str] patterns: [\s] is any Unicode white space, and
    [re.IGNORECASE] lets a letter match its other case and the characters
    that fold to it. *)

(** U+0085 and U+00A0. *)
Definition space2 (c1 c2 : ascii) : bool :=
  ((nat_of_ascii c1 =? 194)
   && ((nat_of_ascii c2 =? 133) || (nat_of_ascii c2 =? 160)))%nat.

(** U+1680, U+2000-U+200A, U+2028, U+2029, U+202F, U+205F and U+3000. *)
Definition space3 (c1 c2 c3 : ascii) : bool :=
  let n1 := nat_of_ascii c1 in
  let n2 := nat_of_ascii c2 in
  let n3 := nat_of_ascii c3 in
  ((n1 =? 225) && (n2 =? 154) && (n3 =? 128)
   || (n1 =? 226) && (n2 =? 128)
      && ((128 <=? n3) && (n3 <=? 138) || (n3 =? 168) || (n3 =? 169) || (n3 =? 175))
   || (n1 =? 226) && (n2 =? 129) && (n3 =? 159)
   || (n1 =? 227) && (n2 =? 128) && (n3 =? 128))%nat.

(** One white-space character at the head of [s] ([\s]): the rest. *)
Definition space (s : string) : option string :=
  match s with
  | String c1 r1 =>
      if PyStr.is_space c1 then Some r1
      else
        match r1 with
        | String c2 r2 =>
            if space2 c1 c2 then Some r2
            else
              match r2 with
              | String c3 r3 => if space3 c1 c2 c3 then Some r3 else None
              | EmptyString => None
              end
        | EmptyString => None
        end
  | EmptyString => None
  end.

(** [\s*] at the head of [s]: the rest. *)
Fixpoint lstrip (s : string) : string :=
  match s with
  | String c1 r1 =>
      if PyStr.is_space c1 then lstrip r1
      else
        match r1 with
        | String c2 r2 =>
            if space2 c1 c2 then lstrip r2
            else
              match r2 with
              | String c3 r3 => if space3 c1 c2 c3 then lstrip r3 else s
              | EmptyString => s
              end
        | EmptyString => s
        end
  | EmptyString => EmptyString
  end.

(** [\s+] *)
Definition spaces (s : string) : option string :=
  match space s with
  | Some r => Some (lstrip r)
  | None => None
  end.

(** The characters outside ASCII that [re.IGNORECASE] lets the letter [k]
    match: U+0130 and U+0131 for I, U+017F for S, U+212A for K. *)
Definition folded (k : ascii) (s : string) : option string :=
  match s with
  | String c1 (String c2 r2) =>
      let n1 := nat_of_ascii c1 in
      let n2 := nat_of_ascii c2 in
      if (Ascii.eqb k "I" && (n1 =? 196) && ((n2 =? 176) || (n2 =? 177)))%nat
      then Some r2
      else if (Ascii.eqb k "S" && (n1 =? 197) && (n2 =? 191))%nat then Some r2
      else
        match r2 with
        | String c3 r3 =>
            if (Ascii.eqb k "K" && (n1 =? 226) && (n2 =? 132)
                && (nat_of_ascii c3 =? 170))%nat
            then Some r3 else None
        | EmptyString => None
        end
  | _ => None
  end.

(** A keyword under [re.IGNORECASE] ([kw] in upper case); the rest of the
    text when it matches. *)
Fixpoint keyword (kw s : string) : option string :=
  match kw with
  | EmptyString => Some s
  | String k kw' =>
      match s with
      | String c s' =>
          if Ascii.eqb k (PyStr.to_upper c) then keyword kw' s'
          else match folded k s with
               | Some r => keyword kw' r
               | None => None
               end
      | EmptyString => None
      end
  end.

Definition matched {A} (o : option A) : bool :=
  match o with Some _ => true | None => false end.

(** [(or\s+replace\s+)?]: the text after the group when it matches, the
    text itself when it does not. *)
Definition or_replace (s : string) : string :=
  match keyword "OR" s with
  | Some a =>
      match spaces a with
      | Some b =>
          match keyword "REPLACE" b with
          | Some c => match spaces c with Some d => d | None => s end
          | None => s
          end
      | None => s
      end
  | None => s
  end.

(** [^\s*create\s+(or\s+replace\s+)?table\s+(if\s+not\s+exists\s+)?]; the
    last group is optional and ends the pattern, so it never decides. *)
Definition create_table_pattern (line : string) : bool :=
  match keyword "CREATE" (lstrip line) with
  | Some r1 =>
      match spaces r1 with
      | Some r2 =>
          match keyword "TABLE" (or_replace r2) with
          | Some r3 => matched (spaces r3)
          | None => false
          end
      | None => false
      end
  | None => false
  end.

(** [^\s*<verb>\s+table] *)
Definition verb_table (verb line : string) : bool :=
  match keyword verb (lstrip line) with
  | Some r1 =>
      match spaces r1 with
      | Some r2 => matched (keyword "TABLE" r2)
      | None => false
      end
  | None => false
  end.

Definition drop_table_pattern : string -> bool := verb_table "DROP".
Definition alter_table_pattern : string -> bool := verb_table "ALTER".

(** [^\s*(#|/\*|--|BINLOG)] *)
Definition comment_pattern (line : string) : bool :=
  let r := lstrip line in
  matched (keyword "#" r) || matched (keyword "/*" r)
  || matched (keyword "--" r) || matched (keyword "BINLOG" r).

(** [line.count(c)] *)
Fixpoint count (c : ascii) (line : string) : Z :=
  match line with
  | EmptyString => 0%Z
  | String x line' => ((if Ascii.eqb x c then 1 else 0) + count c line')%Z
  end.

(** [c in line] *)
Fixpoint has (c : ascii) (line : string) : bool :=
  match line with
  | EmptyString => false
  | String x line' => Ascii.eqb x c || has c line'
  end.

Record Scan := mkScan {
  in_create_table : bool;
  skip_ddl : bool;
  brace_count : Z
}.

Definition start : Scan := mkScan false false 0.

(** One round of the loop: the state after [line] and whether [line] is
    written. *)
Definition step (st : Scan) (line : string) : Scan * bool :=
  if comment_pattern line then (st, negb (in_create_table st))
  else if create_table_pattern line && negb (comment_pattern line) then
    (mkScan true true (0 + count "(" line - count ")" line), false)
  else if drop_table_pattern line && negb (comment_pattern line) then
    (mkScan (in_create_table st) true (brace_count st), false)
  else if alter_table_pattern line && negb (comment_pattern line) then
    (mkScan (in_create_table st) true (brace_count st), false)
  else if in_create_table st then
    let brace_count := (brace_count st + count "(" line - count ")" line)%Z in
    if (brace_count <=? 0)%Z && has ";" line
    then (mkScan false false brace_count, false)
    else (mkScan true (skip_ddl st) brace_count, false)
  else if skip_ddl st && has ";" line then
    (mkScan (in_create_table st) false (brace_count st), false)
  else (st, negb (skip_ddl st)).

(** The lines written, in order. *)
Fixpoint scan (st : Scan) (lines : list string) : list string :=
  match lines with
  | [] => []
  | line :: rest =>
      let '(st', written) := step st line in
      if written then line :: scan st' rest else scan st' rest
  end.

Definition filter_lines (lines : list string) : list string := scan start lines.

(** [filter_ddl_statements(sql_file, output_file)]: success flag, the count
    [filtered_lines], and the file system left behind.  The input is opened
    before the output is truncated and read after it; when the source
    cannot be opened for reading, or the output for writing, the [except]
    branch returns [(False, 0, msg)] and nothing has been written. *)
Definition filter_ddl_statements (fs : FS.t) (sql_file output_file : FS.Path)
    : bool * nat * FS.t :=
  match FS.read_text fs sql_file with
  | None => (false, O, fs)
  | Some content =>
      if negb (FS.can_open_w fs output_file) then (false, O, fs)
      else
        let lines :=
          if FS.path_eqb sql_file output_file then [] else readlines content in
        let written := filter_lines lines in
        (true, List.length written,
         FS.write_text fs output_file (String.concat "" written))
  end.

End DdlFilter.

(** [l] is [m] with some elements left out. *)
Inductive Subseq {A} : list A -> list A -> Prop :=
| Subseq_nil : Subseq [] []
| Subseq_keep x l m : Subseq l m -> Subseq (x :: l) (x :: m)
| Subseq_drop x l m : Subseq l m -> Subseq l (x :: m).

Module DdlWorlds.

Definition statements : list string :=
  ["INSERT INTO t VALUES (1);" ++ String PyStr.LF "";
   "DROP TABLE old_t;" ++ String PyStr.LF "";
   "INSERT INTO t VALUES (2);" ++ String PyStr.LF "";
   "INSERT INTO t VALUES (3);" ++ String PyStr.LF ""]%string.

(** A replay file holding these statements. *)
Definition fs_replay : FS.t :=
  [Worlds.dir "/backups";
   Worlds.file "/backups/replay.sql" (String.concat "" statements)].

(** A replay file without any table statement, with mixed line ends and,
    between the quotes of the value, the byte 0xFF, which is not UTF-8. *)
Definition plain : string :=
  ("BINLOG 'aGVsbG8=';" ++ String PyStr.CR (String PyStr.LF "")
   ++ "INSERT INTO t VALUES ('" ++ String "255"%char "');" ++ String PyStr.LF "")%string.

Definition fs_plain : FS.t :=
  [Worlds.dir "/backups"; Worlds.file "/backups/replay.sql" plain].

End DdlWorlds.

(* ===================================================================== *)
(** * Properties *)
(* ===================================================================== *)

(** ** The model on concrete values *)

Example strftime_compact_ex :
  Codec.strftime_compact (Codec.mkDT 2025 11 26 14 30 0) = "20251126_143000".
Proof. reflexivity. Qed.

Example timestamp_ex :
  Codec.timestamp_at Codec.SHANGHAI (Codec.mkDT 2025 11 26 14 30 0) = 1764138600%Z.
Proof. reflexivity. Qed.

Example utcfromtimestamp_ex :
  option_map Codec.strftime_iso (Codec.utcfromtimestamp 1764138601)
  = Some "2025-11-26 06:30:01".
Proof. reflexivity. Qed.

Example parse_compact_ex :
  Codec.parse_compact "20240229_235959" = Some (Codec.mkDT 2024 2 29 23 59 59)
  /\ Codec.parse_compact "20250229_000000" = None.
Proof. split; reflexivity. Qed.

Example match_timestamp_ex :
  PyStr.match_timestamp "20251126_020000" = true
  /\ PyStr.match_timestamp "2025112_020000" = false
  /\ PyStr.match_backup_file "backup_20251126_020000.tar.gz" = Some "20251126_020000"
  /\ PyStr.words "  a bc   d " = ["a"; "bc"; "d"]
  /\ PyStr.strip "  x y  " = "x y".
Proof. repeat split; reflexivity. Qed.

Example fs_path_ex :
  FS.join ["backups"; "full"] "" = ["backups"; "full"]
  /\ FS.str (FS.join ["backups"; "full"] "20250101_000000") = "/backups/full/20250101_000000"
  /\ FS.of_string "/var/lib/mysql/./mysql-bin.000001" = ["var"; "lib"; "mysql"; "mysql-bin.000001"]
  /\ FS.name (FS.of_string "/backups/incremental/20250102_000000") = "20250102_000000".
Proof. repeat split; reflexivity. Qed.

Example classify_ex :
  DeferredApply.is_critical "ERROR 1062 (23000): Duplicate entry '1' for key" = false
  /\ DeferredApply.is_critical "ERROR 1064 (42000): You have an error in your SQL syntax" = true
  /\ DeferredApply.is_critical "error 1049 (42000): Unknown database" = true
  /\ DeferredApply.is_critical "Query OK" = false.
Proof. repeat split; reflexivity. Qed.


(** ** The calendar arithmetic *)

Module CodecFacts.

Local Open Scope Z_scope.

Lemma years_checked_spec (n : nat) (y k : Z) :
  years_checked n y = true -> y <= k < y + Z.of_nat n -> year_check k = true.
Proof.
  revert y. induction n as [|n IH]; intros y Hc Hk; [lia|].
  cbn [years_checked] in Hc. apply andb_true_iff in Hc. destruct Hc as [Hy Hrest].
  destruct (Z.eq_dec k y) as [-> | Hne]; [exact Hy|].
  apply (IH (y + 1) Hrest). lia.
Qed.

Lemma all_years_checked : years_checked 400 0 = true.
Proof. vm_compute. reflexivity. Qed.

Lemma year_check_ok (y : Z) :
  0 <= y < 400 ->
  year_of_era (year_start y) = y
  /\ year_of_era (year_start (y + 1) - 1) = y
  /\ year_start y < year_start (y + 1) <= year_start y + 366.
Proof.
  intros H.
  pose proof (years_checked_spec 400 0 y all_years_checked ltac:(lia)) as Hc.
  unfold year_check in Hc. rewrite !andb_true_iff in Hc.
  destruct Hc as (((H1 & H2) & H3) & H4).
  apply Z.eqb_eq in H1, H2. apply Z.ltb_lt in H3. apply Z.leb_le in H4. lia.
Qed.

Lemma year_numerator_step (a : Z) :
  0 <= a < 146096 ->
  a - a / 1460 + a / 36524 - a / 146096
  <= (a + 1) - (a + 1) / 1460 + (a + 1) / 36524 - (a + 1) / 146096.
Proof.
  intros H. destruct (Z.eq_dec (a + 1) 146096) as [E | E].
  - replace a with 146095 by lia. vm_compute. discriminate.
  - rewrite (Z.div_small a 146096), (Z.div_small (a + 1) 146096) by lia.
    assert (H1 : (a + 1) / 1460 <= a / 1460 + 1).
    { replace (a / 1460 + 1) with ((a + 1 * 1460) / 1460) by (rewrite Z.div_add; lia).
      apply Z.div_le_mono; lia. }
    assert (H2 : a / 36524 <= (a + 1) / 36524) by (apply Z.div_le_mono; lia).
    lia.
Qed.

Lemma year_numerator_mono (a b : Z) :
  0 <= a <= b -> b < 146097 ->
  a - a / 1460 + a / 36524 - a / 146096 <= b - b / 1460 + b / 36524 - b / 146096.
Proof.
  intros [Ha Hab] Hb. revert Hb.
  pattern b. apply (Zlt_lower_bound_ind _ a); [|exact Hab].
  intros x IH Hx Hlt. destruct (Z.eq_dec x a) as [-> | Hne]; [lia|].
  specialize (IH (x - 1) ltac:(lia) ltac:(lia)).
  pose proof (year_numerator_step (x - 1) ltac:(lia)) as Hs.
  replace (x - 1 + 1) with x in Hs by lia. lia.
Qed.

Lemma year_of_era_mono (a b : Z) :
  0 <= a <= b -> b < 146097 -> year_of_era a <= year_of_era b.
Proof.
  intros H Hb. unfold year_of_era. apply Z.div_le_mono; [lia|].
  now apply year_numerator_mono.
Qed.

(** Every day of the era lies in one of its 400 years. *)
Lemma year_exists (n : nat) (doe : Z) :
  (n <= 400)%nat -> 0 <= doe < year_start (Z.of_nat n) ->
  exists y, 0 <= y < Z.of_nat n /\ year_start y <= doe < year_start (y + 1).
Proof.
  induction n as [|n IH]; intros Hn Hdoe.
  - change (year_start (Z.of_nat 0)) with 0 in Hdoe. lia.
  - destruct (Z.lt_ge_cases doe (year_start (Z.of_nat n))) as [Hlt | Hge].
    + destruct (IH ltac:(lia) ltac:(lia)) as (y & Hy & Hin). exists y. split; [lia | exact Hin].
    + exists (Z.of_nat n). split; [lia|].
      replace (Z.of_nat n + 1) with (Z.of_nat (S n)) by lia. lia.
Qed.

Lemma year_of_era_spec (doe : Z) :
  0 <= doe < 146097 ->
  0 <= year_of_era doe < 400
  /\ 0 <= doe - year_start (year_of_era doe) < 366.
Proof.
  intros H.
  destruct (year_exists 400 doe ltac:(lia)) as (y & Hy & Hin).
  { change (year_start (Z.of_nat 400)) with 146097. lia. }
  destruct (year_check_ok y ltac:(lia)) as (H1 & H2 & H3).
  assert (Hs0 : 0 <= year_start y).
  { unfold year_start.
    pose proof (Z.div_pos y 4 ltac:(lia) ltac:(lia)).
    pose proof (Z.div_pos y 400 ltac:(lia) ltac:(lia)).
    assert (y / 100 <= y) by (apply Z.div_le_upper_bound; lia). lia. }
  assert (Hend : year_start (y + 1) <= 146097).
  { unfold year_start.
    assert ((y + 1) / 4 <= 100) by (apply Z.div_le_upper_bound; lia).
    assert ((y + 1) / 400 <= 1) by (apply Z.div_le_upper_bound; lia).
    assert (0 <= (y + 1) / 100) by (apply Z.div_pos; lia).
    destruct (Z.eq_dec y 399) as [-> | Hne]; [vm_compute; discriminate|].
    assert ((y + 1) / 400 = 0) by (apply Z.div_small; lia). lia. }
  assert (Hyoe : year_of_era doe = y).
  { apply Z.le_antisymm.
    - rewrite <- H2. apply year_of_era_mono; lia.
    - rewrite <- H1 at 1. apply year_of_era_mono; lia. }
  rewrite Hyoe. lia.
Qed.

Lemma day_of_year_spec (doy : Z) :
  0 <= doy < 366 ->
  let mp := (5 * doy + 2) / 153 in
  let d := doy - (153 * mp + 2) / 5 + 1 in
  let m := if mp <? 10 then mp + 3 else mp - 9 in
  1 <= m <= 12 /\ (153 * ((m + 9) mod 12) + 2) / 5 + d - 1 = doy.
Proof.
  intros H. cbv zeta.
  assert (Hmp : 0 <= (5 * doy + 2) / 153 < 12).
  { split; [apply Z.div_pos; lia|]. apply Z.div_lt_upper_bound; lia. }
  set (mp := (5 * doy + 2) / 153) in *.
  destruct (Z.ltb_spec mp 10); split; try lia.
  - replace (mp + 3 + 9) with (mp + 1 * 12) by lia.
    rewrite Z.mod_add, Z.mod_small by lia. lia.
  - replace (mp - 9 + 9) with mp by lia. rewrite Z.mod_small by lia. lia.
Qed.

Lemma days_round_trip (z : Z) :
  let '(y, m, d) := Codec.civil_from_days z in Codec.days_from_civil y m d = z.
Proof.
  unfold Codec.civil_from_days.
  set (z' := z + 719468). set (era := z' / 146097).
  set (doe := z' - era * 146097).
  assert (Hdoe : 0 <= doe < 146097).
  { subst doe era. pose proof (Z.mod_pos_bound z' 146097 ltac:(lia)) as Hb.
    rewrite Z.mod_eq in Hb by lia. lia. }
  destruct (year_of_era_spec doe Hdoe) as [Hyoe Hdoy].
  unfold year_of_era, year_start in Hyoe, Hdoy.
  set (yoe := (doe - doe / 1460 + doe / 36524 - doe / 146096) / 365) in *.
  rewrite (Z.div_small yoe 400), Z.add_0_r in Hdoy by lia.
  set (doy := doe - (365 * yoe + yoe / 4 - yoe / 100)) in *.
  pose proof (day_of_year_spec doy Hdoy) as Hd. cbv zeta in Hd.
  set (mp := (5 * doy + 2) / 153) in *.
  set (d := doy - (153 * mp + 2) / 5 + 1) in *.
  set (m := if mp <? 10 then mp + 3 else mp - 9) in *.
  destruct Hd as [Hm Hback].
  cbv zeta. unfold Codec.days_from_civil.
  set (y' := if m <=? 2 then (if m <=? 2 then yoe + era * 400 + 1 else yoe + era * 400) - 1
             else (if m <=? 2 then yoe + era * 400 + 1 else yoe + era * 400)).
  assert (Hy' : y' = yoe + era * 400) by (subst y'; destruct (m <=? 2); lia).
  cbv zeta. fold y'. rewrite Hy'.
  assert (Hera : (yoe + era * 400) / 400 = era)
    by (rewrite Z.div_add by lia; rewrite Z.div_small by lia; lia).
  rewrite Hera.
  replace (yoe + era * 400 - era * 400) with yoe by lia.
  rewrite Hback. subst doy doe z'. lia.
Qed.

(** The wall-clock reading [utcfromtimestamp] returns denotes the instant
    it was given. *)
Lemma utcfromtimestamp_wall_seconds (t : Z) (d : Codec.datetime) :
  Codec.utcfromtimestamp t = Some d -> Codec.wall_seconds d = t.
Proof.
  unfold Codec.utcfromtimestamp.
  pose proof (days_round_trip (t / 86400)) as Hrt.
  destruct (Codec.civil_from_days (t / 86400)) as [[y m] dd].
  destruct ((1 <=? y) && (y <=? 9999)); [|discriminate].
  intros [= <-]. unfold Codec.wall_seconds. simpl. rewrite Hrt.
  pose proof (Z.mod_pos_bound t 86400 ltac:(lia)) as Hb.
  set (r := t mod 86400) in *.
  pose proof (Z.div_mod t 86400 ltac:(lia)) as Ht. fold r in Ht.
  pose proof (Z.div_mod r 3600 ltac:(lia)) as H1.
  pose proof (Z.div_mod (r mod 3600) 60 ltac:(lia)) as H2.
  assert (H3 : r mod 60 = (r mod 3600) mod 60).
  { symmetry. apply Z.mod_mod_divide. exists 60. lia. }
  lia.
Qed.

End CodecFacts.

(** ** The order on strings *)

Module StrOrder.

Lemma ascii_compare_refl (c : ascii) : Ascii.compare c c = Eq.
Proof. unfold Ascii.compare. apply N.compare_refl. Qed.

Lemma ascii_compare_lt_trans (a b c : ascii) :
  Ascii.compare a b = Lt -> Ascii.compare b c = Lt -> Ascii.compare a c = Lt.
Proof.
  unfold Ascii.compare. rewrite !N.compare_lt_iff. apply N.lt_trans.
Qed.

Lemma compare_refl (s : string) : String.compare s s = Eq.
Proof.
  induction s as [|c s IH]; simpl; [reflexivity|].
  now rewrite ascii_compare_refl.
Qed.

Lemma compare_lt_trans (a b c : string) :
  String.compare a b = Lt -> String.compare b c = Lt -> String.compare a c = Lt.
Proof.
  revert b c.
  induction a as [|x a IH]; intros [|y b] [|z c]; simpl; try discriminate; auto.
  destruct (Ascii.compare x y) eqn:Hxy; try discriminate;
    destruct (Ascii.compare y z) eqn:Hyz; try discriminate; intros H1 H2.
  - apply Ascii.compare_eq_iff in Hxy, Hyz. subst.
    rewrite ascii_compare_refl. eauto.
  - apply Ascii.compare_eq_iff in Hxy. subst. now rewrite Hyz.
  - apply Ascii.compare_eq_iff in Hyz. subst. now rewrite Hxy.
  - now rewrite (ascii_compare_lt_trans _ _ _ Hxy Hyz).
Qed.

Lemma leb_refl (s : string) : String.leb s s = true.
Proof. unfold String.leb. now rewrite compare_refl. Qed.

Lemma ltb_leb (a b : string) : String.ltb a b = true -> String.leb a b = true.
Proof. unfold String.ltb, String.leb. now destruct (String.compare a b). Qed.

Lemma leb_ltb_or_eq (a b : string) :
  String.leb a b = true -> String.ltb a b = true \/ a = b.
Proof.
  unfold String.ltb, String.leb.
  destruct (String.compare a b) eqn:H; try discriminate; auto.
  right. now apply String.compare_eq_iff.
Qed.

Lemma ltb_irrefl (a : string) : String.ltb a a = false.
Proof. unfold String.ltb. now rewrite compare_refl. Qed.

Lemma ltb_trans (a b c : string) :
  String.ltb a b = true -> String.ltb b c = true -> String.ltb a c = true.
Proof.
  unfold String.ltb.
  destruct (String.compare a b) eqn:H1; try discriminate.
  destruct (String.compare b c) eqn:H2; try discriminate.
  now rewrite (compare_lt_trans _ _ _ H1 H2).
Qed.

Lemma leb_trans (a b c : string) :
  String.leb a b = true -> String.leb b c = true -> String.leb a c = true.
Proof.
  intros H1 H2.
  destruct (leb_ltb_or_eq _ _ H1) as [L1 | ->]; [|assumption].
  destruct (leb_ltb_or_eq _ _ H2) as [L2 | <-]; [|assumption].
  apply ltb_leb. eapply ltb_trans; eassumption.
Qed.

(** [a <= b] fails exactly when [b < a]. *)
Lemma leb_false_ltb (a b : string) : String.leb a b = false <-> String.ltb b a = true.
Proof.
  unfold String.leb, String.ltb. rewrite (String.compare_antisym b a).
  destruct (String.compare a b); simpl; split; congruence.
Qed.

End StrOrder.

(** ** Stable insertion sort *)

Section SortBy.

Context {A : Type} (le : A -> A -> bool).
Hypothesis le_total : forall x y, le x y = true \/ le y x = true.
Hypothesis le_trans : forall x y z, le x y = true -> le y z = true -> le x z = true.

Lemma insert_by_perm (x : A) (l : list A) : Permutation (x :: l) (insert_by le x l).
Proof.
  induction l as [|y l IH]; simpl; [reflexivity|].
  destruct (le x y); [reflexivity|].
  rewrite perm_swap. now constructor.
Qed.

Lemma sort_by_perm (l : list A) : Permutation l (sort_by le l).
Proof.
  induction l as [|x l IH]; simpl; [constructor|].
  rewrite <- insert_by_perm. now constructor.
Qed.

Lemma insert_by_sorted (x : A) (l : list A) :
  StronglySorted (fun a b => le a b = true) l ->
  StronglySorted (fun a b => le a b = true) (insert_by le x l).
Proof.
  induction 1 as [|y l Hs IH Hall]; simpl.
  - repeat constructor.
  - destruct (le x y) eqn:Hxy.
    + constructor; [now constructor|].
      constructor; [assumption|].
      eapply Forall_impl; [|exact Hall]. intros z Hz. simpl in *. eauto.
    + constructor; [assumption|].
      assert (Hyx : le y x = true) by (destruct (le_total x y); [congruence|assumption]).
      eapply Permutation_Forall; [apply insert_by_perm|].
      now constructor.
Qed.

Lemma sort_by_sorted (l : list A) :
  StronglySorted (fun a b => le a b = true) (sort_by le l).
Proof.
  induction l as [|x l IH]; simpl; [constructor|].
  now apply insert_by_sorted.
Qed.

(** The head of the sorted list is in the list and precedes all of it. *)
Lemma sort_by_head (l : list A) (b : A) (rest : list A) :
  sort_by le l = b :: rest ->
  In b l /\ forall x, In x l -> le b x = true.
Proof.
  intros Hs.
  pose proof (sort_by_perm l) as Hp. pose proof (sort_by_sorted l) as Hst.
  rewrite Hs in Hp, Hst. split.
  - eapply Permutation_in; [symmetry; exact Hp|]. now left.
  - intros x Hx. apply (Permutation_in _ Hp) in Hx.
    destruct Hx as [<- | Hx].
    + destruct (le_total b b); assumption.
    + inversion Hst as [|? ? _ Hall]; subst.
      rewrite Forall_forall in Hall. now apply Hall.
Qed.

Lemma sort_by_nonempty (l : list A) : l <> [] -> sort_by le l <> [].
Proof.
  intros Hl Hs. apply Hl. apply Permutation_nil.
  rewrite <- Hs. symmetry. apply sort_by_perm.
Qed.

End SortBy.

Lemma sort_asc_strict (l : list string) :
  NoDup l -> StronglySorted (fun a b => String.ltb a b = true) (sort_asc l).
Proof.
  intros Hnd.
  assert (Hnd' : NoDup (sort_asc l))
    by (eapply Permutation_NoDup; [apply sort_by_perm | exact Hnd]).
  pose proof (sort_by_sorted String.leb String.leb_total StrOrder.leb_trans l) as Hs.
  fold (sort_asc l) in Hs.
  induction Hs as [|x r Hs IH Hall]; constructor.
  - apply IH. now inversion Hnd'.
  - inversion Hnd' as [|? ? Hnotin _]; subst.
    rewrite Forall_forall in *. intros y Hy.
    destruct (StrOrder.leb_ltb_or_eq _ _ (Hall y Hy)) as [H | ->]; [exact H|].
    contradiction.
Qed.

(** ** Directory listings *)

Lemma child_name_spec (d p : FS.Path) (n : string) :
  FS.child_name d p = Some n -> p = d ++ [n].
Proof.
  revert p. induction d as [|a d IH]; intros [|b p]; simpl; try discriminate.
  - destruct p; [|discriminate]. now intros [= ->].
  - destruct (String.eqb_spec a b) as [-> |]; [|discriminate].
    intros H. now rewrite (IH _ H).
Qed.

Lemma iterdir_in (fs : FS.t) (d : FS.Path) (n : string) :
  In n (FS.iterdir fs d) -> In (d ++ [n]) (map fst fs).
Proof.
  unfold FS.iterdir. rewrite in_flat_map. intros [[p nd] [Hin Hn]]. simpl in Hn.
  destruct (FS.child_name d p) eqn:Hc; [|contradiction].
  destruct Hn as [-> | []]. apply child_name_spec in Hc. subst p.
  apply (in_map fst) in Hin. exact Hin.
Qed.

Lemma iterdir_nodup (fs : FS.t) (d : FS.Path) :
  FS.wf fs -> NoDup (FS.iterdir fs d).
Proof.
  unfold FS.wf. induction fs as [|[p nd] fs IH]; simpl; intros Hnd.
  - constructor.
  - inversion Hnd as [|? ? Hnotin Hnd']; subst.
    change (FS.iterdir ((p, nd) :: fs) d)
      with ((match FS.child_name d p with Some n => [n] | None => [] end)
            ++ FS.iterdir fs d).
    destruct (FS.child_name d p) eqn:Hc; simpl; [|now apply IH].
    constructor; [|now apply IH].
    intros Hin. apply iterdir_in in Hin.
    apply child_name_spec in Hc. subst p. contradiction.
Qed.

(** ** Lookups after file-system updates *)

Module FSFacts.

Lemma path_eqb_eq (p q : FS.Path) : FS.path_eqb p q = true <-> p = q.
Proof.
  revert q. induction p as [|a p IH]; intros [|b q]; simpl; try easy.
  rewrite andb_true_iff, String.eqb_eq, IH. split.
  - now intros [-> ->].
  - now intros [= -> ->].
Qed.

Lemma path_eqb_refl (p : FS.Path) : FS.path_eqb p p = true.
Proof. now apply path_eqb_eq. Qed.

Lemma path_eqb_neq (p q : FS.Path) : p <> q -> FS.path_eqb p q = false.
Proof.
  intros H. destruct (FS.path_eqb p q) eqn:E; [|reflexivity].
  now apply path_eqb_eq in E.
Qed.

Lemma lookup_app (fs l : FS.t) (q : FS.Path) :
  FS.lookup (fs ++ l) q
  = match FS.lookup fs q with Some n => Some n | None => FS.lookup l q end.
Proof.
  unfold FS.lookup. induction fs as [|e fs IH]; simpl; [reflexivity|].
  destruct (FS.path_eqb (fst e) q); [reflexivity | exact IH].
Qed.

Lemma lookup_put_same (fs : FS.t) (p : FS.Path) (n : FS.Node) :
  FS.lookup (FS.put fs p n) p = Some n.
Proof.
  unfold FS.put, FS.exists_. destruct (FS.lookup fs p) as [n0|] eqn:E.
  - revert E. unfold FS.lookup. induction fs as [|e fs IH]; simpl; [discriminate|].
    destruct (FS.path_eqb (fst e) p) eqn:Ee; simpl.
    + now rewrite path_eqb_refl.
    + rewrite Ee. exact IH.
  - rewrite lookup_app, E. unfold FS.lookup. simpl. now rewrite path_eqb_refl.
Qed.

Lemma lookup_put_other (fs : FS.t) (p q : FS.Path) (n : FS.Node) :
  p <> q -> FS.lookup (FS.put fs p n) q = FS.lookup fs q.
Proof.
  intros Hne. unfold FS.put. destruct (FS.exists_ fs p).
  - unfold FS.lookup. induction fs as [|e fs IH]; simpl; [reflexivity|].
    destruct (FS.path_eqb (fst e) p) eqn:Ee; simpl.
    + apply path_eqb_eq in Ee. rewrite Ee, (path_eqb_neq p q Hne). exact IH.
    + destruct (FS.path_eqb (fst e) q); [reflexivity | exact IH].
  - rewrite lookup_app. destruct (FS.lookup fs q); [reflexivity|].
    unfold FS.lookup. simpl. now rewrite (path_eqb_neq p q Hne).
Qed.

Lemma lookup_unlink_same (fs : FS.t) (p : FS.Path) : FS.lookup (FS.unlink fs p) p = None.
Proof.
  unfold FS.lookup, FS.unlink. induction fs as [|e fs IH]; simpl; [reflexivity|].
  destruct (FS.path_eqb (fst e) p) eqn:Ee; simpl; [exact IH|]. now rewrite Ee.
Qed.

Lemma lookup_unlink_other (fs : FS.t) (p q : FS.Path) :
  p <> q -> FS.lookup (FS.unlink fs p) q = FS.lookup fs q.
Proof.
  intros Hne. unfold FS.lookup, FS.unlink. induction fs as [|e fs IH]; simpl; [reflexivity|].
  destruct (FS.path_eqb (fst e) p) eqn:Ep; simpl.
  - apply path_eqb_eq in Ep. rewrite Ep, (path_eqb_neq p q Hne). exact IH.
  - destruct (FS.path_eqb (fst e) q); [reflexivity | exact IH].
Qed.

Lemma lookup_mkdir_p (fs : FS.t) (p q : FS.Path) (n : FS.Node) :
  FS.lookup fs q = Some n -> FS.lookup (FS.mkdir_p fs p) q = Some n.
Proof.
  unfold FS.mkdir_p. generalize (seq 1 (List.length p)). intros ks. revert fs.
  induction ks as [|k ks IH]; intros fs H; simpl; [exact H|].
  apply IH. destruct (FS.exists_ fs (firstn k p)); [exact H|].
  now rewrite lookup_app, H.
Qed.

Lemma split_on_cons (sep : ascii -> bool) (s : string) :
  exists h t, PyStr.split_on sep s = h :: t.
Proof.
  induction s as [|c s (h & t & IH)]; simpl; [now eexists; eexists|].
  destruct (sep c); [now eexists; eexists|]. rewrite IH. now eexists; eexists.
Qed.

Lemma lookup_none_fresh (fs : FS.t) (p : FS.Path) :
  FS.lookup fs p = None -> ~ In p (map fst fs).
Proof.
  unfold FS.lookup. intros H Hin. apply in_map_iff in Hin. destruct Hin as (e & <- & Hin).
  destruct (find (fun e0 => FS.path_eqb (fst e0) (fst e)) fs) as [e1|] eqn:E; [discriminate|].
  pose proof (find_none _ _ E _ Hin) as Hf. simpl in Hf.
  now rewrite path_eqb_refl in Hf.
Qed.

(** Writing, creating directories and copying keep paths distinct. *)
Lemma wf_put (fs : FS.t) (p : FS.Path) (n : FS.Node) : FS.wf fs -> FS.wf (FS.put fs p n).
Proof.
  unfold FS.wf, FS.put, FS.exists_. intros Hwf.
  destruct (FS.lookup fs p) as [n0|] eqn:E.
  - replace (map fst (map (fun e => if FS.path_eqb (fst e) p then (p, n) else e) fs))
      with (map fst fs); [exact Hwf|].
    rewrite map_map. apply map_ext. intros e.
    destruct (FS.path_eqb (fst e) p) eqn:Ee; [|reflexivity].
    now apply path_eqb_eq in Ee.
  - rewrite map_app. simpl.
    apply (Permutation_NoDup (Permutation_cons_append (map fst fs) p)).
    constructor; [now apply lookup_none_fresh | exact Hwf].
Qed.

Lemma wf_mkdir_p (fs : FS.t) (p : FS.Path) : FS.wf fs -> FS.wf (FS.mkdir_p fs p).
Proof.
  unfold FS.mkdir_p. generalize (seq 1 (List.length p)). intros ks. revert fs.
  induction ks as [|k ks IH]; intros fs Hwf; simpl; [exact Hwf|].
  apply IH. unfold FS.exists_.
  destruct (FS.lookup fs (firstn k p)) as [n|] eqn:E; [exact Hwf|].
  unfold FS.wf. rewrite map_app. simpl.
  apply (Permutation_NoDup (Permutation_cons_append (map fst fs) (firstn k p))).
  constructor; [now apply lookup_none_fresh | exact Hwf].
Qed.

Lemma wf_copy2 (fs : FS.t) (src dst : FS.Path) : FS.wf fs -> FS.wf (FS.copy2 fs src dst).
Proof.
  intros Hwf. unfold FS.copy2. destruct (FS.read_text fs src); [|exact Hwf].
  now apply wf_put.
Qed.

End FSFacts.

Section ResolverFacts.

Variable cfg : Config.
Variable env : Env.

Lemma timestamp_dirs_nodup (fs : FS.t) (root : FS.Path) :
  FS.wf fs -> NoDup (timestamp_dirs fs root).
Proof.
  intros Hwf. unfold timestamp_dirs.
  destruct (FS.exists_ fs root); [|constructor].
  apply NoDup_filter. now apply iterdir_nodup.
Qed.

Lemma map_pair_filter (k : Kind) (t : string) (l : list string) :
  map (pair k) (at_or_before t l)
  = filter (fun e => String.leb (snd e) t) (map (pair k) l).
Proof.
  unfold at_or_before. induction l as [|x l IH]; simpl; [reflexivity|].
  destruct (String.leb x t); simpl; now rewrite IH.
Qed.

(** [all_backups] keeps the catalog entries at or before the target. *)
Lemma all_backups_catalog (fs : FS.t) (t : string) :
  all_backups cfg env fs t
  = filter (fun e => String.leb (snd e) t) (catalog cfg env fs).
Proof.
  unfold all_backups, catalog.
  rewrite !filter_app.
  rewrite (map_pair_filter Full t (timestamp_dirs fs (full_root cfg))).
  rewrite (map_pair_filter Incremental t (timestamp_dirs fs (incremental_root cfg))).
  destruct (setup_s3_if_needed cfg env); [|reflexivity].
  rewrite filter_app.
  rewrite (map_pair_filter Full t (s3_timestamps cfg env "full")).
  now rewrite (map_pair_filter Incremental t (s3_timestamps cfg env "incremental")).
Qed.

Lemma in_all_backups (fs : FS.t) (t : string) (e : Kind * string) :
  In e (all_backups cfg env fs t)
  <-> In e (catalog cfg env fs) /\ String.leb (snd e) t = true.
Proof. rewrite all_backups_catalog. apply filter_In. Qed.

Lemma backups_le_total (x y : Kind * string) :
  String.leb (snd y) (snd x) = true \/ String.leb (snd x) (snd y) = true.
Proof. apply String.leb_total. Qed.

Lemma backups_le_trans (x y z : Kind * string) :
  String.leb (snd y) (snd x) = true -> String.leb (snd z) (snd y) = true ->
  String.leb (snd z) (snd x) = true.
Proof. intros H1 H2. eapply StrOrder.leb_trans; eassumption. Qed.

(** The anchor: when some backup is at or before the target, the function
    returns a catalog entry at or before the target that no other such entry
    exceeds. *)
Lemma find_latest_is_anchor (fs : FS.t) (target : Codec.datetime) :
  all_backups cfg env fs (Codec.strftime_compact target) <> [] ->
  let b := find_latest_backup_before_target cfg env fs target in
  In b (catalog cfg env fs)
  /\ String.leb (snd b) (Codec.strftime_compact target) = true
  /\ forall e, In e (catalog cfg env fs) ->
               String.leb (snd e) (Codec.strftime_compact target) = true ->
               String.leb (snd e) (snd b) = true.
Proof.
  intros Hne. unfold find_latest_backup_before_target.
  set (t := Codec.strftime_compact target) in *.
  destruct (sort_backups_desc (all_backups cfg env fs t)) as [|b rest] eqn:Hs.
  - exfalso. revert Hs. unfold sort_backups_desc. now apply sort_by_nonempty.
  - unfold sort_backups_desc in Hs.
    apply (sort_by_head _ backups_le_total backups_le_trans) in Hs.
    destruct Hs as [Hin Hmax]. apply in_all_backups in Hin. destruct Hin as [Hin Hle].
    cbv zeta. repeat split; try assumption.
    intros e He Hle'. apply Hmax. apply in_all_backups. now split.
Qed.

(** With nothing at or before the target the sentinel is returned. *)
Lemma find_latest_sentinel (fs : FS.t) (target : Codec.datetime) :
  all_backups cfg env fs (Codec.strftime_compact target) = [] ->
  find_latest_backup_before_target cfg env fs target = (Full, "").
Proof.
  intros H. unfold find_latest_backup_before_target. now rewrite H.
Qed.

(** What discovery returns. *)
Lemma find_incremental_names_spec (fs : FS.t) (base : string) (target : Codec.datetime) :
  FS.wf fs ->
  let names := find_incremental_names cfg fs base target in
  Forall (fun n => In (Incremental, n) (catalog cfg env fs)
                   /\ String.ltb base n = true
                   /\ String.ltb n (Codec.strftime_compact target) = true) names
  /\ StronglySorted (fun a b => String.ltb a b = true) names.
Proof.
  intros Hwf names. subst names. unfold find_incremental_names. split.
  - rewrite Forall_forall. intros n Hn.
    eapply Permutation_in in Hn; [|symmetry; apply sort_by_perm].
    apply filter_In in Hn. destruct Hn as [Hin Hb].
    apply andb_true_iff in Hb. destruct Hb as [Hlo Hhi].
    repeat split; try assumption.
    unfold catalog. apply in_or_app. right. apply in_or_app. left.
    now apply in_map.
  - apply sort_asc_strict. apply NoDup_filter. now apply timestamp_dirs_nodup.
Qed.

(** With an Incremental anchor the base is the newest local full backup,
    whatever the target, and the anchor is the only incremental. *)
Lemma incremental_anchor_chain
    (fs : FS.t) (target : Codec.datetime) (ts base : string) (incs : list FS.Path) :
  find_latest_backup_before_target cfg env fs target = (Incremental, ts) ->
  resolve_chain cfg env fs target None = Ok (base, incs) ->
  incs = [FS.join (incremental_root cfg) ts]
  /\ In base (timestamp_dirs fs (full_root cfg))
  /\ forall n, In n (timestamp_dirs fs (full_root cfg)) -> String.leb n base = true.
Proof.
  intros Hanchor. unfold resolve_chain, choose_backup. simpl. rewrite Hanchor.
  unfold choose_base.
  destruct (sort_desc (timestamp_dirs fs (full_root cfg))) as [|b rest] eqn:Hs;
    [discriminate|].
  simpl. intros [= <- <-].
  unfold sort_desc in Hs.
  apply (sort_by_head (fun x y => String.leb y x)) in Hs.
  - destruct Hs as [Hin Hmax]. repeat split; assumption.
  - intros x y. apply String.leb_total.
  - intros x y z H1 H2. eapply StrOrder.leb_trans; eassumption.
Qed.

End ResolverFacts.

(** ** C1 *)

(** C1, counterexample.  Catalog: Full@20250101_000000,
    Incremental@20250102_000000, Full@20250104_000000; target
    2025-01-03 00:00:00.  A Full backup lies before the target, the anchor is
    the incremental, and the resolved base is the Full backup taken after
    the target. *)
Lemma C1_counterexample_base_after_target :
  let target := Codec.mkDT 2025 1 3 0 0 0 in
  In (Full, "20250101_000000") (catalog Worlds.cfg_local Worlds.env_ok Worlds.fs_two_fulls)
  /\ String.leb "20250101_000000" (Codec.strftime_compact target) = true
  /\ resolve_chain Worlds.cfg_local Worlds.env_ok Worlds.fs_two_fulls target None
     = Ok ("20250104_000000", [FS.of_string "/backups/incremental/20250102_000000"])
  /\ String.leb "20250104_000000" (Codec.strftime_compact target) = false.
Proof.
  cbv zeta. split; [vm_compute; auto|]. repeat split; vm_compute; reflexivity.
Qed.

(** When the search itself picks a Full anchor, discovery finds nothing: an
    incremental strictly between the anchor and the target would have been
    the anchor. *)
Lemma full_anchor_discovers_nothing
    (cfg : Config) (env : Env) (fs : FS.t) (target : Codec.datetime) (base : string) :
  FS.wf fs ->
  all_backups cfg env fs (Codec.strftime_compact target) <> [] ->
  find_latest_backup_before_target cfg env fs target = (Full, base) ->
  find_incremental_backups cfg fs base target = [].
Proof.
  intros Hwf Hne Hfl.
  pose proof (find_latest_is_anchor cfg env fs target Hne) as Hanchor.
  cbv zeta in Hanchor. rewrite Hfl in Hanchor. destruct Hanchor as (_ & _ & Hmax).
  destruct (find_incremental_names_spec cfg env fs base target Hwf) as [Hall _].
  unfold find_incremental_backups.
  destruct (find_incremental_names cfg fs base target) as [|n names]; [reflexivity|].
  exfalso. inversion Hall as [|? ? (Hin & Hlo & Hhi) _]; subst.
  specialize (Hmax (Incremental, n) Hin (StrOrder.ltb_leb _ _ Hhi)). simpl in Hmax.
  apply StrOrder.leb_false_ltb in Hlo. congruence.
Qed.

(** ** Running the effect monad *)

Lemma bind_get_fs {B} (k : FS.t -> M B) (s : State) :
  bind get_fs k s = k (st_fs s) s.
Proof. reflexivity. Qed.

Lemma bind_ok {A B} (c : M A) (k : A -> M B) (s s' : State) (a : A) :
  c s = (Ok a, s') -> bind c k s = k a s'.
Proof. unfold bind. now intros ->. Qed.

Lemma bind_exit {A B} (c : M A) (k : A -> M B) (s s' : State) (w : Fatal) :
  c s = (Exit1 w, s') -> bind c k s = (Exit1 w, s').
Proof. unfold bind. now intros ->. Qed.

Lemma bind_raised {A B} (c : M A) (k : A -> M B) (s s' : State) :
  c s = (Raised, s') -> bind c k s = (Raised, s').
Proof. unfold bind. now intros ->. Qed.

(** ** C1, the amended claim *)

Lemma for_each_preserves {A} (Inv : State -> Prop) (l : list A) (body : A -> M unit) :
  (forall x s, Inv s -> exists s', body x s = (Ok tt, s') /\ Inv s') ->
  forall s, Inv s -> exists s', for_each l body s = (Ok tt, s') /\ Inv s'.
Proof.
  intros Hb. induction l as [|x l IH]; intros s Hs; simpl; [now exists s|].
  destruct (Hb x s Hs) as (s1 & H1 & Hs1).
  rewrite (bind_ok _ _ _ _ _ H1). now apply IH.
Qed.

Section SavedBinlogs.

Variable cfg : Config.
Variable env : Env.

(** Saving the live binlog files returns, runs no tool and keeps the paths
    of the file system distinct. *)
Lemma save_binlogs_run (s : State) :
  FS.wf (st_fs s) ->
  exists s', save_binlogs cfg env s = (Ok tt, s')
             /\ st_trace s' = st_trace s /\ FS.wf (st_fs s').
Proof.
  intros Hwf. unfold save_binlogs. unfold bind at 1. cbn [update_fs st_fs st_trace].
  rewrite bind_get_fs. cbn [st_fs].
  set (fs0 := FS.mkdir_p (st_fs s) (binlog_temp_dir cfg env)).
  assert (Hwf0 : FS.wf fs0) by now apply FSFacts.wf_mkdir_p.
  destruct (FS.exists_ fs0 _).
  - unfold bind at 1. cbn [update_fs st_fs st_trace].
    destruct (FS.read_text fs0 _) as [content|].
    + apply (for_each_preserves (fun x => st_trace x = st_trace s /\ FS.wf (st_fs x))).
      * intros raw x [Ht Hw]. unfold save_binlog_entry.
        destruct (negb _); [now exists x|].
        rewrite bind_get_fs.
        match goal with
        | |- context [match ?f with Some _ => _ | None => _ end] => destruct f as [found|]
        end; [|now exists x].
        destruct (PyStr.startswith _ _); [|now exists x].
        eexists. split; [reflexivity|]. cbn [st_fs st_trace].
        split; [exact Ht | now apply FSFacts.wf_copy2].
      * cbn [st_fs st_trace]. split; [reflexivity | now apply FSFacts.wf_copy2].
    + eexists. split; [reflexivity|]. cbn [st_fs st_trace].
      split; [reflexivity | now apply FSFacts.wf_copy2].
  - eexists. split; [reflexivity|]. now split.
Qed.

End SavedBinlogs.

(** The check of the base directory runs neither [xtrabackup] nor
    [mysqlbinlog], and returns at once when the directory is on disk with
    its checkpoint file. *)
Lemma ensure_full_backup_trace (cfg : Config) (env : Env) (ts : string) (s : State) :
  st_trace (snd (ensure_full_backup cfg env ts s)) = st_trace s.
Proof.
  unfold ensure_full_backup. rewrite bind_get_fs.
  destruct (negb _ || negb _); [|reflexivity].
  destruct (FS.exists_ (st_fs s) _).
  - unfold extract_tarball. now destruct (untar env _ _ (st_fs s)) as [[|] fs1].
  - destruct (setup_s3_if_needed cfg env); [|reflexivity].
    unfold bind, download_full_backup_from_s3.
    destruct (negb (PyStr.nonempty (PyStr.strip ts))); [reflexivity|].
    unfold download_from_s3.
    destruct (mc_cp env _ _ _) as [rc fs1].
    destruct (negb (rc =? 0)%Z); [reflexivity|].
    destruct (FS.exists_ fs1 _); [|reflexivity].
    now destruct (untar env _ _ fs1) as [[|] fs2].
Qed.

Lemma ensure_full_backup_on_disk (cfg : Config) (env : Env) (ts : string) (s : State) :
  FS.exists_ (st_fs s) (FS.join (full_root cfg) ts) = true ->
  FS.exists_ (st_fs s) (checkpoints (FS.join (full_root cfg) ts)) = true ->
  ensure_full_backup cfg env ts s = (Ok tt, s).
Proof.
  intros Hdir Hck. unfold ensure_full_backup. now rewrite bind_get_fs, Hdir, Hck.
Qed.

(** C1 (amended).  Whenever the backup the restore starts from is a Full
    backup -- the anchor found by the search, or the base named by the
    caller -- and its directory is usable (lines 922-941 return: it is on
    disk with its [xtrabackup_checkpoints] file, or has been unpacked or
    fetched), the resolution at the head of [restore_to_point_in_time]
    returns, having run neither [xtrabackup] nor [mysqlbinlog], and yields
    that backup as the base;
    every incremental found by auto-discovery is an incremental directory
    of the catalog, with timestamp strictly greater than the base's and
    strictly less than the target's timestamp, and the list is strictly
    ascending, hence without duplicates. *)
Theorem C1_chain_from_full_backup
    (cfg : Config) (env : Env) (target : Codec.datetime)
    (full_backup_timestamp : option string) (s s0 : State) :
  fst (choose_backup cfg env (st_fs s) target full_backup_timestamp) = Full ->
  let base := snd (choose_backup cfg env (st_fs s) target full_backup_timestamp) in
  ensure_full_backup cfg env base s = (Ok tt, s0) ->
  FS.wf (st_fs s0) ->
  exists names s1,
    resolve_backup_chain cfg env target full_backup_timestamp s
    = (Ok (base, map (FS.join (incremental_root cfg)) names), s1)
    /\ st_trace s1 = st_trace s
    /\ Forall (fun n => In (Incremental, n) (catalog cfg env (st_fs s1))
                        /\ String.ltb base n = true
                        /\ String.ltb n (Codec.strftime_compact target) = true) names
    /\ StronglySorted (fun a b => String.ltb a b = true) names.
Proof.
  intros Hkind base Hensure Hwf. subst base.
  destruct (choose_backup cfg env (st_fs s) target full_backup_timestamp) as [k base] eqn:Hcb.
  cbn [fst snd] in *. subst k.
  destruct (save_binlogs_run cfg env s0 Hwf) as (s1 & Hsave & Ht & Hwf1).
  exists (find_incremental_names cfg (st_fs s1) base target), s1.
  destruct (find_incremental_names_spec cfg env (st_fs s1) base target Hwf1) as [Hall Hsorted].
  split; [|split; [|now split]].
  - unfold resolve_backup_chain. rewrite bind_get_fs, Hcb. cbn [choose_base].
    rewrite (bind_ok _ _ _ _ _ Hensure), (bind_ok _ _ _ _ _ Hsave), bind_get_fs.
    reflexivity.
  - rewrite Ht. pose proof (ensure_full_backup_trace cfg env base s) as H.
    now rewrite Hensure in H.
Qed.

(** A world for the theorem: Full@20250101_000000 and
    Incremental@20250102_120000 on disk, the caller names the base, the
    target is 2025-01-03 12:00:00. *)
Lemma C1_chain_from_full_backup_witness :
  exists names s1,
    resolve_backup_chain Worlds.cfg_local Worlds.env_ok
      (Codec.mkDT 2025 1 3 12 0 0) (Some "20250101_000000")
      (mkState Worlds.fs_full_inc [])
    = (Ok ("20250101_000000", map (FS.join (incremental_root Worlds.cfg_local)) names), s1)
    /\ Forall (fun n => String.ltb "20250101_000000" n = true) names.
Proof.
  destruct (C1_chain_from_full_backup Worlds.cfg_local Worlds.env_ok
              (Codec.mkDT 2025 1 3 12 0 0) (Some "20250101_000000")
              (mkState Worlds.fs_full_inc []) (mkState Worlds.fs_full_inc []))
    as (names & s1 & Hres & _ & Hall & _).
  - reflexivity.
  - apply ensure_full_backup_on_disk; reflexivity.
  - unfold FS.wf. vm_compute. repeat constructor; simpl; intuition discriminate.
  - exists names, s1. split; [exact Hres|].
    eapply Forall_impl; [|exact Hall]. intros n (_ & H & _). exact H.
Defined.

(** ** C3 *)

(** C3, at the failing input.  The only backup is Full@20250101_100000; the
    stamp is UTC (lines 527-534), so it was taken at 18:00 in UTC+8.  The
    target is 2025-01-01 12:00:00, read in UTC+8 (lines 563-569): the backup
    lies six hours after the target and no backup is at or before the target
    instant.  The search compares the stamp with the digits of the target,
    takes the backup for one before the target, and the restore goes
    through: base prepare, final prepare and copy-back run, and the call
    returns normally. *)
Theorem C3_backup_after_target_is_restored :
  let target := Codec.mkDT 2025 1 1 12 0 0 in
  let run := restore_to_point_in_time Worlds.cfg_local Worlds.env_ok target None
               (mkState Worlds.fs_late_full []) in
  catalog Worlds.cfg_local Worlds.env_ok Worlds.fs_late_full = [(Full, "20250101_100000")]
  /\ option_map (Codec.timestamp_at 0) (Codec.parse_compact "20250101_100000")
     = Some (Codec.timestamp_at Codec.SHANGHAI target + 21600)%Z
  /\ find_latest_backup_before_target Worlds.cfg_local Worlds.env_ok Worlds.fs_late_full target
     = (Full, "20250101_100000")
  /\ fst run = Ok tt
  /\ st_trace (snd run)
     = [Xtrabackup ["--prepare"; "--apply-log-only";
                    "--target-dir=/backups/full/20250101_100000"];
        Xtrabackup ["--prepare"; "--target-dir=/backups/full/20250101_100000"];
        Xtrabackup ["--copy-back"; "--target-dir=/backups/full/20250101_100000";
                    "--datadir=/var/lib/mysql"]].
Proof.
  cbv zeta.
  split; [vm_compute; reflexivity|].
  split; [vm_compute; reflexivity|].
  split; [vm_compute; reflexivity|].
  split; vm_compute; reflexivity.
Qed.

(** ** C5 *)

(** C5, at the failing input.  S3 is set up and lists
    backup_20250105_000000.tar.gz under full/; on disk there are
    Full@20250101_000000 and Incremental@20250106_000000; the target is
    2025-01-07 00:00:00.  The anchor is the incremental, the newest Full
    backup of the catalog is the remote one of 20250105, and the resolved
    base is the older local one of 20250101.  With no full backup on disk
    at all, resolution ends in [error_exit] although the catalog holds the
    remote Full backup. *)
Theorem C5_remote_full_not_considered :
  let target := Codec.mkDT 2025 1 7 0 0 0 in
  let cat := catalog Worlds.cfg_s3 Worlds.env_remote_full Worlds.fs_old_full_new_inc in
  find_latest_backup_before_target Worlds.cfg_s3 Worlds.env_remote_full
    Worlds.fs_old_full_new_inc target = (Incremental, "20250106_000000")
  /\ In (Full, "20250105_000000") cat
  /\ (forall n, In (Full, n) cat -> String.leb n "20250105_000000" = true)
  /\ resolve_chain Worlds.cfg_s3 Worlds.env_remote_full Worlds.fs_old_full_new_inc target None
     = Ok ("20250101_000000", [FS.of_string "/backups/incremental/20250106_000000"])
  /\ String.ltb "20250101_000000" "20250105_000000" = true
  /\ In (Full, "20250105_000000")
        (catalog Worlds.cfg_s3 Worlds.env_remote_full Worlds.fs_no_local_full)
  /\ resolve_chain Worlds.cfg_s3 Worlds.env_remote_full Worlds.fs_no_local_full target None
     = Exit1 NoFullForIncremental.
Proof.
  cbv zeta. split; [vm_compute; reflexivity|].
  split; [vm_compute; auto|].
  split.
  { intros n Hn. vm_compute in Hn.
    destruct Hn as [H | [H | [H | []]]]; inversion H; subst; reflexivity. }
  split; [vm_compute; reflexivity|].
  split; [vm_compute; reflexivity|].
  split; [vm_compute; auto|].
  vm_compute; reflexivity.
Qed.

(** ** C6 *)

(** C6, at the failing input.  On disk there are Full@20250101_000000 and
    Incremental@20250102_120000; the target is 2025-01-02 12:00:00 and the
    caller names neither base nor incrementals.  The incremental whose
    timestamp equals the target is the anchor, it is the chain's only
    incremental, and the merge phase applies it. *)
Theorem C6_incremental_at_target_is_merged :
  let target := Codec.mkDT 2025 1 2 12 0 0 in
  let run := restore_to_point_in_time Worlds.cfg_local Worlds.env_ok target None
               (mkState Worlds.fs_full_inc []) in
  Codec.strftime_compact target = "20250102_120000"
  /\ In (Incremental, "20250102_120000")
        (catalog Worlds.cfg_local Worlds.env_ok Worlds.fs_full_inc)
  /\ resolve_chain Worlds.cfg_local Worlds.env_ok Worlds.fs_full_inc target None
     = Ok ("20250101_000000", [FS.of_string "/backups/incremental/20250102_120000"])
  /\ fst run = Ok tt
  /\ In (Xtrabackup ["--prepare"; "--apply-log-only";
                     "--target-dir=/backups/full/20250101_000000";
                     "--incremental-dir=/backups/incremental/20250102_120000"])
        (st_trace (snd run)).
Proof.
  cbv zeta. split; [reflexivity|].
  split; [vm_compute; auto|].
  split; [vm_compute; reflexivity|].
  split; [vm_compute; reflexivity|].
  vm_compute. auto.
Qed.

(** ** C9 *)

(** C9, at the failing input.  On disk there are Full@20250101_000000 and
    Incremental@20250102_120000, the target is 2025-01-03 12:00:00, and
    [xtrabackup] exits with status 1 on the base prepare, on the incremental
    merge and on the copy-back.  The restore runs every later phase and
    returns normally. *)
Theorem C9_failed_steps_do_not_abort :
  let args_base := ["--prepare"; "--apply-log-only";
                    "--target-dir=/backups/full/20250101_000000"] in
  let args_merge := ["--prepare"; "--apply-log-only";
                     "--target-dir=/backups/full/20250101_000000";
                     "--incremental-dir=/backups/incremental/20250102_120000"] in
  let args_final := ["--prepare"; "--target-dir=/backups/full/20250101_000000"] in
  let args_copy := ["--copy-back"; "--target-dir=/backups/full/20250101_000000";
                    "--datadir=/var/lib/mysql"] in
  let run := restore_to_point_in_time Worlds.cfg_local Worlds.env_failing_merge
               (Codec.mkDT 2025 1 3 12 0 0) None (mkState Worlds.fs_full_inc []) in
  (forall fs, fst (xtrabackup Worlds.env_failing_merge args_base fs) = 1%Z)
  /\ (forall fs, fst (xtrabackup Worlds.env_failing_merge args_merge fs) = 1%Z)
  /\ (forall fs, fst (xtrabackup Worlds.env_failing_merge args_copy fs) = 1%Z)
  /\ fst run = Ok tt
  /\ st_trace (snd run)
     = [Xtrabackup args_base; Xtrabackup args_merge; Xtrabackup args_final;
        Xtrabackup args_copy;
        Mysqlbinlog ["--skip-gtids";
                     "--start-datetime"; "2025-01-02 12:00:00";
                     "--start-datetime"; "2025-01-02 12:00:00";
                     "--stop-datetime"; "2025-01-03 04:00:01";
                     "/var/lib/mysql/mysql-bin.000001"]].
Proof.
  cbv zeta. repeat split; try (intros fs; reflexivity); vm_compute; reflexivity.
Qed.

(** ** Traces *)

Section Emits.

Variable P : Event -> Prop.

Lemma emits_silent {A} (c : M A) :
  (forall s, st_trace (snd (c s)) = st_trace s) -> emits P c.
Proof.
  intros H s. exists []. rewrite app_nil_r. split; [apply H | constructor].
Qed.

Lemma emits_ret {A} (a : A) : emits P (ret a).
Proof. now apply emits_silent. Qed.

Lemma emits_raise {A} : emits P (@raise A).
Proof. now apply emits_silent. Qed.

Lemma emits_get_fs : emits P get_fs.
Proof. now apply emits_silent. Qed.

Lemma emits_update_fs (f : FS.t -> FS.t) : emits P (update_fs f).
Proof. now apply emits_silent. Qed.

Lemma emits_bind {A B} (c : M A) (k : A -> M B) :
  emits P c -> (forall a, emits P (k a)) -> emits P (bind c k).
Proof.
  intros Hc Hk s. unfold bind.
  destruct (Hc s) as (evs1 & Ht1 & Hall1).
  destruct (c s) as [[a | w |] s1]; simpl in Ht1.
  - destruct (Hk a s1) as (evs2 & Ht2 & Hall2).
    exists (evs1 ++ evs2). rewrite Ht2, Ht1, app_assoc. split; [reflexivity|].
    now apply Forall_app.
  - exists evs1. now split.
  - exists evs1. now split.
Qed.

End Emits.

Section BinlogTraces.

Variable cfg : Config.
Variable env : Env.

Lemma emits_run_mysqlbinlog (P : Event -> Prop) (args : list string) :
  P (Mysqlbinlog args) -> emits P (run_mysqlbinlog env args).
Proof.
  intros HP s. exists [Mysqlbinlog args]. split; [reflexivity|]. now repeat constructor.
Qed.

Lemma emits_unlink_if_exists (P : Event -> Prop) (p : FS.Path) :
  emits P (unlink_if_exists p).
Proof. apply emits_update_fs. Qed.

Lemma emits_publish_replay_file (P : Event -> Prop) :
  emits P (publish_replay_file cfg env).
Proof.
  unfold publish_replay_file. apply emits_bind; [apply emits_get_fs|]. intros fs.
  destruct (negb _ || _); [apply emits_unlink_if_exists|].
  apply emits_bind; [apply emits_update_fs|]. intros _. apply emits_update_fs.
Qed.

Lemma stop_bound_batched (start : option string) (stop : string) (files : list FS.Path) :
  stop_bound_is stop (binlog_cmd_args start stop files).
Proof.
  unfold binlog_cmd_args.
  destruct start as [st|].
  - exists ["--start-datetime"; st; "--start-datetime"; st], (map FS.str files).
    split; [reflexivity|]. right. exists st. now right.
  - exists [], (map FS.str files). split; [reflexivity|]. now left.
Qed.

Lemma stop_bound_single (start local : option string) (stop : string) (file : FS.Path) :
  stop_bound_is stop (single_cmd start local stop file).
Proof.
  unfold single_cmd.
  destruct start as [st|]; [destruct (given local) as [lo|]|].
  - exists ["--start-datetime"; lo], [FS.str file].
    split; [reflexivity|]. right. exists lo. now left.
  - exists [], [FS.str file]. split; [reflexivity|]. now left.
  - exists [], [FS.str file]. split; [reflexivity|]. now left.
Qed.

Lemma emits_extract_each
    (start local : option string) (stop : string) (files : list FS.Path) (n : nat) :
  emits (extraction_stops_at stop) (extract_each cfg env start local stop files n).
Proof.
  revert n. induction files as [|file files IH]; intros n; simpl.
  - apply emits_ret.
  - apply emits_bind.
    + apply emits_run_mysqlbinlog. eexists. split; [reflexivity|].
      apply stop_bound_single.
    + intros [returncode content].
      destruct ((returncode =? 0)%Z && _); [|apply IH].
      apply emits_bind; [apply emits_update_fs|]. intros _. apply IH.
Qed.

Lemma emits_extract_window
    (start local : option string) (stop : string) (files : list FS.Path) :
  emits (extraction_stops_at stop) (extract_window cfg env start local stop files).
Proof.
  unfold extract_window. apply emits_bind.
  - apply emits_run_mysqlbinlog. eexists. split; [reflexivity|].
    apply stop_bound_batched.
  - intros [returncode stdout].
    apply emits_bind; [apply emits_update_fs|]. intros _.
    destruct (negb _); [|apply emits_publish_replay_file].
    apply emits_bind; [apply emits_extract_each|]. intros [|k].
    + apply emits_unlink_if_exists.
    + apply emits_publish_replay_file.
Qed.

Lemma emits_stop_datetime_utc_of (P : Event -> Prop) (epoch : Z) :
  emits P (stop_datetime_utc_of epoch).
Proof.
  unfold stop_datetime_utc_of. destruct (epoch =? 0)%Z; [apply emits_ret|].
  destruct (Codec.utcfromtimestamp _); [apply emits_ret | apply emits_raise].
Qed.

Lemma emits_window_is_void (P : Event -> Prop)
    (latest : string) (epoch : Z) (start stop : option string) :
  emits P (window_is_void env latest epoch start stop).
Proof.
  unfold window_is_void.
  destruct start, stop; try apply emits_ret.
  destruct (Codec.parse_compact latest); [|apply emits_raise].
  destruct (match Codec.utcfromtimestamp _ with Some _ => _ | None => _ end);
    [|apply emits_raise].
  destruct (_ <=? _)%Z; apply emits_ret.
Qed.

(** The stop bound the function computes, when it computes one. *)
Lemma stop_datetime_utc_of_value (epoch : Z) (s s' : State) (stop : string) :
  stop_datetime_utc_of epoch s = (Ok (Some stop), s') ->
  exists stop_dt,
    Codec.utcfromtimestamp (epoch + 1) = Some stop_dt
    /\ stop = Codec.strftime_iso stop_dt.
Proof.
  unfold stop_datetime_utc_of. destruct (epoch =? 0)%Z; [discriminate|].
  destruct (Codec.utcfromtimestamp (epoch + 1)) as [d|]; [|discriminate].
  intros [= <- _]. now exists d.
Qed.

End BinlogTraces.

(** ** C2 *)

(** C2.  Every invocation of the log-extraction tool made by
    [apply_binlog_to_datetime], batched or per segment, carries
    [--stop-datetime] with the "Y-m-d H:M:S" rendering of a UTC wall-clock
    reading that lies exactly one second after the target's epoch (the
    target read in UTC+8). *)
Theorem C2_stop_bound_is_target_plus_one_second
    (cfg : Config) (env : Env) (target : Codec.datetime)
    (full_backup_timestamp : option string)
    (applied_incremental_backups : option (list string)) (s : State) :
  exists evs,
    st_trace (snd (apply_binlog_to_datetime cfg env target full_backup_timestamp
                     applied_incremental_backups s))
    = st_trace s ++ evs
    /\ Forall (fun e =>
                 exists args stop_dt,
                   e = Mysqlbinlog args
                   /\ Codec.utcfromtimestamp
                        (Codec.timestamp_at Codec.SHANGHAI target + 1) = Some stop_dt
                   /\ Codec.wall_seconds stop_dt
                      = (Codec.timestamp_at Codec.SHANGHAI target + 1)%Z
                   /\ stop_bound_is (Codec.strftime_iso stop_dt) args) evs.
Proof.
  set (epoch := Codec.timestamp_at Codec.SHANGHAI target).
  set (P := fun e => exists args stop_dt,
                e = Mysqlbinlog args
                /\ Codec.utcfromtimestamp (epoch + 1) = Some stop_dt
                /\ Codec.wall_seconds stop_dt = (epoch + 1)%Z
                /\ stop_bound_is (Codec.strftime_iso stop_dt) args).
  revert s. change (emits P (apply_binlog_to_datetime cfg env target full_backup_timestamp
                               applied_incremental_backups)).
  unfold apply_binlog_to_datetime.
  apply emits_bind; [apply emits_get_fs|]. intros fs.
  destruct (locate_binlog_index cfg fs) as [[binlog_index binlog_dir]|]; [|apply emits_ret].
  destruct (read_binlog_files fs binlog_index binlog_dir) as [[|f files]|];
    try apply emits_ret.
  destruct (negb (mysqlbinlog_installed env)); [apply emits_ret|].
  fold epoch.
  intros s. unfold bind.
  destruct (stop_datetime_utc_of epoch s) as [[stop | w |] s1] eqn:Hstop.
  - assert (Hs1 : s1 = s).
    { revert Hstop. unfold stop_datetime_utc_of, ret, raise.
      destruct (epoch =? 0)%Z; [now intros [= _ <-]|].
      destruct (Codec.utcfromtimestamp _); now intros [= _ <-]. }
    subst s1.
    destruct (emits_window_is_void env P
                (latest_backup_timestamp_of full_backup_timestamp applied_incremental_backups)
                epoch
                (if PyStr.nonempty (latest_backup_timestamp_of full_backup_timestamp
                                      applied_incremental_backups)
                 then Some (Codec.compact_to_iso_text
                              (latest_backup_timestamp_of full_backup_timestamp
                                 applied_incremental_backups))
                 else None)
                stop s) as (evs1 & Ht1 & Hall1).
    destruct (window_is_void _ _ _ _ _ s) as [[void | w |] s2]; simpl in Ht1;
      try (exists evs1; now split).
    destruct void; [exists evs1; now split|].
    destruct stop as [stop|]; [|exists evs1; now split].
    destruct (stop_datetime_utc_of_value _ _ _ _ Hstop) as (stop_dt & Hdt & ->).
    destruct (emits_extract_window cfg env
                (if PyStr.nonempty (latest_backup_timestamp_of full_backup_timestamp
                                      applied_incremental_backups)
                 then Some (Codec.compact_to_iso_text
                              (latest_backup_timestamp_of full_backup_timestamp
                                 applied_incremental_backups))
                 else None)
                (latest_backup_datetime_local_of
                   (latest_backup_timestamp_of full_backup_timestamp
                      applied_incremental_backups))
                (Codec.strftime_iso stop_dt) (f :: files) s2) as (evs2 & Ht2 & Hall2).
    exists (evs1 ++ evs2). rewrite Ht2, Ht1, app_assoc. split; [reflexivity|].
    apply Forall_app. split; [exact Hall1|].
    eapply Forall_impl; [|exact Hall2].
    intros e (args & -> & Hb). exists args, stop_dt.
    split; [reflexivity|]. split; [exact Hdt|].
    split; [now apply CodecFacts.utcfromtimestamp_wall_seconds | exact Hb].
  - destruct (emits_stop_datetime_utc_of P epoch s) as (evs & Ht & Hall).
    rewrite Hstop in Ht. exists evs. now split.
  - destruct (emits_stop_datetime_utc_of P epoch s) as (evs & Ht & Hall).
    rewrite Hstop in Ht. exists evs. now split.
Qed.

(** ** The window test *)

(** Lines 593-616 on a backup stamp that parses, with a stop bound whose
    text parses back, in a local zone that has one UTC offset at both
    readings: the step is skipped by the window test exactly when the target
    is strictly before the backup instant; at equal instants it is not. *)
Lemma window_is_void_strictly_before
    (env : Env) (latest start stop : string) (target_timestamp_epoch off : Z)
    (backup_dt stop_dt : Codec.datetime) (s : State) :
  Codec.parse_compact latest = Some backup_dt ->
  Codec.utcfromtimestamp (target_timestamp_epoch + 1) = Some stop_dt ->
  (1000 <= Codec.year stop_dt)%Z ->
  local_timestamp env backup_dt = (Codec.wall_seconds backup_dt - off)%Z ->
  local_timestamp env stop_dt = (Codec.wall_seconds stop_dt - off)%Z ->
  window_is_void env latest target_timestamp_epoch (Some start) (Some stop) s
  = (Ok (target_timestamp_epoch <? Codec.timestamp_at 0 backup_dt)%Z, s).
Proof.
  intros Hparse Hstop Hyear Hb Hs. unfold window_is_void. rewrite Hparse, Hstop.
  unfold Codec.reparse_iso. rewrite (proj2 (Z.leb_le _ _) Hyear).
  unfold naive_timestamp, Codec.timestamp_at. rewrite Hb, Hs.
  rewrite (CodecFacts.utcfromtimestamp_wall_seconds _ _ Hstop).
  destruct (Z.leb_spec (target_timestamp_epoch + 1 - off)
                       (Codec.wall_seconds backup_dt - off)) as [H | H];
    unfold ret; f_equal; f_equal; symmetry.
  - transitivity true; [apply Z.ltb_lt; lia | symmetry; apply Z.leb_le; lia].
  - apply Z.ltb_ge. lia.
Qed.

(** ** C4 *)

(** C4, at the failing input.  The last backup applied is
    Full@20250101_000000 (UTC) and the target is 2025-01-01 08:00:00 in
    UTC+8: the same instant.  The step is not skipped: the extraction tool
    runs on the window from the backup instant to one second later, the
    replay file is produced and the pending-apply marker written, both when
    the step is called on its own and inside the whole restore. *)
Theorem C4_equal_instants_not_skipped :
  let target := Codec.mkDT 2025 1 1 8 0 0 in
  let extraction :=
    Mysqlbinlog ["--skip-gtids";
                 "--start-datetime"; "2025-01-01 00:00:00";
                 "--start-datetime"; "2025-01-01 00:00:00";
                 "--stop-datetime"; "2025-01-01 00:00:01";
                 "/var/lib/mysql/mysql-bin.000001"] in
  let step := apply_binlog_to_datetime Worlds.cfg_local Worlds.env_ok target
                (Some "20250101_000000") None (mkState Worlds.fs_one_full []) in
  let whole := restore_to_point_in_time Worlds.cfg_local Worlds.env_ok target None
                 (mkState Worlds.fs_one_full []) in
  option_map (Codec.timestamp_at 0) (Codec.parse_compact "20250101_000000")
  = Some (Codec.timestamp_at Codec.SHANGHAI target)
  /\ fst step = Ok tt
  /\ st_trace (snd step) = [extraction]
  /\ FS.read_text (st_fs (snd step)) (temp_sql Worlds.cfg_local Worlds.env_ok)
     = Some "BINLOG 'aGVsbG8=';"
  /\ FS.read_text (st_fs (snd step)) (pitr_marker Worlds.cfg_local)
     = Some "/backups/pitr_replay_20250110_000002_1234.sql"
  /\ fst whole = Ok tt
  /\ In extraction (st_trace (snd whole))
  /\ FS.read_text (st_fs (snd whole)) (pitr_marker Worlds.cfg_local)
     = Some "/backups/pitr_replay_20250110_000002_1234.sql".
Proof.
  cbv zeta.
  split; [vm_compute; reflexivity|].
  split; [vm_compute; reflexivity|].
  split; [vm_compute; reflexivity|].
  split; [vm_compute; reflexivity|].
  split; [vm_compute; reflexivity|].
  split; [vm_compute; reflexivity|].
  split; [vm_compute; auto 10|].
  vm_compute; reflexivity.
Qed.

(** One second earlier the target is strictly before the backup and the
    step is skipped. *)
Example binlog_skipped_when_target_before_backup :
  apply_binlog_to_datetime Worlds.cfg_local Worlds.env_ok (Codec.mkDT 2025 1 1 7 59 59)
    (Some "20250101_000000") None (mkState Worlds.fs_one_full [])
  = (Ok tt, mkState Worlds.fs_one_full []).
Proof. vm_compute. reflexivity. Qed.

(** ** C10 *)

(** Without the extraction tool, or without a binlog index, the binlog step
    returns at once and changes nothing. *)
Lemma apply_binlog_skipped
    (cfg : Config) (env : Env) (target : Codec.datetime)
    (full_backup_timestamp : option string)
    (applied_incremental_backups : option (list string)) (s : State) :
  mysqlbinlog_installed env = false \/ locate_binlog_index cfg (st_fs s) = None ->
  apply_binlog_to_datetime cfg env target full_backup_timestamp
    applied_incremental_backups s = (Ok tt, s).
Proof.
  intros H. unfold apply_binlog_to_datetime. rewrite bind_get_fs.
  destruct (locate_binlog_index cfg (st_fs s)) as [[binlog_index binlog_dir]|];
    [|reflexivity].
  destruct H as [H | H]; [|discriminate].
  destruct (read_binlog_files (st_fs s) binlog_index binlog_dir) as [[|f files]|];
    try reflexivity.
  now rewrite H.
Qed.

(** C10.  When the backup chain has been restored and the extraction tool
    is not installed, or no binlog index file is found, the restore returns
    normally (the run that reports completion) in exactly the state the
    materialization left: the binlog step invokes nothing and writes
    neither a replay file nor a marker. *)
Theorem C10_restore_completes_without_binlog_replay
    (cfg : Config) (env : Env) (target : Codec.datetime)
    (full_backup_timestamp : option string)
    (s s1 : State) (chain : string * list string) :
  restore_backup_chain cfg env target full_backup_timestamp s = (Ok chain, s1) ->
  mysqlbinlog_installed env = false \/ locate_binlog_index cfg (st_fs s1) = None ->
  restore_to_point_in_time cfg env target full_backup_timestamp s = (Ok tt, s1).
Proof.
  intros Hchain Hskip. unfold restore_to_point_in_time.
  rewrite (bind_ok _ _ _ _ _ Hchain). destruct chain as [base applied].
  erewrite bind_ok; [reflexivity|]. now apply apply_binlog_skipped.
Qed.

(** A world for the theorem: Full@20250101_000000 and
    Incremental@20250102_120000 on disk, [mysqlbinlog] not installed, target
    2025-01-03 12:00:00. *)
Lemma C10_restore_completes_without_binlog_replay_witness :
  exists s1,
    restore_to_point_in_time Worlds.cfg_local Worlds.env_no_mysqlbinlog
      (Codec.mkDT 2025 1 3 12 0 0) None (mkState Worlds.fs_full_inc []) = (Ok tt, s1)
    /\ FS.exists_ (st_fs s1) (pitr_marker Worlds.cfg_local) = false
    /\ FS.exists_ (st_fs s1) (temp_sql Worlds.cfg_local Worlds.env_no_mysqlbinlog) = false.
Proof.
  pose (r := restore_backup_chain Worlds.cfg_local Worlds.env_no_mysqlbinlog
               (Codec.mkDT 2025 1 3 12 0 0) None (mkState Worlds.fs_full_inc [])).
  exists (snd r). split.
  - apply (C10_restore_completes_without_binlog_replay
             Worlds.cfg_local Worlds.env_no_mysqlbinlog (Codec.mkDT 2025 1 3 12 0 0) None
             (mkState Worlds.fs_full_inc []) (snd r)
             ("20250101_000000", ["/backups/incremental/20250102_120000"])).
    + vm_compute. reflexivity.
    + left. reflexivity.
  - split; vm_compute; reflexivity.
Defined.

(** ** C7 *)

Lemma prefix_upper (p s : string) :
  String.prefix p s = true -> String.prefix (PyStr.upper p) (PyStr.upper s) = true.
Proof.
  revert s. induction p as [|a p IH]; intros [|b s]; simpl; try discriminate; auto.
  destruct (ascii_dec a b) as [-> |]; [|discriminate].
  intros H. destruct (ascii_dec (PyStr.to_upper b) (PyStr.to_upper b)); [auto | congruence].
Qed.

Lemma contains_upper (p s : string) :
  PyStr.contains p s = true -> PyStr.contains (PyStr.upper p) (PyStr.upper s) = true.
Proof.
  induction s as [|c s IH]; simpl; rewrite !orb_true_iff.
  - intros [H | H]; [|discriminate]. left. now apply (prefix_upper p "").
  - intros [H | H]; [left; now apply (prefix_upper p (String c s)) | right; auto].
Qed.

(** C7, counterexample.  A line reporting ERROR 1146 contains "ERROR 1146"
    and is classified as not critical. *)
Lemma C7_counterexample_error_1146 :
  PyStr.contains "ERROR 1146" "ERROR 1146 (42S02): Table 'app.orders' doesn't exist" = true
  /\ DeferredApply.is_critical "ERROR 1146 (42S02): Table 'app.orders' doesn't exist" = false
  /\ DeferredApply.critical_errors "ERROR 1146 (42S02): Table 'app.orders' doesn't exist" = [].
Proof. repeat split; reflexivity. Qed.

(** C7 (amended).  The classifier marks every output line containing
    "ERROR 1062" as not critical, marks every line containing "ERROR 1146"
    as not critical as well, and marks as critical every line that contains
    "ERROR" in any letter case and, once upper-cased, none of "ERROR 1050",
    "ERROR 1062", "ERROR 1032", "ERROR 1146", "USING A PASSWORD" and
    "WARNING". *)
Theorem C7_error_classification (line : string) :
  (PyStr.contains "ERROR 1062" line = true -> DeferredApply.is_critical line = false)
  /\ (PyStr.contains "ERROR 1146" line = true -> DeferredApply.is_critical line = false)
  /\ (PyStr.contains "ERROR" (PyStr.upper line) = true ->
      PyStr.contains "ERROR 1050" (PyStr.upper line) = false ->
      PyStr.contains "ERROR 1062" (PyStr.upper line) = false ->
      PyStr.contains "ERROR 1032" (PyStr.upper line) = false ->
      PyStr.contains "ERROR 1146" (PyStr.upper line) = false ->
      PyStr.contains "USING A PASSWORD" (PyStr.upper line) = false ->
      PyStr.contains "WARNING" (PyStr.upper line) = false ->
      DeferredApply.is_critical line = true).
Proof.
  unfold DeferredApply.is_critical, DeferredApply.is_non_critical. repeat split.
  - intros H. apply contains_upper in H. change (PyStr.upper "ERROR 1062") with "ERROR 1062" in H.
    rewrite H. rewrite !orb_true_r. simpl. apply andb_false_r.
  - intros H. apply contains_upper in H. change (PyStr.upper "ERROR 1146") with "ERROR 1146" in H.
    rewrite H. rewrite !orb_true_r. simpl. apply andb_false_r.
  - intros -> -> -> -> -> -> ->. reflexivity.
Qed.

(** Three lines for the theorem, one per part. *)
Lemma C7_error_classification_witness :
  DeferredApply.is_critical "ERROR 1062 (23000): Duplicate entry '7' for key 'PRIMARY'" = false
  /\ DeferredApply.is_critical "ERROR 1146 (42S02): Table 'app.orders' doesn't exist" = false
  /\ DeferredApply.is_critical "error 1064 (42000): You have an error in your SQL syntax" = true.
Proof.
  split; [|split].
  - apply (proj1 (C7_error_classification
                    "ERROR 1062 (23000): Duplicate entry '7' for key 'PRIMARY'")).
    reflexivity.
  - apply (proj1 (proj2 (C7_error_classification
                           "ERROR 1146 (42S02): Table 'app.orders' doesn't exist"))).
    reflexivity.
  - apply (proj2 (proj2 (C7_error_classification
                           "error 1064 (42000): You have an error in your SQL syntax")));
      reflexivity.
Defined.

(** ** C8 *)

Lemma exists_unlink (fs : FS.t) (p : FS.Path) : FS.exists_ (FS.unlink fs p) p = false.
Proof.
  unfold FS.exists_, FS.lookup, FS.unlink.
  induction fs as [|e fs IH]; simpl; [reflexivity|].
  destruct (FS.path_eqb (fst e) p) eqn:He; simpl; [exact IH|].
  now rewrite He.
Qed.

Lemma read_text_exists (fs : FS.t) (p : FS.Path) (c : string) :
  FS.read_text fs p = Some c -> FS.exists_ fs p = true.
Proof.
  unfold FS.read_text, FS.exists_. now destruct (FS.lookup fs p).
Qed.

Lemma exists_remove_marker (fs : FS.t) :
  FS.exists_ (DeferredApply.remove_marker fs) DeferredApply.PITR_MARKER = false.
Proof.
  unfold DeferredApply.remove_marker.
  destruct (FS.exists_ fs DeferredApply.PITR_MARKER) eqn:H; [apply exists_unlink | exact H].
Qed.

(** C8.  With a marker that names an existing replay file and a database
    that became reachable, [main] returns 0 exactly when the replay process
    exited with code 0, or exited with another code and no output line was
    classified critical.  When it returns 0 the marker is gone.  Otherwise it
    returns 1 (it does not raise) and the file system is unchanged: the
    marker is still in place and the replay file is still there. *)
Theorem C8_deferred_apply_outcome
    (env : DeferredApply.Env) (fs : FS.t) (raw sql : string) :
  FS.read_text fs DeferredApply.PITR_MARKER = Some raw ->
  PyStr.nonempty (PyStr.strip raw) = true ->
  FS.read_text fs (FS.of_string (PyStr.strip raw)) = Some sql ->
  DeferredApply.wait_for_mysql env = true ->
  let code := fst (DeferredApply.main env fs) in
  let fs' := snd (DeferredApply.main env fs) in
  (code = 0%Z <->
     exists returncode stdout stderr,
       DeferredApply.mysql_force env sql
       = DeferredApply.Exited returncode stdout stderr
       /\ (returncode = 0%Z
           \/ DeferredApply.critical_errors (stdout ++ stderr) = []))
  /\ (code = 0%Z -> FS.exists_ fs' DeferredApply.PITR_MARKER = false)
  /\ (code <> 0%Z ->
        code = 1%Z
        /\ fs' = fs
        /\ FS.read_text fs' DeferredApply.PITR_MARKER = Some raw
        /\ FS.read_text fs' (FS.of_string (PyStr.strip raw)) = Some sql).
Proof.
  intros Hmarker Hnonempty Hsql Hready. cbv zeta.
  unfold DeferredApply.main.
  rewrite (read_text_exists _ _ _ Hmarker), Hmarker. cbn [negb].
  rewrite Hnonempty, (read_text_exists _ _ _ Hsql), Hready. cbn [negb orb].
  unfold DeferredApply.apply_sql_file. rewrite Hsql.
  destruct (DeferredApply.mysql_force env sql) as [returncode stdout stderr | |];
    cbn [negb fst snd].
  - destruct (Z.eqb_spec returncode 0) as [-> | Hrc]; cbn [fst snd].
    + split; [|split].
      * split; [|reflexivity]. intros _. exists 0%Z, stdout, stderr. auto.
      * intros _. apply exists_remove_marker.
      * intros H. now contradiction H.
    + destruct (DeferredApply.critical_errors (stdout ++ stderr)) as [|e l] eqn:Hcrit;
        cbn [List.length Nat.eqb fst snd].
      * split; [|split].
        -- split; [|reflexivity]. intros _. exists returncode, stdout, stderr. auto.
        -- intros _. apply exists_remove_marker.
        -- intros H. now contradiction H.
      * split; [|split].
        -- split; [discriminate|].
           intros (rc & out & err & [= -> -> ->] & [-> | Hnil]);
             [now contradiction Hrc | congruence].
        -- discriminate.
        -- intros _. repeat split; assumption.
  - split; [|split].
    + split; [discriminate|]. intros (rc & out & err & H & _). discriminate.
    + discriminate.
    + intros _. repeat split; assumption.
  - split; [|split].
    + split; [discriminate|]. intros (rc & out & err & H & _). discriminate.
    + discriminate.
    + intros _. repeat split; assumption.
Qed.

(** A world for the theorem: the marker names an existing replay file, the
    replay exits with status 1 and its only error line is a duplicate
    key. *)
Lemma C8_deferred_apply_outcome_witness :
  fst (DeferredApply.main Worlds.env_apply_duplicates Worlds.fs_pending) = 0%Z
  /\ FS.exists_ (snd (DeferredApply.main Worlds.env_apply_duplicates Worlds.fs_pending))
                DeferredApply.PITR_MARKER = false.
Proof.
  destruct (C8_deferred_apply_outcome Worlds.env_apply_duplicates Worlds.fs_pending
              "/backups/pitr_replay_20250110_000002_1234.sql" "BINLOG 'aGVsbG8=';")
    as (Hiff & Hgone & _); try reflexivity.
  assert (H0 : fst (DeferredApply.main Worlds.env_apply_duplicates Worlds.fs_pending) = 0%Z).
  { apply Hiff.
    exists 1%Z, "",
      "ERROR 1062 (23000) at line 12: Duplicate entry '7' for key 'PRIMARY'".
    split; [reflexivity | right; reflexivity]. }
  split; [exact H0 | exact (Hgone H0)].
Defined.


(* ===================================================================== *)
(** * Further properties *)
(* ===================================================================== *)

(** ** The anchor search *)

(** X1.  When some backup of the catalog is at or before the target,
    [find_latest_backup_before_target] returns a backup of the catalog whose
    timestamp is at or before the target and is not exceeded by any other
    backup at or before the target. *)
Theorem X1_anchor_is_latest_at_or_before_target
    (cfg : Config) (env : Env) (fs : FS.t) (target : Codec.datetime) :
  (exists e, In e (catalog cfg env fs)
             /\ String.leb (snd e) (Codec.strftime_compact target) = true) ->
  let anchor := find_latest_backup_before_target cfg env fs target in
  In anchor (catalog cfg env fs)
  /\ String.leb (snd anchor) (Codec.strftime_compact target) = true
  /\ forall e, In e (catalog cfg env fs) ->
               String.leb (snd e) (Codec.strftime_compact target) = true ->
               String.leb (snd e) (snd anchor) = true.
Proof.
  intros [e [He Hle]]. apply find_latest_is_anchor.
  intros Hnil.
  assert (Hin : In e (all_backups cfg env fs (Codec.strftime_compact target)))
    by (apply in_all_backups; now split).
  rewrite Hnil in Hin. contradiction.
Qed.

(** A world for the theorem: Full@20250101_000000,
    Incremental@20250102_000000 and Full@20250104_000000 on disk, target
    2025-01-03 00:00:00. *)
Lemma X1_anchor_is_latest_at_or_before_target_witness :
  let anchor := find_latest_backup_before_target Worlds.cfg_local Worlds.env_ok
                  Worlds.fs_two_fulls (Codec.mkDT 2025 1 3 0 0 0) in
  In anchor (catalog Worlds.cfg_local Worlds.env_ok Worlds.fs_two_fulls)
  /\ String.leb (snd anchor) "20250103_000000" = true.
Proof.
  destruct (X1_anchor_is_latest_at_or_before_target Worlds.cfg_local Worlds.env_ok
              Worlds.fs_two_fulls (Codec.mkDT 2025 1 3 0 0 0)) as (Hin & Hle & _).
  - exists (Full, "20250101_000000"). split; [vm_compute; auto | reflexivity].
  - split; [exact Hin | exact Hle].
Defined.

(** Every timestamp of the catalog is a non-empty string. *)
Lemma match_timestamp_nonempty (s : string) :
  PyStr.match_timestamp s = true -> s <> "".
Proof. destruct s; [discriminate | discriminate]. Qed.

Lemma match_backup_file_nonempty (f ts : string) :
  PyStr.match_backup_file f = Some ts -> ts <> "".
Proof.
  unfold PyStr.match_backup_file.
  destruct (String.prefix "backup_" f); [|discriminate].
  destruct (PyStr.drop 7 f) as [|c r] eqn:Hr; [discriminate|].
  destruct (PyStr.digits_then 8 (String c r)) as [[|u r1]|]; try discriminate.
  destruct (Ascii.eqb_spec u "_"%char) as [-> | Hne];
    [|destruct u as [[] [] [] [] [] [] [] []]; try discriminate; now contradiction Hne].
  destruct (PyStr.digits_then 6 r1) as [r2|]; [|discriminate].
  destruct (String.prefix ".tar.gz" r2 && PyStr.at_end (PyStr.drop 7 r2)); [|discriminate].
  intros [= <-]. discriminate.
Qed.

Lemma catalog_timestamps_nonempty (cfg : Config) (env : Env) (fs : FS.t) (e : Kind * string) :
  In e (catalog cfg env fs) -> snd e <> "".
Proof.
  unfold catalog. rewrite !in_app_iff.
  assert (Hdirs : forall root k, In e (map (pair k) (timestamp_dirs fs root)) -> snd e <> "").
  { intros root k H. apply in_map_iff in H. destruct H as (n & <- & Hn). simpl.
    unfold timestamp_dirs in Hn. destruct (FS.exists_ fs root); [|contradiction].
    apply filter_In in Hn. destruct Hn as [_ Hn]. apply andb_true_iff in Hn.
    now apply match_timestamp_nonempty. }
  assert (Hs3 : forall sub k, In e (map (pair k) (s3_timestamps cfg env sub)) -> snd e <> "").
  { intros sub k H. apply in_map_iff in H. destruct H as (n & <- & Hn). simpl.
    unfold s3_timestamps in Hn. destruct (mc_ls env _) as [rc out].
    destruct (rc =? 0)%Z; [|contradiction].
    apply in_flat_map in Hn. destruct Hn as (line & _ & Hn).
    destruct (nth_error (PyStr.words line) 5) as [filename|]; [|contradiction].
    destruct (PyStr.match_backup_file filename) as [ts|] eqn:Hm; [|contradiction].
    destruct Hn as [<- | []]. now apply (match_backup_file_nonempty filename). }
  intros [H | [H | H]]; eauto.
  destruct (setup_s3_if_needed cfg env); [|contradiction].
  apply in_app_iff in H. destruct H; eauto.
Qed.

(** X2.  [find_latest_backup_before_target] returns the sentinel -- kind
    "full" with an empty timestamp -- exactly when no backup of the catalog
    is at or before the target. *)
Theorem X2_sentinel_iff_nothing_at_or_before_target
    (cfg : Config) (env : Env) (fs : FS.t) (target : Codec.datetime) :
  find_latest_backup_before_target cfg env fs target = (Full, "")
  <-> Forall (fun e => String.leb (snd e) (Codec.strftime_compact target) = false)
             (catalog cfg env fs).
Proof.
  split.
  - intros Hs. rewrite Forall_forall. intros e He.
    destruct (String.leb (snd e) (Codec.strftime_compact target)) eqn:Hle; [|reflexivity].
    exfalso.
    assert (Hne : all_backups cfg env fs (Codec.strftime_compact target) <> []).
    { intros Hnil.
      assert (Hin : In e (all_backups cfg env fs (Codec.strftime_compact target)))
        by (apply in_all_backups; now split).
      rewrite Hnil in Hin. contradiction. }
    destruct (find_latest_is_anchor cfg env fs target Hne) as (Hin & _).
    rewrite Hs in Hin. now apply catalog_timestamps_nonempty in Hin.
  - intros Hall. apply find_latest_sentinel.
    rewrite all_backups_catalog.
    induction Hall as [|e l He _ IH]; simpl; [reflexivity|]. now rewrite He.
Qed.

(** ** Ties *)

(** The head of a stable sort is the first element of the input that no
    element beats: everything before it comes strictly after it in the
    order. *)
Lemma sort_by_head_first {A} (le : A -> A -> bool) (l : list A) (b : A) (rest : list A) :
  sort_by le l = b :: rest ->
  exists l1 l2, l = l1 ++ b :: l2 /\ Forall (fun x => le x b = false) l1.
Proof.
  revert b rest. induction l as [|x l IH]; intros b rest; simpl; [discriminate|].
  destruct (sort_by le l) as [|y r] eqn:Hs.
  - simpl. intros [= <- <-].
    assert (l = []) as ->.
    { destruct l as [|z l]; [reflexivity|]. exfalso.
      assert (Hp : Permutation (z :: l) []) by (rewrite <- Hs; apply sort_by_perm).
      apply Permutation_sym, Permutation_nil in Hp. discriminate. }
    exists [], []. split; [reflexivity | constructor].
  - simpl. destruct (le x y) eqn:Hxy.
    + intros [= <- <-]. exists [], l. split; [reflexivity | constructor].
    + intros [= <- <-]. destruct (IH y r eq_refl) as (l1 & l2 & -> & Hall).
      exists (x :: l1), l2. split; [reflexivity|]. now constructor.
Qed.

(** X3.  A timestamp tie goes to the local Full backup: when the anchor's
    timestamp is that of a full backup directory on disk, the anchor is of
    kind Full, whichever incremental or remote backup carries the same
    timestamp. *)
Theorem X3_local_full_wins_timestamp_tie
    (cfg : Config) (env : Env) (fs : FS.t) (target : Codec.datetime) (n : string) :
  In n (timestamp_dirs fs (full_root cfg)) ->
  String.leb n (Codec.strftime_compact target) = true ->
  snd (find_latest_backup_before_target cfg env fs target) = n ->
  fst (find_latest_backup_before_target cfg env fs target) = Full.
Proof.
  intros Hn Hle. unfold find_latest_backup_before_target.
  set (t := Codec.strftime_compact target) in *.
  destruct (sort_backups_desc (all_backups cfg env fs t)) as [|b rest] eqn:Hs;
    [reflexivity|].
  intros Hb. unfold sort_backups_desc in Hs.
  destruct (sort_by_head_first _ _ _ _ Hs) as (l1 & l2 & Hl & Hall).
  unfold all_backups in Hl.
  set (fulls := map (pair Full) (at_or_before t (timestamp_dirs fs (full_root cfg)))) in *.
  assert (Hin : In (Full, n) fulls).
  { subst fulls. apply in_map. unfold at_or_before. apply filter_In. now split. }
  apply app_eq_app in Hl. destruct Hl as (m & [[Hf Hr] | [Hl1 Hr]]).
  - (* the Full entries reach beyond [l1]: the head is one of them *)
    destruct m as [|b' m].
    + rewrite app_nil_r in Hf. subst l1. rewrite Forall_forall in Hall.
      specialize (Hall _ Hin). simpl in Hall. rewrite Hb in Hall.
      now rewrite StrOrder.leb_refl in Hall.
    + simpl in Hr. injection Hr as <- _.
      assert (Hbin : In b fulls) by (rewrite Hf; apply in_or_app; right; now left).
      subst fulls. apply in_map_iff in Hbin. now destruct Hbin as (x & <- & _).
  - (* all Full entries lie before the head: the tie is impossible *)
    subst l1. rewrite Forall_forall in Hall.
    specialize (Hall (Full, n) (in_or_app _ _ _ (or_introl Hin))).
    simpl in Hall. rewrite Hb in Hall. now rewrite StrOrder.leb_refl in Hall.
Qed.

(** A world for the theorem: Incremental@20250102_000000 and
    Full@20250102_000000 on disk, target 2025-01-03 00:00:00. *)
Lemma X3_local_full_wins_timestamp_tie_witness :
  fst (find_latest_backup_before_target Worlds.cfg_local Worlds.env_ok MoreWorlds.fs_tie
         (Codec.mkDT 2025 1 3 0 0 0)) = Full.
Proof.
  apply (X3_local_full_wins_timestamp_tie Worlds.cfg_local Worlds.env_ok MoreWorlds.fs_tie
           (Codec.mkDT 2025 1 3 0 0 0) "20250102_000000").
  - vm_compute. auto.
  - reflexivity.
  - vm_compute. reflexivity.
Defined.

(** ** Discovery *)

Lemma find_incremental_names_sorted
    (cfg : Config) (fs : FS.t) (base : string) (target : Codec.datetime) :
  StronglySorted (fun a b => String.leb a b = true)
                 (find_incremental_names cfg fs base target).
Proof.
  unfold find_incremental_names, sort_asc.
  apply (sort_by_sorted String.leb String.leb_total StrOrder.leb_trans).
Qed.

(** X4.  [find_incremental_backups] returns exactly the timestamped
    directories under [incremental/] whose name is strictly after the base
    and strictly before the target -- none is left out, none is added --
    as paths [incremental/<name>] in ascending order of name. *)
Theorem X4_discovery_is_exact
    (cfg : Config) (fs : FS.t) (base : string) (target : Codec.datetime) :
  let names := find_incremental_names cfg fs base target in
  find_incremental_backups cfg fs base target = map (FS.join (incremental_root cfg)) names
  /\ (forall n, In n names <->
        In n (timestamp_dirs fs (incremental_root cfg))
        /\ String.ltb base n = true
        /\ String.ltb n (Codec.strftime_compact target) = true)
  /\ StronglySorted (fun a b => String.leb a b = true) names.
Proof.
  cbv zeta. split; [reflexivity|]. split.
  - intros n. unfold find_incremental_names, sort_asc. split.
    + intros Hn. eapply Permutation_in in Hn; [|symmetry; apply sort_by_perm].
      apply filter_In in Hn. destruct Hn as [Hin Hb].
      apply andb_true_iff in Hb. tauto.
    + intros (Hin & Hlo & Hhi). eapply Permutation_in; [apply sort_by_perm|].
      apply filter_In. split; [exact Hin|]. now rewrite Hlo, Hhi.
  - apply find_incremental_names_sorted.
Qed.

(** Two sorted lists with the same elements are equal. *)
Lemma sorted_permutation_unique (l1 l2 : list string) :
  StronglySorted (fun a b => String.leb a b = true) l1 ->
  StronglySorted (fun a b => String.leb a b = true) l2 ->
  Permutation l1 l2 -> l1 = l2.
Proof.
  intros H1. revert l2. induction H1 as [|a l1 Hs1 IH Hall1]; intros l2 H2 Hp.
  - apply Permutation_nil in Hp. now subst.
  - destruct H2 as [|b l2 Hs2 Hall2].
    + apply Permutation_sym, Permutation_nil in Hp. discriminate.
    + rewrite Forall_forall in Hall1, Hall2.
      assert (Hab : a = b).
      { apply String.leb_antisym.
        - assert (Hb : In b (a :: l1))
            by (eapply Permutation_in; [symmetry; exact Hp | now left]).
          destruct Hb as [-> | Hb]; [apply StrOrder.leb_refl | now apply Hall1].
        - assert (Ha : In a (b :: l2)) by (eapply Permutation_in; [exact Hp | now left]).
          destruct Ha as [-> | Ha]; [apply StrOrder.leb_refl | now apply Hall2]. }
      subst b. f_equal. apply IH; [exact Hs2|].
      now apply Permutation_cons_inv in Hp.
Qed.

(** X5.  The incrementals found do not depend on the order in which the
    directory is listed: two file systems whose [incremental/] directories
    hold the same timestamped sub-directories, listed in any order, give the
    same result. *)
Theorem X5_discovery_ignores_listing_order
    (cfg : Config) (fs1 fs2 : FS.t) (base : string) (target : Codec.datetime) :
  Permutation (timestamp_dirs fs1 (incremental_root cfg))
              (timestamp_dirs fs2 (incremental_root cfg)) ->
  find_incremental_backups cfg fs1 base target
  = find_incremental_backups cfg fs2 base target.
Proof.
  intros Hp. unfold find_incremental_backups. f_equal.
  apply sorted_permutation_unique.
  - apply find_incremental_names_sorted.
  - apply find_incremental_names_sorted.
  - unfold find_incremental_names, sort_asc.
    rewrite <- !sort_by_perm.
    set (keep := fun inc_timestamp : string =>
                   String.ltb base inc_timestamp
                   && String.ltb inc_timestamp (Codec.strftime_compact target)).
    induction Hp; simpl.
    + constructor.
    + destruct (keep x); [now constructor | assumption].
    + destruct (keep x), (keep y); try reflexivity; constructor.
    + etransitivity; eassumption.
Qed.

(** Two worlds for the theorem: the same backups, the two incrementals
    listed in opposite orders. *)
Lemma X5_discovery_ignores_listing_order_witness :
  find_incremental_backups Worlds.cfg_local MoreWorlds.fs_incs_later_first
    "20250101_000000" (Codec.mkDT 2025 1 4 0 0 0)
  = find_incremental_backups Worlds.cfg_local MoreWorlds.fs_incs_earlier_first
      "20250101_000000" (Codec.mkDT 2025 1 4 0 0 0).
Proof.
  apply X5_discovery_ignores_listing_order.
  vm_compute. apply perm_swap.
Defined.

(** ** What the chain is *)

(** X6.  On a file system without duplicate paths, when the search itself
    finds a Full anchor, auto-discovery adds nothing: the resolved chain is
    the anchor alone, because an incremental strictly between the anchor and
    the target would have been the anchor. *)
Theorem X6_full_anchor_chain_has_no_incrementals
    (cfg : Config) (env : Env) (fs : FS.t) (target : Codec.datetime) (base : string) :
  FS.wf fs ->
  (exists e, In e (catalog cfg env fs)
             /\ String.leb (snd e) (Codec.strftime_compact target) = true) ->
  find_latest_backup_before_target cfg env fs target = (Full, base) ->
  resolve_chain cfg env fs target None = Ok (base, []).
Proof.
  intros Hwf [e [He Hle]] Hfl.
  assert (Hne : all_backups cfg env fs (Codec.strftime_compact target) <> []).
  { intros Hnil.
    assert (Hin : In e (all_backups cfg env fs (Codec.strftime_compact target)))
      by (apply in_all_backups; now split).
    rewrite Hnil in Hin. contradiction. }
  unfold resolve_chain, choose_backup. simpl given. cbv iota. rewrite Hfl.
  cbn [choose_base]. unfold discover.
  now rewrite (full_anchor_discovers_nothing cfg env fs target base Hwf Hne Hfl).
Qed.

(** A world for the theorem: only Full@20250101_000000 on disk, target
    2025-01-03 12:00:00. *)
Lemma X6_full_anchor_chain_has_no_incrementals_witness :
  resolve_chain Worlds.cfg_local Worlds.env_ok Worlds.fs_one_full
    (Codec.mkDT 2025 1 3 12 0 0) None = Ok ("20250101_000000", []).
Proof.
  apply X6_full_anchor_chain_has_no_incrementals.
  - unfold FS.wf. vm_compute. repeat constructor; simpl; intuition discriminate.
  - exists (Full, "20250101_000000"). split; [vm_compute; auto | reflexivity].
  - vm_compute. reflexivity.
Defined.

(** X7.  When the anchor is an Incremental and a full backup directory is on
    disk, the chain is the anchor alone on top of the newest full backup
    directory on disk, whatever the target: the base does not depend on the
    target and need not precede the anchor. *)
Theorem X7_incremental_anchor_chain
    (cfg : Config) (env : Env) (fs : FS.t) (target : Codec.datetime) (ts : string) :
  find_latest_backup_before_target cfg env fs target = (Incremental, ts) ->
  timestamp_dirs fs (full_root cfg) <> [] ->
  exists base,
    resolve_chain cfg env fs target None
    = Ok (base, [FS.join (incremental_root cfg) ts])
    /\ In base (timestamp_dirs fs (full_root cfg))
    /\ forall n, In n (timestamp_dirs fs (full_root cfg)) -> String.leb n base = true.
Proof.
  intros Hanchor Hfulls.
  destruct (resolve_chain cfg env fs target None) as [[base incs] | w |] eqn:Hres.
  - destruct (incremental_anchor_chain cfg env fs target ts base incs Hanchor Hres)
      as (-> & Hin & Hmax).
    exists base. repeat split; assumption.
  - exfalso. revert Hres. unfold resolve_chain, choose_backup. simpl given. cbv iota.
    rewrite Hanchor. cbn [choose_base].
    destruct (sort_desc (timestamp_dirs fs (full_root cfg))) as [|b r] eqn:Hs;
      [|discriminate].
    exfalso. revert Hs. unfold sort_desc. now apply sort_by_nonempty.
  - exfalso. revert Hres. unfold resolve_chain, choose_backup. simpl given. cbv iota.
    rewrite Hanchor. cbn [choose_base].
    destruct (sort_desc (timestamp_dirs fs (full_root cfg))); discriminate.
Qed.

(** A world for the theorem: Full@20250101_000000,
    Incremental@20250102_000000 and Full@20250104_000000 on disk, target
    2025-01-03 00:00:00; the base is the full backup of the 4th. *)
Lemma X7_incremental_anchor_chain_witness :
  exists base,
    resolve_chain Worlds.cfg_local Worlds.env_ok Worlds.fs_two_fulls
      (Codec.mkDT 2025 1 3 0 0 0) None
    = Ok (base, [FS.join (incremental_root Worlds.cfg_local) "20250102_000000"])
    /\ String.leb "20250104_000000" base = true.
Proof.
  destruct (X7_incremental_anchor_chain Worlds.cfg_local Worlds.env_ok Worlds.fs_two_fulls
              (Codec.mkDT 2025 1 3 0 0 0) "20250102_000000") as (base & Hres & _ & Hmax).
  - vm_compute. reflexivity.
  - vm_compute. discriminate.
  - exists base. split; [exact Hres|]. apply Hmax. vm_compute. auto.
Defined.

(** ** The compact timestamp *)

Module StampFacts.

Local Open Scope Z_scope.

Ltac digit_cases n :=
  let k := fresh "k" in
  let Hk := fresh "Hk" in
  let Hr := fresh "Hr" in
  remember (n mod 10) as k eqn:Hk;
  assert (Hr : k = 0 \/ k = 1 \/ k = 2 \/ k = 3 \/ k = 4 \/ k = 5 \/ k = 6
               \/ k = 7 \/ k = 8 \/ k = 9)
    by (pose proof (Z.mod_pos_bound n 10 ltac:(lia)); lia);
  clear Hk;
  repeat (destruct Hr as [Hr | Hr]; [subst k | ]); [ .. | subst k ].

Lemma digit_char_is_digit (n : Z) : PyStr.is_digit (Codec.digit_char n) = true.
Proof. unfold Codec.digit_char. digit_cases n; reflexivity. Qed.

Lemma digit_char_value (n : Z) :
  Z.of_nat (nat_of_ascii (Codec.digit_char n) - 48) = n mod 10.
Proof. unfold Codec.digit_char. digit_cases n; reflexivity. Qed.

Lemma digit_char_compare (a b : Z) :
  Ascii.compare (Codec.digit_char a) (Codec.digit_char b) = (a mod 10 ?= b mod 10).
Proof. unfold Codec.digit_char. digit_cases a; digit_cases b; reflexivity. Qed.

Lemma field_pad2 (n : Z) : 0 <= n < 100 -> Codec.field 2 (Codec.pad2 n) = Some n.
Proof.
  intros Hn. unfold Codec.field, Codec.pad2. cbn [String.length Nat.eqb Codec.number_of].
  rewrite !digit_char_is_digit, !digit_char_value. f_equal.
  Z.to_euclidean_division_equations. lia.
Qed.

(** From the year 1000 on the year has four digits. *)
Lemma year_text_four (n : Z) :
  1000 <= n ->
  Codec.year_text n
  = String (Codec.digit_char (n / 1000))
      (String (Codec.digit_char (n / 100)) (Codec.pad2 n)).
Proof.
  intros Hn. unfold Codec.year_text.
  destruct (Z.ltb_spec n 10); [lia|]. destruct (Z.ltb_spec n 100); [lia|].
  destruct (Z.ltb_spec n 1000); [lia | reflexivity].
Qed.

Lemma field_year_text (n : Z) :
  1000 <= n < 10000 -> Codec.field 4 (Codec.year_text n) = Some n.
Proof.
  intros Hn. rewrite year_text_four by lia. unfold Codec.field, Codec.pad2.
  cbn [String.length Nat.eqb Codec.number_of].
  rewrite !digit_char_is_digit, !digit_char_value. f_equal.
  Z.to_euclidean_division_equations. lia.
Qed.

Lemma days_in_month_bounds (y m : Z) : 28 <= Codec.days_in_month y m <= 31.
Proof.
  unfold Codec.days_in_month.
  destruct (m =? 2); [destruct (Codec.is_leap y); lia|].
  destruct ((m =? 4) || (m =? 6) || (m =? 9) || (m =? 11)); lia.
Qed.

Lemma valid_datetime_bounds (d : Codec.datetime) :
  Codec.valid_datetime d = true ->
  1 <= Codec.year d <= 9999 /\ 1 <= Codec.month d <= 12
  /\ 1 <= Codec.day d <= Codec.days_in_month (Codec.year d) (Codec.month d)
  /\ 0 <= Codec.hour d <= 23 /\ 0 <= Codec.minute d <= 59 /\ 0 <= Codec.second d <= 59.
Proof.
  unfold Codec.valid_datetime. rewrite !andb_true_iff, !Z.leb_le. lia.
Qed.

Lemma match_timestamp_strftime (d : Codec.datetime) :
  1000 <= Codec.year d ->
  PyStr.match_timestamp (Codec.strftime_compact d) = true.
Proof.
  intros Hy. unfold PyStr.match_timestamp, Codec.strftime_compact.
  rewrite year_text_four by exact Hy. unfold Codec.pad2.
  cbn [append PyStr.digits_then]. rewrite !digit_char_is_digit. reflexivity.
Qed.

Lemma slice_year (d : Codec.datetime) :
  1000 <= Codec.year d ->
  PyStr.slice 0 4 (Codec.strftime_compact d) = Codec.year_text (Codec.year d)
  /\ PyStr.slice 4 6 (Codec.strftime_compact d) = Codec.pad2 (Codec.month d)
  /\ PyStr.slice 6 8 (Codec.strftime_compact d) = Codec.pad2 (Codec.day d)
  /\ PyStr.slice 9 11 (Codec.strftime_compact d) = Codec.pad2 (Codec.hour d)
  /\ PyStr.slice 11 13 (Codec.strftime_compact d) = Codec.pad2 (Codec.minute d)
  /\ PyStr.slice 13 15 (Codec.strftime_compact d) = Codec.pad2 (Codec.second d).
Proof.
  intros Hy. unfold Codec.strftime_compact. rewrite year_text_four by exact Hy.
  repeat split; reflexivity.
Qed.

Lemma parse_compact_strftime (d : Codec.datetime) :
  Codec.valid_datetime d = true -> 1000 <= Codec.year d ->
  Codec.parse_compact (Codec.strftime_compact d) = Some d.
Proof.
  intros Hv Hy. pose proof (valid_datetime_bounds d Hv) as Hb.
  pose proof (days_in_month_bounds (Codec.year d) (Codec.month d)).
  unfold Codec.parse_compact.
  destruct (slice_year d Hy) as (-> & -> & -> & -> & -> & ->).
  rewrite field_year_text by lia. rewrite !field_pad2 by lia.
  destruct d as [y mo dd h mi sec]. cbn [Codec.year Codec.month Codec.day Codec.hour
    Codec.minute Codec.second] in *. now rewrite Hv.
Qed.

Lemma compact_to_iso_text_strftime (d : Codec.datetime) :
  1000 <= Codec.year d ->
  Codec.compact_to_iso_text (Codec.strftime_compact d) = Codec.strftime_iso d.
Proof.
  intros Hy. unfold Codec.compact_to_iso_text.
  destruct (slice_year d Hy) as (-> & -> & -> & -> & -> & ->). reflexivity.
Qed.

End StampFacts.

(** X8.  The name a backup directory carries is the compact stamp
    ([%Y%m%d_%H%M%S]) of the moment of the backup.  For a valid date-time
    from the year 1000 on, that name is recognised by the directory-name
    pattern, and the binlog step, which cuts it at fixed positions, reads
    the same date-time back; the text it hands to [strptime] is the ISO
    rendering.  (Earlier years are written with fewer than four digits.) *)
Theorem X8_compact_stamp_round_trip (d : Codec.datetime) :
  Codec.valid_datetime d = true ->
  (1000 <= Codec.year d)%Z ->
  PyStr.match_timestamp (Codec.strftime_compact d) = true
  /\ Codec.parse_compact (Codec.strftime_compact d) = Some d
  /\ Codec.compact_to_iso_text (Codec.strftime_compact d) = Codec.strftime_iso d.
Proof.
  intros Hv Hy. split; [now apply StampFacts.match_timestamp_strftime|].
  split; [now apply StampFacts.parse_compact_strftime|].
  now apply StampFacts.compact_to_iso_text_strftime.
Qed.

(** The leap day of 2024. *)
Lemma X8_compact_stamp_round_trip_witness :
  Codec.parse_compact (Codec.strftime_compact (Codec.mkDT 2024 2 29 23 59 59))
  = Some (Codec.mkDT 2024 2 29 23 59 59).
Proof.
  apply (proj1 (proj2 (X8_compact_stamp_round_trip (Codec.mkDT 2024 2 29 23 59 59)
                        eq_refl ltac:(vm_compute; discriminate)))).
Defined.

(** ** Stamps compare as instants *)

Module StampOrder.

Import StampFacts.
Local Open Scope Z_scope.

(** The first day of the next month. *)
Lemma month_step (y m : Z) :
  1 <= m < 12 ->
  Codec.days_from_civil y (m + 1) 1
  = Codec.days_from_civil y m 1 + Codec.days_in_month y m.
Proof.
  intros Hm.
  assert (Hc : m = 1 \/ m = 2 \/ m = 3 \/ m = 4 \/ m = 5 \/ m = 6 \/ m = 7
               \/ m = 8 \/ m = 9 \/ m = 10 \/ m = 11) by lia.
  unfold Codec.days_from_civil, Codec.days_in_month, Codec.is_leap.
  repeat (destruct Hc as [Hc | Hc]; [subst m | ]); [ .. | subst m ];
    cbn [Z.add Z.leb Z.eqb Z.compare Pos.compare Pos.compare_cont Pos.add Pos.succ
         Pos.eqb orb andb];
    try (Z.to_euclidean_division_equations; lia).
  destruct (Z.eqb_spec (y mod 4) 0), (Z.eqb_spec (y mod 100) 0),
    (Z.eqb_spec (y mod 400) 0); cbn [negb andb orb];
    Z.to_euclidean_division_equations; lia.
Qed.

Lemma year_step (y : Z) :
  Codec.days_from_civil (y + 1) 1 1 = Codec.days_from_civil y 12 1 + 31.
Proof.
  unfold Codec.days_from_civil. cbn [Z.leb Z.compare Pos.compare Pos.compare_cont].
  replace (y + 1 - 1) with y by lia.
  Z.to_euclidean_division_equations; lia.
Qed.

Lemma day_step (y m d : Z) :
  Codec.days_from_civil y m d = Codec.days_from_civil y m 1 + d - 1.
Proof. unfold Codec.days_from_civil. lia. Qed.

Lemma months_apart (y m1 : Z) (k : nat) :
  1 <= m1 -> m1 + 1 + Z.of_nat k <= 12 ->
  Codec.days_from_civil y m1 1 + Codec.days_in_month y m1
  <= Codec.days_from_civil y (m1 + 1 + Z.of_nat k) 1.
Proof.
  intros H1. induction k as [|k IH]; intros H2.
  - rewrite Z.add_0_r, month_step by lia. lia.
  - replace (m1 + 1 + Z.of_nat (S k)) with ((m1 + 1 + Z.of_nat k) + 1) by lia.
    rewrite month_step by lia.
    pose proof (days_in_month_bounds y (m1 + 1 + Z.of_nat k)). lia.
Qed.

Lemma months_ordered (y m1 m2 : Z) :
  1 <= m1 -> m1 < m2 <= 12 ->
  Codec.days_from_civil y m1 1 + Codec.days_in_month y m1
  <= Codec.days_from_civil y m2 1.
Proof.
  intros H1 H2.
  replace m2 with (m1 + 1 + Z.of_nat (Z.to_nat (m2 - m1 - 1))) by lia.
  apply months_apart; lia.
Qed.

Lemma year_span (y m : Z) :
  1 <= m <= 12 ->
  Codec.days_from_civil y 1 1 <= Codec.days_from_civil y m 1
  /\ Codec.days_from_civil y m 1 + Codec.days_in_month y m
     <= Codec.days_from_civil (y + 1) 1 1.
Proof.
  intros Hm. rewrite year_step. split.
  - destruct (Z.eq_dec m 1) as [-> | Hne]; [lia|].
    pose proof (months_ordered y 1 m ltac:(lia) ltac:(lia)).
    pose proof (days_in_month_bounds y 1). lia.
  - destruct (Z.eq_dec m 12) as [-> | Hne].
    + pose proof (days_in_month_bounds y 12). lia.
    + pose proof (months_ordered y m 12 ltac:(lia) ltac:(lia)). lia.
Qed.

Lemma years_apart (y1 : Z) (k : nat) :
  Codec.days_from_civil (y1 + 1) 1 1
  <= Codec.days_from_civil (y1 + 1 + Z.of_nat k) 1 1.
Proof.
  induction k as [|k IH].
  - rewrite Z.add_0_r. lia.
  - replace (y1 + 1 + Z.of_nat (S k)) with ((y1 + 1 + Z.of_nat k) + 1) by lia.
    pose proof (year_span (y1 + 1 + Z.of_nat k) 1 ltac:(lia)).
    pose proof (days_in_month_bounds (y1 + 1 + Z.of_nat k) 1). lia.
Qed.

Lemma years_ordered (y1 y2 : Z) :
  y1 < y2 ->
  Codec.days_from_civil (y1 + 1) 1 1 <= Codec.days_from_civil y2 1 1.
Proof.
  intros H. replace y2 with (y1 + 1 + Z.of_nat (Z.to_nat (y2 - y1 - 1))) by lia.
  apply years_apart.
Qed.

(** Day counts follow the calendar order of valid dates. *)
Lemma days_from_civil_lt (y1 m1 d1 y2 m2 d2 : Z) :
  1 <= m1 <= 12 -> 1 <= d1 <= Codec.days_in_month y1 m1 ->
  1 <= m2 <= 12 -> 1 <= d2 ->
  y1 < y2 \/ (y1 = y2 /\ (m1 < m2 \/ (m1 = m2 /\ d1 < d2))) ->
  Codec.days_from_civil y1 m1 d1 < Codec.days_from_civil y2 m2 d2.
Proof.
  intros Hm1 Hd1 Hm2 Hd2 Hlt.
  rewrite (day_step y1 m1 d1), (day_step y2 m2 d2).
  destruct Hlt as [Hy | [-> [Hm | [-> Hd]]]].
  - pose proof (year_span y1 m1 Hm1). pose proof (year_span y2 m2 Hm2).
    pose proof (years_ordered y1 y2 Hy). lia.
  - pose proof (months_ordered y2 m1 m2 ltac:(lia) ltac:(lia)). lia.
  - lia.
Qed.

Ltac split_compare a b :=
  let H := fresh "Hcmp" in
  destruct (Z.compare_spec a b) as [H | H | H].

Lemma compare_pad2 (a b : Z) (s t : string) :
  0 <= a < 100 -> 0 <= b < 100 ->
  String.compare (Codec.pad2 a ++ s) (Codec.pad2 b ++ t)
  = match a ?= b with Eq => String.compare s t | c => c end.
Proof.
  intros Ha Hb. unfold Codec.pad2. cbn [append String.compare].
  rewrite !digit_char_compare.
  split_compare ((a / 10) mod 10) ((b / 10) mod 10);
    [split_compare (a mod 10) (b mod 10)| |];
    split_compare a b; try reflexivity;
    exfalso; Z.to_euclidean_division_equations; lia.
Qed.

Lemma compare_year_text (a b : Z) (s t : string) :
  1000 <= a < 10000 -> 1000 <= b < 10000 ->
  String.compare (Codec.year_text a ++ s) (Codec.year_text b ++ t)
  = match a ?= b with Eq => String.compare s t | c => c end.
Proof.
  intros Ha Hb. rewrite !year_text_four by lia.
  unfold Codec.pad2. cbn [append String.compare].
  rewrite !digit_char_compare.
  split_compare ((a / 1000) mod 10) ((b / 1000) mod 10);
    [split_compare ((a / 100) mod 10) ((b / 100) mod 10);
     [split_compare ((a / 10) mod 10) ((b / 10) mod 10);
      [split_compare (a mod 10) (b mod 10)| |] | |] | |];
    split_compare a b; try reflexivity;
    exfalso; Z.to_euclidean_division_equations; lia.
Qed.

(** The stamps of two valid instants, from the year 1000 on, compare as the
    instants do. *)
Lemma strftime_compact_compare (a b : Codec.datetime) :
  Codec.valid_datetime a = true -> Codec.valid_datetime b = true ->
  1000 <= Codec.year a -> 1000 <= Codec.year b ->
  String.compare (Codec.strftime_compact a) (Codec.strftime_compact b)
  = (Codec.wall_seconds a ?= Codec.wall_seconds b).
Proof.
  intros Ha Hb Hya Hyb.
  pose proof (valid_datetime_bounds a Ha) as Ba.
  pose proof (valid_datetime_bounds b Hb) as Bb.
  pose proof (days_in_month_bounds (Codec.year a) (Codec.month a)).
  pose proof (days_in_month_bounds (Codec.year b) (Codec.month b)).
  unfold Codec.strftime_compact.
  change (Codec.pad2 (Codec.second a)) with (Codec.pad2 (Codec.second a) ++ "")%string.
  change (Codec.pad2 (Codec.second b)) with (Codec.pad2 (Codec.second b) ++ "")%string.
  rewrite compare_year_text by lia. rewrite !compare_pad2 by lia.
  cbn [append String.compare]. rewrite StrOrder.ascii_compare_refl.
  rewrite !compare_pad2 by lia. cbn [String.compare].
  unfold Codec.wall_seconds. symmetry.
  destruct a as [y1 m1 d1 h1 i1 s1], b as [y2 m2 d2 h2 i2 s2].
  cbn [Codec.year Codec.month Codec.day Codec.hour Codec.minute Codec.second] in *.
  assert (Hlt : forall y1 m1 d1 y2 m2 d2,
             1 <= m1 <= 12 -> 1 <= d1 <= Codec.days_in_month y1 m1 ->
             1 <= m2 <= 12 -> 1 <= d2 ->
             y1 < y2 \/ (y1 = y2 /\ (m1 < m2 \/ (m1 = m2 /\ d1 < d2))) ->
             Codec.days_from_civil y1 m1 d1 + 1 <= Codec.days_from_civil y2 m2 d2).
  { intros. pose proof (days_from_civil_lt y0 m0 d0 y3 m3 d3). lia. }
  split_compare y1 y2;
    [subst y2; split_compare m1 m2;
     [subst m2; split_compare d1 d2;
      [subst d2; split_compare h1 h2;
       [subst h2; split_compare i1 i2;
        [subst i2; split_compare s1 s2 | |] | |] | |] | |] | |].
  all: try (apply Z.compare_eq_iff; lia).
  all: try (apply Z.compare_lt_iff;
            first [ lia
                  | pose proof (Hlt y1 m1 d1 y2 m2 d2 ltac:(lia) ltac:(lia) ltac:(lia)
                                    ltac:(lia) ltac:(lia)); lia
                  | pose proof (Hlt y1 m1 d1 y1 m2 d2 ltac:(lia) ltac:(lia) ltac:(lia)
                                    ltac:(lia) ltac:(lia)); lia
                  | pose proof (Hlt y1 m1 d1 y1 m1 d2 ltac:(lia) ltac:(lia) ltac:(lia)
                                    ltac:(lia) ltac:(lia)); lia ]).
  all: apply Z.compare_gt_iff;
       first [ lia
             | pose proof (Hlt y2 m2 d2 y1 m1 d1 ltac:(lia) ltac:(lia) ltac:(lia)
                               ltac:(lia) ltac:(lia)); lia
             | pose proof (Hlt y1 m2 d2 y1 m1 d1 ltac:(lia) ltac:(lia) ltac:(lia)
                               ltac:(lia) ltac:(lia)); lia
             | pose proof (Hlt y1 m1 d2 y1 m1 d1 ltac:(lia) ltac:(lia) ltac:(lia)
                               ltac:(lia) ltac:(lia)); lia ].
Qed.

End StampOrder.

(** X9.  On the stamps of valid instants from the year 1000 on, the string
    comparisons the resolver makes are comparisons of the readings: [<=]
    and [<] on [%Y%m%d_%H%M%S] strings agree with [<=] and [<] on the
    seconds the two wall-clock readings lie after 1970-01-01 00:00:00.
    (The stamp of an earlier year has fewer digits and compares above
    them.) *)
Theorem X9_stamp_order_is_time_order (a b : Codec.datetime) :
  Codec.valid_datetime a = true -> Codec.valid_datetime b = true ->
  (1000 <= Codec.year a)%Z -> (1000 <= Codec.year b)%Z ->
  String.leb (Codec.strftime_compact a) (Codec.strftime_compact b)
  = (Codec.wall_seconds a <=? Codec.wall_seconds b)%Z
  /\ String.ltb (Codec.strftime_compact a) (Codec.strftime_compact b)
     = (Codec.wall_seconds a <? Codec.wall_seconds b)%Z.
Proof.
  intros Ha Hb Hya Hyb. unfold String.leb, String.ltb, Z.leb, Z.ltb.
  now rewrite (StampOrder.strftime_compact_compare a b Ha Hb Hya Hyb).
Qed.

(** The last second of February against the first of March, in a leap
    year. *)
Lemma X9_stamp_order_is_time_order_witness :
  String.ltb (Codec.strftime_compact (Codec.mkDT 2024 2 29 23 59 59))
             (Codec.strftime_compact (Codec.mkDT 2024 3 1 0 0 0))
  = (Codec.wall_seconds (Codec.mkDT 2024 2 29 23 59 59)
     <? Codec.wall_seconds (Codec.mkDT 2024 3 1 0 0 0))%Z.
Proof.
  exact (proj2 (X9_stamp_order_is_time_order (Codec.mkDT 2024 2 29 23 59 59)
                  (Codec.mkDT 2024 3 1 0 0 0) eq_refl eq_refl
                  ltac:(vm_compute; discriminate) ltac:(vm_compute; discriminate))).
Defined.

(** ** The start of the binlog window *)

Lemma ltb_false_leb (a b : string) : String.ltb a b = false -> String.leb b a = true.
Proof.
  intros H. destruct (String.leb b a) eqn:E; [reflexivity|].
  apply StrOrder.leb_false_ltb in E. congruence.
Qed.

(** X10.  The binlog window starts at the newest backup that was applied:
    [latest_backup_timestamp] is the full backup's stamp or the stamp of an
    applied incremental, and no stamp among them is later. *)
Theorem X10_window_starts_at_newest_applied_backup
    (full : string) (applied : list string) :
  PyStr.nonempty full = true ->
  let stamps := filter PyStr.match_timestamp
                       (map (fun inc_path => FS.name (FS.of_string inc_path)) applied) in
  let latest := latest_backup_timestamp_of (Some full) (Some applied) in
  In latest (full :: stamps)
  /\ Forall (fun ts => String.leb ts latest = true) (full :: stamps).
Proof.
  intros Hfull stamps latest. subst latest.
  unfold latest_backup_timestamp_of, newest_applied_incremental. fold stamps.
  replace (given (Some full)) with (Some full) by (unfold given; now rewrite Hfull).
  destruct (sort_desc stamps) as [|b rest] eqn:Hs.
  - assert (stamps = []) as ->.
    { destruct stamps as [|x l]; [reflexivity|]. exfalso. revert Hs.
      unfold sort_desc. now apply sort_by_nonempty. }
    cbn [given]. split; [now left|]. constructor; [apply StrOrder.leb_refl | constructor].
  - unfold sort_desc in Hs. apply sort_by_head in Hs;
      [|intros x y; destruct (String.leb_total x y); auto
       |intros x y z H1 H2; now apply (StrOrder.leb_trans z y x)].
    destruct Hs as [Hin Hmax].
    assert (Hb : PyStr.nonempty b = true).
    { apply filter_In in Hin. destruct Hin as [_ Hm].
      pose proof (match_timestamp_nonempty b Hm) as Hnz.
      destruct b; [now contradiction Hnz | reflexivity]. }
    replace (given (Some b)) with (Some b) by (unfold given; now rewrite Hb).
    destruct (String.ltb full b) eqn:Hlt.
    + split; [now right|]. constructor; [now apply StrOrder.ltb_leb|].
      apply Forall_forall. intros x Hx. now apply Hmax.
    + split; [now left|]. constructor; [apply StrOrder.leb_refl|].
      apply Forall_forall. intros x Hx.
      apply (StrOrder.leb_trans x b full); [now apply Hmax | now apply ltb_false_leb].
Qed.

(** A full backup of the 1st with incrementals of the 3rd and the 2nd
    applied: the window starts on the 3rd. *)
Lemma X10_window_starts_at_newest_applied_backup_witness :
  String.leb "20250103_000000"
    (latest_backup_timestamp_of (Some "20250101_000000")
       (Some ["/backups/incremental/20250103_000000";
              "/backups/incremental/20250102_000000"])) = true.
Proof.
  pose proof (X10_window_starts_at_newest_applied_backup "20250101_000000"
                ["/backups/incremental/20250103_000000";
                 "/backups/incremental/20250102_000000"] eq_refl) as [_ H].
  apply (proj1 (Forall_forall _ _) H). vm_compute. auto.
Defined.

(** ** The binlog files *)

(** X12.  Every binlog file [apply_binlog_to_datetime] works on exists; it
    is the path an index line names, that line below the binlog directory,
    or the line's file name below the binlog directory. *)
Theorem X12_binlog_files_exist
    (fs : FS.t) (binlog_index binlog_dir : FS.Path) (files : list FS.Path) :
  read_binlog_files fs binlog_index binlog_dir = Some files ->
  exists content,
    FS.read_text fs binlog_index = Some content
    /\ Forall (fun p =>
                 FS.exists_ fs p = true
                 /\ exists raw, In raw (PyStr.file_lines content)
                      /\ PyStr.strip raw <> ""
                      /\ (p = FS.of_string (PyStr.strip raw)
                          \/ p = FS.join binlog_dir (PyStr.strip raw)
                          \/ p = FS.join binlog_dir
                                   (FS.name (FS.of_string (PyStr.strip raw)))))
              files.
Proof.
  unfold read_binlog_files.
  destruct (FS.read_text fs binlog_index) as [content|]; [|discriminate].
  intros [= <-]. exists content. split; [reflexivity|].
  apply Forall_forall. intros p Hp. apply in_flat_map in Hp.
  destruct Hp as (raw & Hraw & Hp).
  destruct (PyStr.nonempty (PyStr.strip raw)) eqn:Hne; [|contradiction].
  assert (Hnz : PyStr.strip raw <> "") by (intros E; rewrite E in Hne; discriminate).
  destruct (FS.exists_ fs (if PyStr.startswith "/" (PyStr.strip raw)
                           then FS.of_string (PyStr.strip raw)
                           else FS.join binlog_dir (PyStr.strip raw))) eqn:E1.
  - destruct Hp as [<- | []]. split; [exact E1|]. exists raw.
    split; [exact Hraw|]. split; [exact Hnz|].
    destruct (PyStr.startswith "/" (PyStr.strip raw)); auto.
  - destruct (FS.exists_ fs (FS.join binlog_dir (FS.name (FS.of_string (PyStr.strip raw)))))
      eqn:E2; [|contradiction].
    destruct Hp as [<- | []]. split; [exact E2|]. exists raw. auto.
Qed.

(** The live data directory of the sample worlds: one index line, one
    file. *)
Lemma X12_binlog_files_exist_witness :
  exists content,
    FS.read_text Worlds.fs_one_full (FS.of_string "/var/lib/mysql/mysql-bin.index")
    = Some content.
Proof.
  destruct (X12_binlog_files_exist Worlds.fs_one_full
              (FS.of_string "/var/lib/mysql/mysql-bin.index")
              (FS.of_string "/var/lib/mysql")
              [FS.of_string "/var/lib/mysql/mysql-bin.000001"])
    as (content & Hread & _).
  - vm_compute. reflexivity.
  - now exists content.
Defined.

(** ** When the binlog step runs *)

Lemma bind_first_event {A B} (c : M A) (k : A -> M B) (P : Event -> Prop) (ev : Event) :
  (forall s, exists a, c s = (Ok a, mkState (st_fs s) (st_trace s ++ [ev]))) ->
  (forall a, emits P (k a)) ->
  forall s, exists evs, st_trace (snd (bind c k s)) = st_trace s ++ ev :: evs.
Proof.
  intros Hc Hk s. destruct (Hc s) as [a Ha]. unfold bind. rewrite Ha.
  destruct (Hk a (mkState (st_fs s) (st_trace s ++ [ev]))) as (evs & Ht & _).
  exists evs. rewrite Ht. cbn [st_trace]. now rewrite <- app_assoc.
Qed.

Lemma extract_window_first_event
    (cfg : Config) (env : Env) (start local : option string) (stop : string)
    (files : list FS.Path) (s : State) :
  exists evs,
    st_trace (snd (extract_window cfg env start local stop files s))
    = st_trace s ++ Mysqlbinlog (binlog_cmd_args start stop files) :: evs.
Proof.
  unfold extract_window.
  apply (bind_first_event _ _ (extraction_stops_at stop)).
  - intros s0. now eexists.
  - intros [returncode stdout].
    apply emits_bind; [apply emits_update_fs|]. intros _.
    destruct (negb _); [|apply emits_publish_replay_file].
    apply emits_bind; [apply emits_extract_each|]. intros [|k].
    + apply emits_unlink_if_exists.
    + apply emits_publish_replay_file.
Qed.

Lemma parse_compact_nonempty (ts : string) (d : Codec.datetime) :
  Codec.parse_compact ts = Some d -> PyStr.nonempty ts = true.
Proof. destruct ts; [discriminate | reflexivity]. Qed.

(** X11.  With binlog files at hand, the extraction tool installed, a last
    applied backup whose stamp parses, a stop bound from the year 1000 on,
    and a local zone that has one UTC offset at the backup reading and at
    the stop reading (no change of offset between them), the binlog step is
    skipped -- nothing is run, nothing is written -- when the target instant
    is strictly before the backup instant, and otherwise begins by running
    the batched extraction from the backup instant to one second after the
    target. *)
Theorem X11_binlog_step_skipped_iff_target_before_backup
    (cfg : Config) (env : Env) (target : Codec.datetime)
    (full_backup_timestamp : option string)
    (applied_incremental_backups : option (list string)) (s : State)
    (binlog_index binlog_dir f : FS.Path) (files : list FS.Path)
    (backup_dt stop_dt : Codec.datetime) (off : Z) :
  let latest := latest_backup_timestamp_of full_backup_timestamp
                                           applied_incremental_backups in
  let target_epoch := Codec.timestamp_at Codec.SHANGHAI target in
  let run := apply_binlog_to_datetime cfg env target full_backup_timestamp
               applied_incremental_backups s in
  locate_binlog_index cfg (st_fs s) = Some (binlog_index, binlog_dir) ->
  read_binlog_files (st_fs s) binlog_index binlog_dir = Some (f :: files) ->
  mysqlbinlog_installed env = true ->
  Codec.parse_compact latest = Some backup_dt ->
  target_epoch <> 0%Z ->
  Codec.utcfromtimestamp (target_epoch + 1) = Some stop_dt ->
  (1000 <= Codec.year stop_dt)%Z ->
  local_timestamp env backup_dt = (Codec.wall_seconds backup_dt - off)%Z ->
  local_timestamp env stop_dt = (Codec.wall_seconds stop_dt - off)%Z ->
  ((target_epoch < Codec.timestamp_at 0 backup_dt)%Z -> run = (Ok tt, s))
  /\ ((Codec.timestamp_at 0 backup_dt <= target_epoch)%Z ->
      exists evs,
        st_trace (snd run)
        = st_trace s
          ++ Mysqlbinlog (binlog_cmd_args (Some (Codec.compact_to_iso_text latest))
                            (Codec.strftime_iso stop_dt) (f :: files)) :: evs).
Proof.
  intros latest target_epoch run Hidx Hfiles Hinst Hparse Hnz Hstop Hyear Hzb Hzs.
  assert (Hrun : run
                 = if (target_epoch <? Codec.timestamp_at 0 backup_dt)%Z
                   then (Ok tt, s)
                   else extract_window cfg env (Some (Codec.compact_to_iso_text latest))
                          (latest_backup_datetime_local_of latest)
                          (Codec.strftime_iso stop_dt) (f :: files) s).
  { subst run. unfold apply_binlog_to_datetime. rewrite bind_get_fs, Hidx, Hfiles, Hinst.
    cbn [negb]. fold latest. fold target_epoch.
    rewrite (parse_compact_nonempty latest backup_dt Hparse).
    assert (Hs : stop_datetime_utc_of target_epoch s
                 = (Ok (Some (Codec.strftime_iso stop_dt)), s)).
    { unfold stop_datetime_utc_of.
      destruct (Z.eqb_spec target_epoch 0) as [E | _]; [contradiction|].
      now rewrite Hstop. }
    rewrite (bind_ok _ _ _ _ _ Hs).
    rewrite (bind_ok _ _ _ _ _
               (window_is_void_strictly_before env latest
                  (Codec.compact_to_iso_text latest) (Codec.strftime_iso stop_dt)
                  target_epoch off backup_dt stop_dt s Hparse Hstop Hyear Hzb Hzs)).
    now destruct (target_epoch <? Codec.timestamp_at 0 backup_dt)%Z. }
  rewrite Hrun. split; intros H.
  - apply Z.ltb_lt in H. now rewrite H.
  - apply Z.ltb_ge in H. rewrite H. apply extract_window_first_event.
Qed.

(** A full backup taken at 2025-01-01 00:00:00 UTC and the target
    2025-01-01 07:59:59 in UTC+8, one second before it. *)
Lemma X11_binlog_step_skipped_iff_target_before_backup_witness :
  apply_binlog_to_datetime Worlds.cfg_local Worlds.env_ok (Codec.mkDT 2025 1 1 7 59 59)
    (Some "20250101_000000") None (mkState Worlds.fs_one_full [])
  = (Ok tt, mkState Worlds.fs_one_full []).
Proof.
  refine (proj1 (X11_binlog_step_skipped_iff_target_before_backup
                   Worlds.cfg_local Worlds.env_ok (Codec.mkDT 2025 1 1 7 59 59)
                   (Some "20250101_000000") None (mkState Worlds.fs_one_full [])
                   (FS.of_string "/var/lib/mysql/mysql-bin.index")
                   (FS.of_string "/var/lib/mysql")
                   (FS.of_string "/var/lib/mysql/mysql-bin.000001") []
                   (Codec.mkDT 2025 1 1 0 0 0) (Codec.mkDT 2025 1 1 0 0 0) 28800%Z
                   _ _ _ _ _ _ _ _ _) _);
    try (vm_compute; reflexivity); vm_compute; discriminate.
Defined.

(** ** The replay file and its marker *)

Section ReplayMarker.

Variable cfg : Config.
Variable env : Env.

Lemma temp_sql_not_marker : temp_sql cfg env <> pitr_marker cfg.
Proof.
  unfold temp_sql, pitr_marker, FS.join. intros H. apply app_inv_head in H.
  revert H. unfold FS.of_string. cbn [append].
  match goal with
  | |- context [PyStr.split_on ?sep (String ?c ?r)] =>
      destruct (FSFacts.split_on_cons sep r) as (h & t & Hs);
      change (PyStr.split_on sep (String c r))
        with (match PyStr.split_on sep r with
              | h :: t => String c h :: t
              | [] => [String c EmptyString]
              end);
      rewrite Hs
  end.
  cbn [filter PyStr.nonempty andb]. 
  replace (String.eqb (String "p" h) ".") with false
    by (symmetry; apply String.eqb_neq; discriminate).
  cbn [negb].
  discriminate.
Qed.

Lemma publish_replay_file_spec (m : option FS.Node) :
  triple (fun s => FS.lookup (st_fs s) (pitr_marker cfg) = m
                   /\ exists c, FS.lookup (st_fs s) (temp_sql cfg env) = Some (FS.File c))
         (publish_replay_file cfg env)
         (fun _ s =>
            FS.lookup (st_fs s) (pitr_marker cfg) = m
            \/ (FS.read_text (st_fs s) (pitr_marker cfg) = Some (FS.str (temp_sql cfg env))
                /\ exists c, FS.read_text (st_fs s) (temp_sql cfg env) = Some c
                             /\ c <> "")).
Proof.
  intros s [Hm [c Hc]]. unfold publish_replay_file. rewrite bind_get_fs.
  assert (He : FS.exists_ (st_fs s) (temp_sql cfg env) = true)
    by (unfold FS.exists_; now rewrite Hc).
  unfold FS.is_empty_file. rewrite He, Hc. cbn [negb orb].
  destruct c as [|a c].
  - left. unfold unlink_if_exists, update_fs. cbn [snd st_fs].
    rewrite He.
    now rewrite FSFacts.lookup_unlink_other by apply temp_sql_not_marker.
  - right. unfold bind, update_fs. cbn [snd st_fs]. unfold FS.read_text, FS.write_text.
    rewrite FSFacts.lookup_put_same.
    rewrite FSFacts.lookup_put_other
      by (intros E; now apply temp_sql_not_marker).
    rewrite (FSFacts.lookup_mkdir_p _ _ _ _ Hc).
    split; [reflexivity|]. now exists (String a c).
Qed.

Lemma extract_each_cons
    (start local : option string) (stop : string) (file : FS.Path)
    (files : list FS.Path) (n : nat) (s : State) :
  extract_each cfg env start local stop (file :: files) n s
  = let r := mysqlbinlog env (single_cmd start local stop file) (st_fs s) in
    let trace := st_trace s ++ [Mysqlbinlog (single_cmd start local stop file)] in
    if (fst r =? 0)%Z && PyStr.nonempty (PyStr.strip (snd r))
    then extract_each cfg env start local stop files (S n)
           (mkState (FS.append_text (st_fs s) (temp_sql cfg env) (snd r)) trace)
    else extract_each cfg env start local stop files n (mkState (st_fs s) trace).
Proof.
  cbn [extract_each]. unfold bind at 1, run_mysqlbinlog. cbv zeta.
  destruct (mysqlbinlog env _ (st_fs s)) as [returncode content]. cbn [fst snd].
  now destruct ((returncode =? 0)%Z && PyStr.nonempty (PyStr.strip content)).
Qed.

Lemma extract_each_spec (m : option FS.Node)
    (start local : option string) (stop : string) (files : list FS.Path) (n : nat) :
  triple (fun s => FS.lookup (st_fs s) (pitr_marker cfg) = m
                   /\ exists c, FS.lookup (st_fs s) (temp_sql cfg env) = Some (FS.File c))
         (extract_each cfg env start local stop files n)
         (fun o s =>
            (exists k, o = Ok k)
            /\ FS.lookup (st_fs s) (pitr_marker cfg) = m
            /\ exists c, FS.lookup (st_fs s) (temp_sql cfg env) = Some (FS.File c)).
Proof.
  revert n. induction files as [|file files IH]; intros n s [Hm [c Hc]].
  - simpl. split; [now exists n|]. split; [exact Hm | now exists c].
  - rewrite extract_each_cons. cbv zeta.
    destruct ((fst _ =? 0)%Z && _).
    + apply (IH (S n)). cbn [st_fs].
      unfold FS.append_text, FS.read_text. rewrite Hc. unfold FS.write_text. split.
      * now rewrite FSFacts.lookup_put_other by apply temp_sql_not_marker.
      * eexists. apply FSFacts.lookup_put_same.
    + apply (IH n). cbn [st_fs]. split; [exact Hm | now exists c].
Qed.

Lemma extract_window_eq
    (start local : option string) (stop : string) (files : list FS.Path) (s : State) :
  extract_window cfg env start local stop files s
  = let r := mysqlbinlog env (binlog_cmd_args start stop files) (st_fs s) in
    let s1 := mkState (FS.write_text (st_fs s) (temp_sql cfg env) (snd r))
                      (st_trace s ++ [Mysqlbinlog (binlog_cmd_args start stop files)]) in
    if negb (fst r =? 0)%Z then
      match extract_each cfg env start local stop files 0 s1 with
      | (Ok O, s2) => unlink_if_exists (temp_sql cfg env) s2
      | (Ok (S _), s2) => publish_replay_file cfg env s2
      | (Exit1 w, s2) => (Exit1 w, s2)
      | (Raised, s2) => (Raised, s2)
      end
    else publish_replay_file cfg env s1.
Proof.
  unfold extract_window. unfold bind at 1, run_mysqlbinlog. cbv zeta.
  destruct (mysqlbinlog env _ (st_fs s)) as [returncode stdout]. cbn [fst snd].
  unfold bind at 1, update_fs at 1. cbn [st_fs st_trace].
  destruct (negb (returncode =? 0)%Z); [|reflexivity].
  unfold bind.
  now destruct (extract_each cfg env start local stop files 0 _) as [[[|k] | w |] s2].
Qed.

Lemma extract_window_spec (m : option FS.Node)
    (start local : option string) (stop : string) (files : list FS.Path) :
  triple (fun s => FS.lookup (st_fs s) (pitr_marker cfg) = m)
         (extract_window cfg env start local stop files)
         (fun _ s =>
            FS.lookup (st_fs s) (pitr_marker cfg) = m
            \/ (FS.read_text (st_fs s) (pitr_marker cfg) = Some (FS.str (temp_sql cfg env))
                /\ exists c, FS.read_text (st_fs s) (temp_sql cfg env) = Some c
                             /\ c <> "")).
Proof.
  intros s Hm. rewrite extract_window_eq. cbv zeta.
  set (r := mysqlbinlog env (binlog_cmd_args start stop files) (st_fs s)).
  set (s1 := mkState _ _).
  assert (H1 : FS.lookup (st_fs s1) (pitr_marker cfg) = m
               /\ exists c, FS.lookup (st_fs s1) (temp_sql cfg env) = Some (FS.File c)).
  { subst s1. cbn [st_fs]. unfold FS.write_text. split.
    - now rewrite FSFacts.lookup_put_other by apply temp_sql_not_marker.
    - eexists. apply FSFacts.lookup_put_same. }
  destruct (negb (fst r =? 0)%Z); [|now apply publish_replay_file_spec].
  pose proof (extract_each_spec m start local stop files 0 s1 H1) as He.
  destruct (extract_each cfg env start local stop files 0 s1) as [[k | w |] s2];
    cbn [fst snd] in He; destruct He as ([k' Hk] & Hm2 & Hc2); try discriminate.
  destruct k as [|k].
  - left. unfold unlink_if_exists, update_fs. cbn [snd st_fs].
    destruct (FS.exists_ (st_fs s2) (temp_sql cfg env)); [|exact Hm2].
    now rewrite FSFacts.lookup_unlink_other by apply temp_sql_not_marker.
  - now apply publish_replay_file_spec.
Qed.

End ReplayMarker.

(** The binlog step returns at once, or is the extraction. *)
Lemma apply_binlog_cases
    (cfg : Config) (env : Env) (target : Codec.datetime)
    (full_backup_timestamp : option string)
    (applied_incremental_backups : option (list string)) (s : State) :
  (exists o, apply_binlog_to_datetime cfg env target full_backup_timestamp
               applied_incremental_backups s = (o, s))
  \/ (exists start local stop files,
        apply_binlog_to_datetime cfg env target full_backup_timestamp
          applied_incremental_backups s
        = extract_window cfg env start local stop files s).
Proof.
  remember (apply_binlog_to_datetime cfg env target full_backup_timestamp
              applied_incremental_backups s) as r eqn:Hr.
  revert Hr. unfold apply_binlog_to_datetime. rewrite bind_get_fs.
  destruct (locate_binlog_index cfg (st_fs s)) as [[binlog_index binlog_dir]|];
    [|intros ->; left; now eexists].
  destruct (read_binlog_files (st_fs s) binlog_index binlog_dir) as [[|f files]|];
    try (intros ->; left; now eexists).
  destruct (negb (mysqlbinlog_installed env)); [intros ->; left; now eexists|].
  unfold bind at 1.
  assert (Hstop : forall epoch,
             stop_datetime_utc_of epoch s = (Raised, s)
             \/ exists o, stop_datetime_utc_of epoch s = (Ok o, s)).
  { intros epoch. unfold stop_datetime_utc_of. destruct (epoch =? 0)%Z; [right; now eexists|].
    destruct (Codec.utcfromtimestamp _); [right; now eexists | now left]. }
  destruct (Hstop (Codec.timestamp_at Codec.SHANGHAI target)) as [-> | [stop ->]];
    [intros ->; left; now eexists|].
  unfold bind at 1.
  assert (Hvoid : forall latest epoch start,
             window_is_void env latest epoch start stop s = (Raised, s)
             \/ exists b, window_is_void env latest epoch start stop s = (Ok b, s)).
  { intros latest epoch start. unfold window_is_void.
    destruct start, stop; try (right; now eexists).
    destruct (Codec.parse_compact latest); [|now left].
    destruct (match Codec.utcfromtimestamp _ with Some _ => _ | None => _ end);
      [|now left].
    destruct (_ <=? _)%Z; right; now eexists. }
  match goal with
  | |- context [window_is_void env ?l ?e ?st stop s] =>
      destruct (Hvoid l e st) as [-> | [void ->]]; [intros ->; left; now eexists|]
  end.
  destruct void; [intros ->; left; now eexists|].
  destruct stop as [stop|]; [|intros ->; left; now eexists].
  intros ->. right. do 4 eexists. reflexivity.
Qed.

(** X13.  The binlog step leaves the pending-apply marker as it found it,
    or writes into it the path of the replay file of this run, and then
    that replay file exists and is not empty. *)
Theorem X13_marker_names_a_nonempty_replay_file
    (cfg : Config) (env : Env) (target : Codec.datetime)
    (full_backup_timestamp : option string)
    (applied_incremental_backups : option (list string)) (s : State) :
  let s' := snd (apply_binlog_to_datetime cfg env target full_backup_timestamp
                   applied_incremental_backups s) in
  FS.lookup (st_fs s') (pitr_marker cfg) = FS.lookup (st_fs s) (pitr_marker cfg)
  \/ (FS.read_text (st_fs s') (pitr_marker cfg) = Some (FS.str (temp_sql cfg env))
      /\ exists c, FS.read_text (st_fs s') (temp_sql cfg env) = Some c /\ c <> "").
Proof.
  cbv zeta.
  destruct (apply_binlog_cases cfg env target full_backup_timestamp
              applied_incremental_backups s)
    as [[o ->] | (start & local & stop & files & ->)]; [now left|].
  now apply extract_window_spec.
Qed.

(** ** Paths written as text and read back *)

Module PathText.

Lemma append_assoc (a b c : string) : ((a ++ b) ++ c = a ++ (b ++ c))%string.
Proof. induction a as [|x a IH]; simpl; [reflexivity | now rewrite IH]. Qed.

Lemma split_on_free (sep : ascii -> bool) (s : string) :
  Forall (fun c => free_of sep c = true) (PyStr.split_on sep s).
Proof.
  induction s as [|a s IH]; simpl; [now repeat constructor|].
  destruct (sep a) eqn:Ha; [now constructor|].
  destruct (PyStr.split_on sep s) as [|h t]; [repeat constructor; simpl; now rewrite Ha|].
  inversion IH as [|? ? Hh Ht]; subst. constructor; [|exact Ht].
  simpl. now rewrite Ha, Hh.
Qed.

Lemma of_string_components (x : string) :
  Forall (fun c => component c = true) (FS.of_string x).
Proof.
  unfold FS.of_string. apply Forall_forall. intros c Hc.
  apply filter_In in Hc. destruct Hc as [Hin Hkeep].
  unfold component. rewrite Hkeep. simpl.
  exact (proj1 (Forall_forall _ _) (split_on_free _ x) c Hin).
Qed.

Lemma split_on_whole (sep : ascii -> bool) (a : string) :
  free_of sep a = true -> PyStr.split_on sep a = [a].
Proof.
  induction a as [|c a IH]; simpl; [reflexivity|].
  intros H. apply andb_true_iff in H. destruct H as [Hc Ha].
  apply negb_true_iff in Hc. now rewrite Hc, (IH Ha).
Qed.

Lemma split_on_app (sep : ascii -> bool) (a r : string) (c : ascii) :
  free_of sep a = true -> sep c = true ->
  PyStr.split_on sep (a ++ String c r)%string = a :: PyStr.split_on sep r.
Proof.
  intros Ha Hc. induction a as [|x a IH]; simpl.
  - now rewrite Hc.
  - simpl in Ha. apply andb_true_iff in Ha. destruct Ha as [Hx Ha].
    apply negb_true_iff in Hx. now rewrite Hx, (IH Ha).
Qed.

Lemma split_on_concat (p : list string) :
  Forall (fun c => component c = true) p -> p <> [] ->
  PyStr.split_on (Ascii.eqb "/") (String.concat "/" p) = p.
Proof.
  induction p as [|a p IH]; intros Hall Hne; [contradiction|].
  inversion Hall as [|? ? Ha Hp]; subst.
  unfold component in Ha. apply andb_true_iff in Ha. destruct Ha as [_ Hfree].
  destruct p as [|b p].
  - simpl. now apply split_on_whole.
  - change (String.concat "/" (a :: b :: p))
      with (a ++ String "/" (String.concat "/" (b :: p)))%string.
    rewrite (split_on_app _ a _ "/" Hfree eq_refl). f_equal.
    apply IH; [exact Hp | discriminate].
Qed.

(** [Path(str(p))] is [p]. *)
Lemma of_string_str (p : FS.Path) :
  Forall (fun c => component c = true) p -> FS.of_string (FS.str p) = p.
Proof.
  intros Hall. unfold FS.of_string, FS.str.
  change ("/" ++ String.concat "/" p)%string with (String "/" (String.concat "/" p)).
  cbn [PyStr.split_on]. change (Ascii.eqb "/" "/") with true. cbv iota.
  cbn [filter PyStr.nonempty andb].
  destruct p as [|a p]; [reflexivity|].
  rewrite split_on_concat by (exact Hall || discriminate).
  apply forallb_filter_id. apply forallb_forall. intros c Hc.
  pose proof (proj1 (Forall_forall _ _) Hall c Hc) as H. unfold component in H.
  apply andb_true_iff in H. now destruct H.
Qed.

Lemma split_on_last (sep : ascii -> bool) (s : string) (c : ascii) :
  sep c = false ->
  exists l h, PyStr.split_on sep (s ++ String c "")%string = l ++ [(h ++ String c "")%string].
Proof.
  intros Hc. induction s as [|a s (l & h & IH)].
  - exists [], "". simpl. now rewrite Hc.
  - simpl. destruct (sep a).
    + exists ("" :: l), h. now rewrite IH.
    + rewrite IH. destruct l as [|x l]; simpl.
      * now exists [], (String a h).
      * now exists (String a x :: l), h.
Qed.

Lemma concat_last (q : list string) (x : string) (c : ascii) :
  exists r, String.concat "/" (q ++ [(x ++ String c "")%string]) = (r ++ String c "")%string.
Proof.
  induction q as [|a q (r & IH)]; [now exists x|].
  destruct q as [|b q].
  - exists (a ++ String "/" x)%string.
    change (String.concat "/" ([a] ++ [(x ++ String c "")%string]))
      with (a ++ String "/" (x ++ String c ""))%string.
    now rewrite append_assoc.
  - exists (a ++ String "/" r)%string.
    change (String.concat "/" ((a :: b :: q) ++ [(x ++ String c "")%string]))
      with (a ++ String "/" (String.concat "/" ((b :: q) ++ [(x ++ String c "")%string])))%string.
    rewrite IH. now rewrite append_assoc.
Qed.

Lemma rstrip_last (r : string) (c : ascii) :
  PyStr.is_space c = false ->
  PyStr.rstrip (r ++ String c "") = (r ++ String c "")%string.
Proof.
  intros Hc. induction r as [|a r IH]; simpl.
  - now rewrite Hc.
  - rewrite IH. now destruct r.
Qed.

End PathText.

Section Handoff.

Variable cfg : Config.
Variable env : Env.

Hypothesis backups_dir : BACKUP_BASE_DIR cfg = FS.of_string "/backups".

Lemma marker_paths_agree : pitr_marker cfg = DeferredApply.PITR_MARKER.
Proof. unfold pitr_marker. now rewrite backups_dir. Qed.

Lemma temp_sql_shape :
  exists q h, temp_sql cfg env = q ++ [(h ++ "l")%string].
Proof.
  unfold temp_sql, FS.join, FS.of_string.
  replace ("pitr_replay_" ++ now_replay env ++ "_" ++ rand_replay env ++ ".sql")%string
    with (("pitr_replay_" ++ now_replay env ++ "_" ++ rand_replay env ++ ".sq")
          ++ String "l" "")%string
    by (now rewrite !PathText.append_assoc).
  destruct (PathText.split_on_last (Ascii.eqb "/")
              ("pitr_replay_" ++ now_replay env ++ "_" ++ rand_replay env ++ ".sq")
              "l" eq_refl) as (l & h & ->).
  rewrite filter_app. cbn [filter].
  replace (PyStr.nonempty (h ++ "l") && negb (String.eqb (h ++ "l") ".")) with true.
  - eexists. eexists. now rewrite app_assoc.
  - symmetry. destruct h as [|a [|b h]]; try reflexivity.
    + cbn [append PyStr.nonempty andb String.eqb].
      destruct (Ascii.eqb a "."); reflexivity.
    + cbn [append PyStr.nonempty andb String.eqb].
      destruct (Ascii.eqb a "."); reflexivity.
Qed.

Lemma temp_sql_components :
  Forall (fun c => component c = true) (temp_sql cfg env).
Proof.
  unfold temp_sql, FS.join. rewrite backups_dir. apply Forall_app. split.
  - now repeat constructor.
  - apply PathText.of_string_components.
Qed.

(** The text the restore writes into the marker is read back by
    [apply_pitr_binlog.py] as the path of the replay file. *)
Lemma temp_sql_text :
  FS.of_string (PyStr.strip (FS.str (temp_sql cfg env))) = temp_sql cfg env
  /\ PyStr.nonempty (PyStr.strip (FS.str (temp_sql cfg env))) = true.
Proof.
  assert (Hstrip : PyStr.strip (FS.str (temp_sql cfg env)) = FS.str (temp_sql cfg env)).
  { destruct temp_sql_shape as (q & h & ->). unfold FS.str, PyStr.strip.
    destruct (PathText.concat_last q h "l") as [r ->].
    change ("/" ++ (r ++ "l"))%string with (String "/" r ++ "l")%string.
    now rewrite (PathText.rstrip_last (String "/" r) "l" eq_refl). }
  rewrite Hstrip. split.
  - apply PathText.of_string_str, temp_sql_components.
  - reflexivity.
Qed.

End Handoff.

(** X14.  The two scripts agree on the hand-over.  With the backup directory
    at its default, [/backups], a marker that holds the path of this run's
    replay file makes [apply_pitr_binlog.py], once the server answers, feed
    exactly that file's content to [mysql]: the run returns 0 and removes the marker when the
    client exits with status 0 or reports no critical line, and returns 1
    leaving everything in place otherwise. *)
Theorem X14_marker_hands_replay_file_to_deferred_apply
    (cfg : Config) (env : Env) (denv : DeferredApply.Env) (fs : FS.t) (sql : string) :
  BACKUP_BASE_DIR cfg = FS.of_string "/backups" ->
  FS.read_text fs (pitr_marker cfg) = Some (FS.str (temp_sql cfg env)) ->
  FS.read_text fs (temp_sql cfg env) = Some sql ->
  DeferredApply.wait_for_mysql denv = true ->
  DeferredApply.main denv fs
  = match DeferredApply.mysql_force denv sql with
    | DeferredApply.Exited returncode stdout stderr =>
        if (returncode =? 0)%Z
           || (List.length (DeferredApply.critical_errors (stdout ++ stderr)) =? 0)%nat
        then (0%Z, DeferredApply.remove_marker fs)
        else (1%Z, fs)
    | _ => (1%Z, fs)
    end.
Proof.
  intros Hdir Hmarker Hsql Hwait.
  rewrite (marker_paths_agree cfg Hdir) in Hmarker.
  destruct (temp_sql_text cfg env Hdir) as [Hpath Hne].
  unfold DeferredApply.main.
  rewrite (read_text_exists _ _ _ Hmarker), Hmarker, Hne, Hpath.
  rewrite (read_text_exists _ _ _ Hsql), Hwait. cbn [negb orb].
  unfold DeferredApply.apply_sql_file. rewrite Hsql.
  destruct (DeferredApply.mysql_force denv sql) as [returncode stdout stderr | |];
    try reflexivity.
  cbn [negb]. destruct (returncode =? 0)%Z; [reflexivity|]. cbn [orb].
  now destruct (List.length _ =? 0)%nat.
Qed.

(** The marker and the replay file a restore leaves behind, and a replay
    that only reports a duplicate key. *)
Lemma X14_marker_hands_replay_file_to_deferred_apply_witness :
  DeferredApply.main Worlds.env_apply_duplicates Worlds.fs_pending
  = (0%Z, DeferredApply.remove_marker Worlds.fs_pending).
Proof.
  rewrite (X14_marker_hands_replay_file_to_deferred_apply
             Worlds.cfg_local Worlds.env_ok Worlds.env_apply_duplicates
             Worlds.fs_pending "BINLOG 'aGVsbG8=';" eq_refl eq_refl eq_refl eq_refl).
  reflexivity.
Defined.

(** ** Deferred apply and the disk *)

Lemma lookup_remove_marker (fs : FS.t) (p : FS.Path) :
  p <> DeferredApply.PITR_MARKER ->
  FS.lookup (DeferredApply.remove_marker fs) p = FS.lookup fs p.
Proof.
  intros Hp. unfold DeferredApply.remove_marker.
  destruct (FS.exists_ fs DeferredApply.PITR_MARKER); [|reflexivity].
  apply FSFacts.lookup_unlink_other. congruence.
Qed.

(** The file system [main] leaves is the one it found, with or without the
    marker. *)
Lemma main_fs_cases (env : DeferredApply.Env) (fs : FS.t) :
  snd (DeferredApply.main env fs) = fs
  \/ (fst (DeferredApply.main env fs) = 0%Z
      /\ snd (DeferredApply.main env fs) = DeferredApply.remove_marker fs)
  \/ (fst (DeferredApply.main env fs) = 1%Z
      /\ snd (DeferredApply.main env fs) = DeferredApply.remove_marker fs
      /\ exists raw, FS.read_text fs DeferredApply.PITR_MARKER = Some raw
                     /\ (PyStr.nonempty (PyStr.strip raw) = false
                         \/ FS.exists_ fs (FS.of_string (PyStr.strip raw)) = false)).
Proof.
  unfold DeferredApply.main.
  destruct (FS.exists_ fs DeferredApply.PITR_MARKER); [|now left].
  cbn [negb].
  destruct (FS.read_text fs DeferredApply.PITR_MARKER) as [raw|]; [|now left].
  destruct (PyStr.nonempty (PyStr.strip raw)) eqn:Hne; cbn [negb orb].
  - destruct (FS.exists_ fs (FS.of_string (PyStr.strip raw))) eqn:Hex; cbn [negb].
    + destruct (DeferredApply.wait_for_mysql env); [|now left]. cbn [negb].
      destruct (DeferredApply.apply_sql_file env fs _) as [[[success exit_code] output] k].
      destruct success; [|now left]. cbn [negb].
      destruct (exit_code =? 0)%Z; [right; left; now split|].
      destruct (k =? 0)%nat; [right; left; now split | now left].
    + right. right. split; [reflexivity|]. split; [reflexivity|]. exists raw. auto.
  - right. right. split; [reflexivity|]. split; [reflexivity|]. exists raw. auto.
Qed.

(** X15.  The deferred apply never removes or rewrites the replay file the
    marker names: after [main], whether the replay succeeded or not, that
    file is what it was before.  The one file operation of [main] is the
    removal of the marker; a replay file that has been applied stays on
    disk.  (What the server writes to its own files is not modelled.) *)
Theorem X15_deferred_apply_keeps_the_replay_file
    (env : DeferredApply.Env) (fs : FS.t) (raw : string) :
  FS.read_text fs DeferredApply.PITR_MARKER = Some raw ->
  FS.of_string (PyStr.strip raw) <> DeferredApply.PITR_MARKER ->
  FS.lookup (snd (DeferredApply.main env fs)) (FS.of_string (PyStr.strip raw))
  = FS.lookup fs (FS.of_string (PyStr.strip raw)).
Proof.
  intros _ Hp.
  destruct (main_fs_cases env fs) as [-> | [[_ ->] | (_ & -> & _)]];
    [reflexivity | now apply lookup_remove_marker | now apply lookup_remove_marker].
Qed.

(** The replay file of a restore after an apply that is counted a
    success. *)
Lemma X15_deferred_apply_keeps_the_replay_file_witness :
  fst (DeferredApply.main Worlds.env_apply_duplicates Worlds.fs_pending) = 0%Z
  /\ FS.lookup (snd (DeferredApply.main Worlds.env_apply_duplicates Worlds.fs_pending))
               (FS.of_string "/backups/pitr_replay_20250110_000002_1234.sql")
     = Some (FS.File "BINLOG 'aGVsbG8=';").
Proof.
  split; [reflexivity|].
  change (FS.of_string "/backups/pitr_replay_20250110_000002_1234.sql")
    with (FS.of_string (PyStr.strip "/backups/pitr_replay_20250110_000002_1234.sql")).
  rewrite (X15_deferred_apply_keeps_the_replay_file Worlds.env_apply_duplicates
             Worlds.fs_pending "/backups/pitr_replay_20250110_000002_1234.sql").
  - reflexivity.
  - reflexivity.
  - vm_compute. discriminate.
Defined.

(** X16.  A replay that succeeded is not applied a second time: once [main]
    has returned 0, running it again returns 0 without changing anything,
    whatever the database would answer. *)
Theorem X16_successful_apply_is_not_repeated
    (env env' : DeferredApply.Env) (fs : FS.t) :
  fst (DeferredApply.main env fs) = 0%Z ->
  DeferredApply.main env' (snd (DeferredApply.main env fs))
  = (0%Z, snd (DeferredApply.main env fs)).
Proof.
  intros H0.
  assert (Hgone : FS.exists_ (snd (DeferredApply.main env fs)) DeferredApply.PITR_MARKER
                  = false).
  { destruct (main_fs_cases env fs) as [E | [[_ ->] | (H1 & _)]].
    - revert H0 E. unfold DeferredApply.main.
      destruct (FS.exists_ fs DeferredApply.PITR_MARKER) eqn:Hex; [|now intros _ _].
      cbn [negb].
      destruct (FS.read_text fs DeferredApply.PITR_MARKER) as [raw|]; [|discriminate].
      destruct (negb (PyStr.nonempty (PyStr.strip raw))
                || negb (FS.exists_ fs (FS.of_string (PyStr.strip raw)))); [discriminate|].
      destruct (negb (DeferredApply.wait_for_mysql env)); [discriminate|].
      destruct (DeferredApply.apply_sql_file env fs _) as [[[success exit_code] output] k].
      destruct (negb success); [discriminate|].
      destruct (exit_code =? 0)%Z;
        [intros _ _; apply exists_remove_marker|].
      destruct (k =? 0)%nat; [intros _ _; apply exists_remove_marker | discriminate].
    - apply exists_remove_marker.
    - congruence. }
  unfold DeferredApply.main at 1. now rewrite Hgone.
Qed.

(** A replay with one duplicate-key error counts as a success; the next
    start finds nothing to do. *)
Lemma X16_successful_apply_is_not_repeated_witness :
  fst (DeferredApply.main Worlds.env_apply_duplicates
         (snd (DeferredApply.main Worlds.env_apply_duplicates Worlds.fs_pending)))
  = 0%Z.
Proof.
  rewrite (X16_successful_apply_is_not_repeated Worlds.env_apply_duplicates
             Worlds.env_apply_duplicates Worlds.fs_pending eq_refl).
  reflexivity.
Defined.

(** X17.  A marker that names no file -- blank, or the path of a file that
    is gone -- costs one failed run: [main] returns 1 without contacting the
    database and deletes the marker, and the next run returns 0. *)
Theorem X17_stale_marker_is_discarded
    (env env' : DeferredApply.Env) (fs : FS.t) (raw : string) :
  FS.read_text fs DeferredApply.PITR_MARKER = Some raw ->
  PyStr.strip raw = "" \/ FS.exists_ fs (FS.of_string (PyStr.strip raw)) = false ->
  DeferredApply.main env fs = (1%Z, FS.unlink fs DeferredApply.PITR_MARKER)
  /\ DeferredApply.main env' (FS.unlink fs DeferredApply.PITR_MARKER)
     = (0%Z, FS.unlink fs DeferredApply.PITR_MARKER).
Proof.
  intros Hraw Hbad. split.
  - unfold DeferredApply.main, DeferredApply.remove_marker.
    rewrite (read_text_exists _ _ _ Hraw), Hraw. cbn [negb].
    destruct Hbad as [-> | ->]; [reflexivity|].
    now rewrite orb_true_r.
  - unfold DeferredApply.main. now rewrite exists_unlink.
Qed.

(** A marker whose replay file has been deleted. *)
Lemma X17_stale_marker_is_discarded_witness :
  fst (DeferredApply.main Worlds.env_apply_duplicates MoreWorlds.fs_stale_marker) = 1%Z.
Proof.
  rewrite (proj1 (X17_stale_marker_is_discarded Worlds.env_apply_duplicates
                    Worlds.env_apply_duplicates MoreWorlds.fs_stale_marker
                    "/backups/pitr_replay_20250110_000002_1234.sql"
                    eq_refl (or_intror eq_refl))).
  reflexivity.
Defined.

(** ** Where a restore can stop *)

Section Stops.

Lemma never_exits_ret {A} (a : A) : never_exits (ret a).
Proof. intros s w s'. discriminate. Qed.

Lemma never_exits_raise {A} : never_exits (@raise A).
Proof. intros s w s'. discriminate. Qed.

Lemma never_exits_get_fs : never_exits get_fs.
Proof. intros s w s'. discriminate. Qed.

Lemma never_exits_update_fs (f : FS.t -> FS.t) : never_exits (update_fs f).
Proof. intros s w s'. discriminate. Qed.

Lemma never_exits_bind {A B} (c : M A) (k : A -> M B) :
  never_exits c -> (forall a, never_exits (k a)) -> never_exits (bind c k).
Proof.
  intros Hc Hk s w s'. unfold bind.
  destruct (c s) as [[a | w1 |] s1] eqn:E; [apply Hk | | discriminate].
  now apply Hc in E.
Qed.

Lemma never_exits_for_each {A} (l : list A) (body : A -> M unit) :
  (forall x, never_exits (body x)) -> never_exits (for_each l body).
Proof.
  intros Hb. induction l as [|x l IH]; simpl; [apply never_exits_ret|].
  apply never_exits_bind; [apply Hb | intros _; exact IH].
Qed.

Lemma emits_for_each {A} (P : Event -> Prop) (l : list A) (body : A -> M unit) :
  (forall x, emits P (body x)) -> emits P (for_each l body).
Proof.
  intros Hb. induction l as [|x l IH]; simpl; [apply emits_ret|].
  apply emits_bind; [apply Hb | intros _; exact IH].
Qed.

Lemma emits_error_exit {A} (P : Event -> Prop) (w : Fatal) : emits P (@error_exit A w).
Proof. now apply emits_silent. Qed.

Lemma exits_within_emits {A} (P : Event -> Prop) (c : M A) :
  emits P c -> exits_within P c.
Proof. intros Hc s w s' E. specialize (Hc s). now rewrite E in Hc. Qed.

Lemma exits_within_never {A} (P : Event -> Prop) (c : M A) :
  never_exits c -> exits_within P c.
Proof. intros Hc s w s' E. now apply Hc in E. Qed.

Lemma exits_within_bind {A B} (P : Event -> Prop) (c : M A) (k : A -> M B) :
  emits P c -> (forall a, exits_within P (k a)) -> exits_within P (bind c k).
Proof.
  intros Hc Hk s w s'. unfold bind. specialize (Hc s).
  destruct (c s) as [[a | w1 |] s1]; cbn [snd] in Hc; [| |discriminate].
  - intros E. destruct Hc as (evs1 & Ht1 & Hall1).
    destruct (Hk a s1 w s' E) as (evs2 & Ht2 & Hall2).
    exists (evs1 ++ evs2). rewrite Ht2, Ht1, app_assoc. split; [reflexivity|].
    now apply Forall_app.
  - now intros [= <- <-].
Qed.

Lemma halts_within_bind_l {A B} (P : Event -> Prop) (c : M A) (k : A -> M B) :
  halts_within P c -> halts_within P (bind c k).
Proof.
  intros Hc s. destruct (Hc s) as [Hno Htr]. unfold bind.
  destruct (c s) as [[a | w |] s1]; [now contradiction (Hno a s1) | |];
    (split; [discriminate | exact Htr]).
Qed.

Lemma halts_within_bind_r {A B} (P : Event -> Prop) (c : M A) (k : A -> M B) :
  emits P c -> (forall a, halts_within P (k a)) -> halts_within P (bind c k).
Proof.
  intros Hc Hk s. unfold bind. specialize (Hc s).
  destruct (c s) as [[a | w |] s1]; cbn [snd] in Hc.
  - destruct Hc as (evs1 & Ht1 & Hall1). destruct (Hk a s1) as [Hno (evs2 & Ht2 & Hall2)].
    split; [exact Hno|]. exists (evs1 ++ evs2). rewrite Ht2, Ht1, app_assoc.
    split; [reflexivity | now apply Forall_app].
  - split; [discriminate | exact Hc].
  - split; [discriminate | exact Hc].
Qed.

Lemma halts_within_stop {A} (P : Event -> Prop) (c : M A) :
  emits P c -> (forall s a s', c s <> (Ok a, s')) -> halts_within P c.
Proof. intros Hc Hno s. split; [apply Hno | apply Hc]. Qed.

End Stops.

Section PipelineTraces.

Variable cfg : Config.
Variable env : Env.

Lemma emits_run_xtrabackup (P : Event -> Prop) (args : list string) :
  P (Xtrabackup args) -> emits P (run_xtrabackup env args).
Proof.
  intros HP s. exists [Xtrabackup args]. unfold run_xtrabackup.
  destruct (xtrabackup env args (st_fs s)) as [rc fs']. split; [reflexivity|].
  now repeat constructor.
Qed.

Lemma never_exits_run_xtrabackup (args : list string) :
  never_exits (run_xtrabackup env args).
Proof.
  intros s w s'. unfold run_xtrabackup.
  destruct (xtrabackup env args (st_fs s)). discriminate.
Qed.

Lemma never_exits_run_mysqlbinlog (args : list string) :
  never_exits (run_mysqlbinlog env args).
Proof. intros s w s'. discriminate. Qed.

Lemma emits_extract_tarball (P : Event -> Prop) (tarball dest : FS.Path) :
  emits P (extract_tarball env tarball dest).
Proof.
  apply emits_silent. intros s. unfold extract_tarball.
  now destruct (untar env tarball dest (st_fs s)) as [[|] fs1].
Qed.

Lemma emits_download_from_s3 (P : Event -> Prop) (sub ts : string) (dir : FS.Path) :
  emits P (download_from_s3 cfg env sub ts dir).
Proof.
  apply emits_silent. intros s. unfold download_from_s3.
  destruct (mc_cp env _ _ _) as [rc fs1].
  destruct (negb (rc =? 0)%Z); [reflexivity|].
  destruct (FS.exists_ fs1 _); [|reflexivity].
  now destruct (untar env _ _ fs1) as [[|] fs2].
Qed.

Lemma emits_ensure_full_backup (P : Event -> Prop) (ts : string) :
  emits P (ensure_full_backup cfg env ts).
Proof.
  unfold ensure_full_backup. apply emits_bind; [apply emits_get_fs|]. intros fs.
  destruct (negb _ || negb _); [|apply emits_ret].
  destruct (FS.exists_ fs _); [apply emits_extract_tarball|].
  destruct (setup_s3_if_needed cfg env); [|apply emits_error_exit].
  apply emits_bind.
  - unfold download_full_backup_from_s3.
    destruct (negb _); [apply emits_ret | apply emits_download_from_s3].
  - intros [|]; [apply emits_ret | apply emits_error_exit].
Qed.

Lemma emits_save_binlog_entry (P : Event -> Prop) (raw : string) :
  emits P (save_binlog_entry cfg env raw).
Proof.
  unfold save_binlog_entry. destruct (negb _); [apply emits_ret|].
  apply emits_bind; [apply emits_get_fs|]. intros fs.
  destruct (if FS.exists_ fs _ then _ else _) as [f|]; [|apply emits_ret].
  destruct (PyStr.startswith _ _); [apply emits_update_fs | apply emits_ret].
Qed.

Lemma emits_save_binlogs (P : Event -> Prop) : emits P (save_binlogs cfg env).
Proof.
  unfold save_binlogs. apply emits_bind; [apply emits_update_fs|]. intros _.
  apply emits_bind; [apply emits_get_fs|]. intros fs.
  destruct (FS.exists_ fs _); [|apply emits_ret].
  apply emits_bind; [apply emits_update_fs|]. intros _.
  destruct (FS.read_text fs _); [|apply emits_ret].
  apply emits_for_each. intros raw. apply emits_save_binlog_entry.
Qed.

Lemma emits_unpack (dir : FS.Path) : emits preparation (unpack env dir).
Proof.
  unfold unpack. apply emits_bind; [apply emits_get_fs|]. intros fs.
  destruct (FS.exists_ fs _); [apply emits_ret|].
  apply emits_bind.
  { destruct (FS.exists_ fs _); [apply emits_extract_tarball | apply emits_ret]. }
  intros _. apply emits_bind; [apply emits_get_fs|]. intros fs1.
  apply emits_bind.
  { destruct (FS.glob_suffix fs1 dir ".zst"); [apply emits_ret|].
    apply emits_bind; [|intros _; apply emits_ret].
    apply emits_run_xtrabackup. eexists. now right. }
  intros _. apply emits_bind; [apply emits_get_fs|]. intros fs2. apply emits_ret.
Qed.

Lemma emits_prepare_base (dir : FS.Path) : emits preparation (prepare_base env dir).
Proof.
  unfold prepare_base. apply emits_bind; [apply emits_unpack|].
  intros [|]; [|apply emits_error_exit].
  apply emits_bind; [|intros _; apply emits_ret].
  apply emits_run_xtrabackup. eexists. now left.
Qed.

Lemma emits_merge_incremental (full inc : FS.Path) :
  emits preparation (merge_incremental cfg env full inc).
Proof.
  unfold merge_incremental. apply emits_bind; [apply emits_get_fs|]. intros fs.
  apply emits_bind.
  { destruct (negb _ || negb _); [|apply emits_ret].
    destruct (FS.exists_ fs _).
    - apply emits_bind; [apply emits_update_fs|]. intros _.
      apply emits_bind; [apply emits_extract_tarball|]. intros _. apply emits_ret.
    - destruct (setup_s3_if_needed cfg env); [|apply emits_ret].
      apply emits_download_from_s3. }
  intros [|]; [|apply emits_ret].
  apply emits_bind; [apply emits_get_fs|]. intros fs1.
  destruct (FS.exists_ fs1 inc); [|apply emits_ret].
  apply emits_bind; [apply emits_unpack|].
  intros [|]; [|apply emits_ret].
  apply emits_bind; [|intros _; apply emits_ret].
  apply emits_run_xtrabackup. eexists. now left.
Qed.

Lemma emits_final_prepare (dir : FS.Path) : emits preparation (final_prepare env dir).
Proof.
  unfold final_prepare. apply emits_bind.
  - apply emits_run_xtrabackup. eexists. now left.
  - intros rc. destruct (negb _); [apply emits_error_exit | apply emits_ret].
Qed.

Lemma never_exits_purge_datadir : never_exits (purge_datadir cfg env).
Proof.
  unfold purge_datadir. apply never_exits_bind; [apply never_exits_get_fs|]. intros fs.
  destruct (if FS.exists_ fs _ then _ else _); [apply never_exits_ret|].
  apply never_exits_bind; [apply never_exits_update_fs|]. intros _.
  apply never_exits_bind; [apply never_exits_get_fs|]. intros fs1.
  apply never_exits_bind.
  { apply never_exits_for_each. intros item.
    destruct (negb _); [apply never_exits_update_fs | apply never_exits_ret]. }
  intros _. apply never_exits_bind; [apply never_exits_get_fs|]. intros fs2.
  apply never_exits_for_each. intros item. apply never_exits_update_fs.
Qed.

Lemma never_exits_copy_back (dir : FS.Path) : never_exits (copy_back cfg env dir).
Proof.
  unfold copy_back. apply never_exits_bind; [apply never_exits_run_xtrabackup|].
  intros _. apply never_exits_ret.
Qed.

Lemma never_exits_drop_stale_binlogs : never_exits (drop_stale_binlogs cfg).
Proof.
  unfold drop_stale_binlogs. apply never_exits_bind; [apply never_exits_get_fs|].
  intros fs. destruct (FS.glob_prefix fs _ _); [apply never_exits_ret|].
  apply never_exits_bind; [|intros _; apply never_exits_update_fs].
  apply never_exits_for_each. intros n. apply never_exits_update_fs.
Qed.

Lemma never_exits_restore_binlogs : never_exits (restore_binlogs cfg env).
Proof.
  unfold restore_binlogs. apply never_exits_bind; [apply never_exits_get_fs|].
  intros fs. destruct (_ && _); [|apply never_exits_ret].
  apply never_exits_bind; [apply never_exits_update_fs|]. intros _.
  apply never_exits_bind; [|intros _; apply never_exits_update_fs].
  apply never_exits_for_each. intros n. apply never_exits_update_fs.
Qed.

Lemma never_exits_extract_each
    (start local : option string) (stop : string) (files : list FS.Path) (n : nat) :
  never_exits (extract_each cfg env start local stop files n).
Proof.
  revert n. induction files as [|f files IH]; intros n; simpl; [apply never_exits_ret|].
  apply never_exits_bind; [apply never_exits_run_mysqlbinlog|].
  intros [rc content]. destruct (_ && _); [|apply IH].
  apply never_exits_bind; [apply never_exits_update_fs | intros _; apply IH].
Qed.

Lemma never_exits_publish_replay_file : never_exits (publish_replay_file cfg env).
Proof.
  unfold publish_replay_file. apply never_exits_bind; [apply never_exits_get_fs|].
  intros fs. destruct (_ || _); [apply never_exits_update_fs|].
  apply never_exits_bind; [apply never_exits_update_fs|]. intros _.
  apply never_exits_update_fs.
Qed.

Lemma never_exits_apply_binlog_to_datetime
    (target : Codec.datetime) (full : option string) (applied : option (list string)) :
  never_exits (apply_binlog_to_datetime cfg env target full applied).
Proof.
  unfold apply_binlog_to_datetime. apply never_exits_bind; [apply never_exits_get_fs|].
  intros fs.
  destruct (locate_binlog_index cfg fs) as [[idx dir]|]; [|apply never_exits_ret].
  destruct (read_binlog_files fs idx dir) as [[|f files]|]; try apply never_exits_ret.
  destruct (negb _); [apply never_exits_ret|].
  apply never_exits_bind.
  { unfold stop_datetime_utc_of. destruct (_ =? 0)%Z; [apply never_exits_ret|].
    destruct (Codec.utcfromtimestamp _); [apply never_exits_ret | apply never_exits_raise]. }
  intros stop. apply never_exits_bind.
  { unfold window_is_void.
    destruct (if PyStr.nonempty _ then _ else _), stop; try apply never_exits_ret.
    destruct (Codec.parse_compact _); [|apply never_exits_raise].
    destruct (match Codec.utcfromtimestamp _ with Some _ => _ | None => _ end);
      [|apply never_exits_raise].
    destruct (_ <=? _)%Z; apply never_exits_ret. }
  intros [|]; [apply never_exits_ret|].
  destruct stop as [stop|]; [|apply never_exits_ret].
  unfold extract_window. apply never_exits_bind; [apply never_exits_run_mysqlbinlog|].
  intros [rc out]. apply never_exits_bind; [apply never_exits_update_fs|]. intros _.
  destruct (negb _); [|apply never_exits_publish_replay_file].
  apply never_exits_bind; [apply never_exits_extract_each|].
  intros [|k]; [apply never_exits_update_fs | apply never_exits_publish_replay_file].
Qed.

Lemma emits_resolve_backup_chain (P : Event -> Prop)
    (target : Codec.datetime) (ts : option string) :
  emits P (resolve_backup_chain cfg env target ts).
Proof.
  unfold resolve_backup_chain. apply emits_bind; [apply emits_get_fs|]. intros fs.
  destruct (choose_base cfg fs _) as [[base incs] | w |].
  - apply emits_bind; [apply emits_ensure_full_backup|]. intros _.
    apply emits_bind; [apply emits_save_binlogs|]. intros _.
    apply emits_bind; [apply emits_get_fs|]. intros fs1. apply emits_ret.
  - apply emits_error_exit.
  - apply emits_raise.
Qed.

End PipelineTraces.

Section RestoreStops.

Variable cfg : Config.
Variable env : Env.

Lemma exits_within_bind_never {A B} (P : Event -> Prop) (c : M A) (k : A -> M B) :
  exits_within P c -> (forall a, never_exits (k a)) -> exits_within P (bind c k).
Proof.
  intros Hc Hk s w s'. unfold bind.
  destruct (c s) as [[a | w1 |] s1] eqn:E; [| |discriminate].
  - intros E'. now apply Hk in E'.
  - intros [= <- <-]. exact (Hc s w1 s1 E).
Qed.

(** What follows the final prepare never calls [error_exit]. *)
Lemma never_exits_materialize
    (full_backup_dir : FS.Path) (full_backup_timestamp : string)
    (incremental_backups : list FS.Path) :
  never_exits
    (bind (purge_datadir cfg env) (fun _ =>
     bind (copy_back cfg env full_backup_dir) (fun _ =>
     bind (drop_stale_binlogs cfg) (fun _ =>
     bind (restore_binlogs cfg env) (fun _ =>
     bind get_fs (fun fs =>
     ret (full_backup_timestamp, applied_inc_backups fs incremental_backups))))))).
Proof.
  apply never_exits_bind; [apply never_exits_purge_datadir|]. intros _.
  apply never_exits_bind; [apply never_exits_copy_back|]. intros _.
  apply never_exits_bind; [apply never_exits_drop_stale_binlogs|]. intros _.
  apply never_exits_bind; [apply never_exits_restore_binlogs|]. intros _.
  apply never_exits_bind; [apply never_exits_get_fs|]. intros fs.
  apply never_exits_ret.
Qed.

Lemma exits_within_restore_backup_chain (target : Codec.datetime) (ts : option string) :
  exits_within preparation (restore_backup_chain cfg env target ts).
Proof.
  unfold restore_backup_chain.
  apply exits_within_bind; [apply emits_resolve_backup_chain|]. intros [base incs].
  apply exits_within_bind; [apply emits_prepare_base|]. intros _.
  apply exits_within_bind.
  { apply emits_for_each. intros inc. apply emits_merge_incremental. }
  intros _.
  apply exits_within_bind; [apply emits_final_prepare|]. intros _.
  apply exits_within_never, never_exits_materialize.
Qed.

Hypothesis final_prepare_fails :
  forall target_dir fs, fst (xtrabackup env ["--prepare"; target_dir] fs) <> 0%Z.

Lemma halts_within_final_prepare (dir : FS.Path) :
  halts_within preparation (final_prepare env dir).
Proof.
  apply halts_within_stop; [apply emits_final_prepare|].
  intros s a s'. unfold final_prepare, bind, run_xtrabackup.
  pose proof (final_prepare_fails ("--target-dir=" ++ FS.str dir) (st_fs s)) as Hrc.
  destruct (xtrabackup env _ (st_fs s)) as [rc fs']. cbn [fst] in Hrc.
  destruct (Z.eqb_spec rc 0) as [E | _]; [contradiction|]. discriminate.
Qed.

Lemma halts_within_restore_backup_chain (target : Codec.datetime) (ts : option string) :
  halts_within preparation (restore_backup_chain cfg env target ts).
Proof.
  unfold restore_backup_chain.
  apply halts_within_bind_r; [apply emits_resolve_backup_chain|]. intros [base incs].
  apply halts_within_bind_r; [apply emits_prepare_base|]. intros _.
  apply halts_within_bind_r.
  { apply emits_for_each. intros inc. apply emits_merge_incremental. }
  intros _.
  apply halts_within_bind_l, halts_within_final_prepare.
Qed.

End RestoreStops.

(** X18.  A restore that ends in [error_exit] has run neither the copy-back
    nor the binlog extraction: up to that point the only tools it ran were
    [xtrabackup --prepare] and [xtrabackup --decompress] on backup
    directories. *)
Theorem X18_error_exit_comes_before_copy_back
    (cfg : Config) (env : Env) (target : Codec.datetime)
    (full_backup_timestamp : option string) (s s' : State) (why : Fatal) :
  restore_to_point_in_time cfg env target full_backup_timestamp s = (Exit1 why, s') ->
  exists evs,
    st_trace s' = st_trace s ++ evs
    /\ Forall (fun e => exists args,
                 e = Xtrabackup ("--prepare" :: args)
                 \/ e = Xtrabackup ("--decompress" :: args)) evs.
Proof.
  revert s why s'.
  change (exits_within preparation
            (restore_to_point_in_time cfg env target full_backup_timestamp)).
  unfold restore_to_point_in_time.
  apply exits_within_bind_never; [apply exits_within_restore_backup_chain|].
  intros [base applied].
  apply never_exits_bind; [apply never_exits_apply_binlog_to_datetime|].
  intros _. apply never_exits_ret.
Qed.

(** A target before every backup. *)
Lemma X18_error_exit_comes_before_copy_back_witness :
  exists evs,
    st_trace (snd (restore_to_point_in_time Worlds.cfg_local Worlds.env_ok
                     (Codec.mkDT 2024 1 3 12 0 0) None (mkState Worlds.fs_full_inc [])))
    = [] ++ evs.
Proof.
  destruct (X18_error_exit_comes_before_copy_back Worlds.cfg_local Worlds.env_ok
              (Codec.mkDT 2024 1 3 12 0 0) None (mkState Worlds.fs_full_inc [])
              (mkState Worlds.fs_full_inc []) FullBackupMissing)
    as (evs & Ht & _).
  - vm_compute. reflexivity.
  - exists evs. exact Ht.
Defined.

(** X19.  The final prepare is the one step whose failure stops the
    restore: when [xtrabackup --prepare --target-dir=...] never exits with
    status 0, no restore returns normally, and none gets as far as
    [--copy-back] or [mysqlbinlog]. *)
Theorem X19_failed_final_prepare_stops_the_restore
    (cfg : Config) (env : Env) (target : Codec.datetime)
    (full_backup_timestamp : option string) (s : State) :
  (forall target_dir fs, fst (xtrabackup env ["--prepare"; target_dir] fs) <> 0%Z) ->
  let run := restore_to_point_in_time cfg env target full_backup_timestamp s in
  fst run <> Ok tt
  /\ exists evs,
       st_trace (snd run) = st_trace s ++ evs
       /\ Forall (fun e => exists args,
                    e = Xtrabackup ("--prepare" :: args)
                    \/ e = Xtrabackup ("--decompress" :: args)) evs.
Proof.
  intros Hfail run.
  assert (H : halts_within preparation
                (restore_to_point_in_time cfg env target full_backup_timestamp)).
  { unfold restore_to_point_in_time.
    apply halts_within_bind_l, halts_within_restore_backup_chain, Hfail. }
  destruct (H s) as [Hno Htr]. split; [|exact Htr].
  subst run. intros E.
  destruct (restore_to_point_in_time cfg env target full_backup_timestamp s) as [o s1].
  cbn [fst] in E. subst o. now apply (Hno tt s1).
Qed.

(** A prepared full backup and incremental; the final prepare exits with
    status 1. *)
Lemma X19_failed_final_prepare_stops_the_restore_witness :
  fst (restore_to_point_in_time Worlds.cfg_local MoreWorlds.env_failing_final_prepare
         (Codec.mkDT 2025 1 3 12 0 0) None (mkState Worlds.fs_full_inc []))
  <> Ok tt.
Proof.
  apply (X19_failed_final_prepare_stops_the_restore
           Worlds.cfg_local MoreWorlds.env_failing_final_prepare
           (Codec.mkDT 2025 1 3 12 0 0) None (mkState Worlds.fs_full_inc [])).
  intros target_dir fs. simpl. discriminate.
Defined.

(** X20.  An incremental that cannot be obtained is passed over in silence:
    when its directory or its checkpoint file is missing, no tarball lies
    in the directory and the remote store is not set up or every download
    fails, the merge round returns normally without running any tool. *)
Theorem X20_unobtainable_incremental_is_skipped
    (cfg : Config) (env : Env) (full_backup_dir inc_backup_dir : FS.Path) (s : State) :
  FS.exists_ (st_fs s) inc_backup_dir = false
  \/ FS.exists_ (st_fs s) (checkpoints inc_backup_dir) = false ->
  FS.exists_ (st_fs s) (tarball inc_backup_dir) = false ->
  setup_s3_if_needed cfg env = false
  \/ (forall s3_path local_file fs, fst (mc_cp env s3_path local_file fs) <> 0%Z) ->
  let run := merge_incremental cfg env full_backup_dir inc_backup_dir s in
  fst run = Ok tt /\ st_trace (snd run) = st_trace s.
Proof.
  intros Hmiss Htar Hs3 run. subst run. unfold merge_incremental.
  rewrite bind_get_fs.
  replace (negb (FS.exists_ (st_fs s) inc_backup_dir)
           || negb (FS.exists_ (st_fs s) (checkpoints inc_backup_dir))) with true
    by (destruct Hmiss as [-> | ->]; [reflexivity | now rewrite orb_true_r]).
  rewrite Htar.
  destruct (setup_s3_if_needed cfg env) eqn:Hset.
  - destruct Hs3 as [Hs3 | Hcp]; [discriminate|].
    unfold bind, download_incremental_backup_from_s3, download_from_s3.
    pose proof (Hcp (S3_ALIAS cfg ++ "/" ++ S3_BUCKET cfg ++ "/" ++ "incremental" ++ "/"
                     ++ "backup_" ++ FS.name inc_backup_dir ++ ".tar.gz")%string
                    (FS.join inc_backup_dir "backup.tar.gz")
                    (FS.mkdir_p (st_fs s) inc_backup_dir)) as Hrc.
    destruct (mc_cp env _ _ _) as [rc fs1]. cbn [fst] in Hrc.
    destruct (Z.eqb_spec rc 0) as [E | _]; [contradiction|]. now split.
  - now split.
Qed.

(** An incremental directory without its checkpoint file, no remote
    store. *)
Lemma X20_unobtainable_incremental_is_skipped_witness :
  fst (merge_incremental Worlds.cfg_local Worlds.env_ok
         (FS.of_string "/backups/full/20250101_000000")
         (FS.of_string "/backups/incremental/20250102_120000")
         (mkState MoreWorlds.fs_unusable_inc []))
  = Ok tt.
Proof.
  apply (X20_unobtainable_incremental_is_skipped Worlds.cfg_local Worlds.env_ok
           (FS.of_string "/backups/full/20250101_000000")
           (FS.of_string "/backups/incremental/20250102_120000")
           (mkState MoreWorlds.fs_unusable_inc [])).
  - right. vm_compute. reflexivity.
  - vm_compute. reflexivity.
  - left. vm_compute. reflexivity.
Defined.

(** ** The phases of a completed restore *)

Lemma bind_ok_inv {A B} (c : M A) (k : A -> M B) (s s' : State) (b : B) :
  bind c k s = (Ok b, s') ->
  exists a s1, c s = (Ok a, s1) /\ k a s1 = (Ok b, s').
Proof.
  unfold bind. destruct (c s) as [[a | w |] s1]; try discriminate.
  intros H. now exists a, s1.
Qed.

Lemma emits_run {A} (P : Event -> Prop) (c : M A) (s s' : State) (o : Outcome A) :
  emits P c -> c s = (o, s') ->
  exists evs, st_trace s' = st_trace s ++ evs /\ Forall P evs.
Proof. intros Hc E. specialize (Hc s). now rewrite E in Hc. Qed.

Lemma emits_weaken {A} (P Q : Event -> Prop) (c : M A) :
  emits P c -> (forall e, P e -> Q e) -> emits Q c.
Proof.
  intros Hc HPQ s. destruct (Hc s) as (evs & Ht & Hall). exists evs.
  split; [exact Ht|]. eapply Forall_impl; [|exact Hall]. exact HPQ.
Qed.

Lemma silent_run {A} (c : M A) (s s' : State) (o : Outcome A) :
  emits (fun _ => False) c -> c s = (o, s') -> st_trace s' = st_trace s.
Proof.
  intros Hc E. destruct (emits_run _ c s s' o Hc E) as (evs & Ht & Hall).
  destruct evs as [|e evs]; [now rewrite app_nil_r in Ht|].
  inversion Hall as [|? ? Hf _]. contradiction.
Qed.

Section Phases.

Variable cfg : Config.
Variable env : Env.

Lemma emits_purge_datadir (P : Event -> Prop) : emits P (purge_datadir cfg env).
Proof.
  unfold purge_datadir. apply emits_bind; [apply emits_get_fs|]. intros fs.
  destruct (if FS.exists_ fs _ then _ else _); [apply emits_ret|].
  apply emits_bind; [apply emits_update_fs|]. intros _.
  apply emits_bind; [apply emits_get_fs|]. intros fs1.
  apply emits_bind.
  { apply emits_for_each. intros item.
    destruct (negb _); [apply emits_update_fs | apply emits_ret]. }
  intros _. apply emits_bind; [apply emits_get_fs|]. intros fs2.
  apply emits_for_each. intros item. apply emits_update_fs.
Qed.

Lemma emits_drop_stale_binlogs (P : Event -> Prop) : emits P (drop_stale_binlogs cfg).
Proof.
  unfold drop_stale_binlogs. apply emits_bind; [apply emits_get_fs|].
  intros fs. destruct (FS.glob_prefix fs _ _); [apply emits_ret|].
  apply emits_bind; [|intros _; apply emits_update_fs].
  apply emits_for_each. intros n. apply emits_update_fs.
Qed.

Lemma emits_restore_binlogs (P : Event -> Prop) : emits P (restore_binlogs cfg env).
Proof.
  unfold restore_binlogs. apply emits_bind; [apply emits_get_fs|].
  intros fs. destruct (_ && _); [|apply emits_ret].
  apply emits_bind; [apply emits_update_fs|]. intros _.
  apply emits_bind; [|intros _; apply emits_update_fs].
  apply emits_for_each. intros n. apply emits_update_fs.
Qed.

Lemma emits_apply_binlog_to_datetime
    (target : Codec.datetime) (full : option string) (applied : option (list string)) :
  emits (fun e => exists args, e = Mysqlbinlog args)
        (apply_binlog_to_datetime cfg env target full applied).
Proof.
  unfold apply_binlog_to_datetime. apply emits_bind; [apply emits_get_fs|]. intros fs.
  destruct (locate_binlog_index cfg fs) as [[idx dir]|]; [|apply emits_ret].
  destruct (read_binlog_files fs idx dir) as [[|f files]|]; try apply emits_ret.
  destruct (negb _); [apply emits_ret|].
  apply emits_bind; [apply emits_stop_datetime_utc_of|]. intros stop.
  apply emits_bind; [apply emits_window_is_void|].
  intros [|]; [apply emits_ret|].
  destruct stop as [stop|]; [|apply emits_ret].
  eapply emits_weaken; [apply emits_extract_window|].
  intros e (args & -> & _). now exists args.
Qed.

Lemma final_prepare_run (dir : FS.Path) (s s' : State) :
  final_prepare env dir s = (Ok tt, s') ->
  st_trace s' = st_trace s ++ [Xtrabackup ["--prepare"; ("--target-dir=" ++ FS.str dir)%string]]
  /\ fst (xtrabackup env ["--prepare"; ("--target-dir=" ++ FS.str dir)%string] (st_fs s))
     = 0%Z.
Proof.
  unfold final_prepare, bind, run_xtrabackup.
  destruct (xtrabackup env _ (st_fs s)) as [rc fs'].
  destruct (Z.eqb_spec rc 0) as [-> | Hne]; [|discriminate].
  cbn [negb]. intros [= <-]. now split.
Qed.

Lemma copy_back_run (dir : FS.Path) (s s' : State) (o : Outcome unit) :
  copy_back cfg env dir s = (o, s') ->
  st_trace s'
  = st_trace s ++ [Xtrabackup ["--copy-back"; ("--target-dir=" ++ FS.str dir)%string;
                               ("--datadir=" ++ FS.str (MYSQL_DATA_DIR cfg))%string]].
Proof.
  unfold copy_back, bind, run_xtrabackup.
  destruct (xtrabackup env _ (st_fs s)) as [rc fs']. now intros [= _ <-].
Qed.

End Phases.

(** The base the resolution yields is the one fixed on the initial file
    system. *)
Lemma resolve_backup_chain_base
    (cfg : Config) (env : Env) (target : Codec.datetime) (ts : option string)
    (s s' : State) (base : string) (incs' : list FS.Path) :
  resolve_backup_chain cfg env target ts s = (Ok (base, incs'), s') ->
  exists incs,
    choose_base cfg (st_fs s) (choose_backup cfg env (st_fs s) target ts) = Ok (base, incs).
Proof.
  unfold resolve_backup_chain. rewrite bind_get_fs.
  destruct (choose_base cfg (st_fs s) _) as [[base0 incs] | w |]; try discriminate.
  intros H.
  apply bind_ok_inv in H. destruct H as ([] & s1 & _ & H).
  apply bind_ok_inv in H. destruct H as ([] & s2 & _ & H).
  rewrite bind_get_fs in H. injection H as <- _ _. now exists incs.
Qed.

(** X21.  A restore that returns normally has run its tools in phases: first
    only [xtrabackup --prepare] and [--decompress] on the backups, then the
    final prepare of the base, which exited with status 0, then the
    copy-back of the base into the data directory, and after it nothing but
    [mysqlbinlog]; the base is the one the resolver chose on the initial
    file system. *)
Theorem X21_completed_restore_runs_in_phases
    (cfg : Config) (env : Env) (target : Codec.datetime)
    (full_backup_timestamp : option string) (s s' : State) :
  restore_to_point_in_time cfg env target full_backup_timestamp s = (Ok tt, s') ->
  exists base incs pre post fs,
    choose_base cfg (st_fs s)
      (choose_backup cfg env (st_fs s) target full_backup_timestamp) = Ok (base, incs)
    /\ let dir := FS.str (FS.join (full_root cfg) base) in
       let final := ["--prepare"; ("--target-dir=" ++ dir)%string] in
       st_trace s'
       = st_trace s ++ pre
         ++ [Xtrabackup final;
             Xtrabackup ["--copy-back"; ("--target-dir=" ++ dir)%string;
                         ("--datadir=" ++ FS.str (MYSQL_DATA_DIR cfg))%string]]
         ++ post
       /\ Forall preparation pre
       /\ fst (xtrabackup env final fs) = 0%Z
       /\ Forall (fun e => exists args, e = Mysqlbinlog args) post.
Proof.
  unfold restore_to_point_in_time. intros H.
  apply bind_ok_inv in H. destruct H as ([base applied] & s9 & Hchain & Hbin).
  apply bind_ok_inv in Hbin. destruct Hbin as ([] & s10 & Hbin & Hret).
  injection Hret as <-.
  destruct (emits_run _ _ _ _ _ (emits_apply_binlog_to_datetime cfg env target _ _) Hbin)
    as (post & Hpost & Hallpost).
  revert Hchain. unfold restore_backup_chain. intros H.
  apply bind_ok_inv in H. destruct H as ([base0 incs1] & s2 & Hres & H).
  destruct (resolve_backup_chain_base cfg env _ _ _ _ _ _ Hres) as (incs & Hbase).
  apply bind_ok_inv in H. destruct H as ([] & s3 & H3 & H).
  apply bind_ok_inv in H. destruct H as ([] & s4 & H4 & H).
  apply bind_ok_inv in H. destruct H as ([] & s5 & H5 & H).
  apply bind_ok_inv in H. destruct H as ([] & s6 & H6 & H).
  apply bind_ok_inv in H. destruct H as ([] & s7 & H7 & H).
  apply bind_ok_inv in H. destruct H as ([] & s8 & H8 & H).
  apply bind_ok_inv in H. destruct H as ([] & s8' & H8' & H).
  rewrite bind_get_fs in H. injection H as <- <- <-.
  destruct (emits_run preparation _ _ _ _ (emits_resolve_backup_chain cfg env _ _ _) Hres)
    as (e2 & T2 & A2).
  destruct (emits_run preparation _ _ _ _ (emits_prepare_base env _) H3)
    as (e3 & T3 & A3).
  destruct (emits_run preparation _ _ _ _
              (emits_for_each _ _ _ (fun inc => emits_merge_incremental cfg env _ inc)) H4)
    as (e4 & T4 & A4).
  destruct (final_prepare_run env _ _ _ H5) as [T5 Hrc].
  pose proof (silent_run _ _ _ _ (emits_purge_datadir cfg env _) H6) as T6.
  pose proof (copy_back_run cfg env _ _ _ _ H7) as T7.
  pose proof (silent_run _ _ _ _ (emits_drop_stale_binlogs cfg _) H8) as T8.
  pose proof (silent_run _ _ _ _ (emits_restore_binlogs cfg env _) H8') as T8'.
  exists base0, incs, (e2 ++ e3 ++ e4), post, (st_fs s4).
  split; [exact Hbase|]. cbv zeta.
  split; [|split; [|split; [exact Hrc | exact Hallpost]]].
  - rewrite Hpost, T8', T8, T7, T6, T5, T4, T3, T2.
    rewrite <- !app_assoc. reflexivity.
  - repeat (apply Forall_app; split); assumption.
Qed.

(** A prepared full backup and incremental, every tool succeeding. *)
Lemma X21_completed_restore_runs_in_phases_witness :
  exists base pre post,
    st_trace (snd (restore_to_point_in_time Worlds.cfg_local Worlds.env_ok
                     (Codec.mkDT 2025 1 3 12 0 0) None (mkState Worlds.fs_full_inc [])))
    = pre ++ [Xtrabackup ["--prepare"; "--target-dir=" ++ base]%string;
              Xtrabackup ["--copy-back"; "--target-dir=" ++ base;
                          "--datadir=/var/lib/mysql"]%string]
          ++ post.
Proof.
  destruct (X21_completed_restore_runs_in_phases Worlds.cfg_local Worlds.env_ok
              (Codec.mkDT 2025 1 3 12 0 0) None (mkState Worlds.fs_full_inc [])
              (snd (restore_to_point_in_time Worlds.cfg_local Worlds.env_ok
                      (Codec.mkDT 2025 1 3 12 0 0) None (mkState Worlds.fs_full_inc []))))
    as (base & incs & pre & post & fs & _ & Ht & _).
  - vm_compute. reflexivity.
  - exists (FS.str (FS.join (full_root Worlds.cfg_local) base)), pre, post. exact Ht.
Defined.

(** ** Directory listings after file-system updates *)

Module ListingFacts.

Lemma component_of_string (n : string) : component n = true -> FS.of_string n = [n].
Proof.
  unfold component. rewrite !andb_true_iff. intros [[Hne Hdot] Hfree].
  unfold FS.of_string. rewrite (PathText.split_on_whole _ n Hfree).
  cbn [filter]. now rewrite Hne, Hdot.
Qed.

Lemma join_component (d : FS.Path) (n : string) :
  component n = true -> FS.join d n = d ++ [n].
Proof. intros H. unfold FS.join. now rewrite (component_of_string n H). Qed.

Lemma is_prefix_app (d x : FS.Path) : FS.is_prefix d (d ++ x) = true.
Proof. induction d as [|a d IH]; simpl; [reflexivity|]. now rewrite String.eqb_refl. Qed.

Lemma is_prefix_refl (d : FS.Path) : FS.is_prefix d d = true.
Proof. induction d as [|a d IH]; simpl; [reflexivity|]. now rewrite String.eqb_refl. Qed.

Lemma is_prefix_spec (d p : FS.Path) : FS.is_prefix d p = true -> exists x, p = d ++ x.
Proof.
  revert p. induction d as [|a d IH]; intros p; simpl; [now exists p|].
  destruct p as [|b p]; [discriminate|].
  rewrite andb_true_iff, String.eqb_eq. intros [-> H].
  destruct (IH p H) as [x ->]. now exists x.
Qed.

(** Two paths with a common extension: one is a prefix of the other. *)
Lemma is_prefix_app_cases (d e x : FS.Path) :
  FS.is_prefix d (e ++ x) = true -> FS.is_prefix d e = true \/ FS.is_prefix e d = true.
Proof.
  revert e. induction d as [|a d IH]; intros e; simpl; [now left|].
  destruct e as [|b e]; simpl; [now right|].
  rewrite andb_true_iff. intros [Hab H]. apply String.eqb_eq in Hab. subst b.
  rewrite String.eqb_refl. simpl. now apply IH.
Qed.

Lemma child_name_prefix (d p : FS.Path) (n : string) :
  FS.child_name d p = Some n -> FS.is_prefix d p = true.
Proof. intros H. apply child_name_spec in H. subst p. apply is_prefix_app. Qed.

Lemma child_name_app (d : FS.Path) (n : string) : FS.child_name d (d ++ [n]) = Some n.
Proof. induction d as [|a d IH]; simpl; [reflexivity|]. now rewrite String.eqb_refl. Qed.

Lemma iterdir_app (fs l : FS.t) (d : FS.Path) :
  FS.iterdir (fs ++ l) d = FS.iterdir fs d ++ FS.iterdir l d.
Proof. unfold FS.iterdir. apply flat_map_app. Qed.

(** Writing outside [d] leaves the listing of [d] as it was. *)
Lemma iterdir_put (fs : FS.t) (d p : FS.Path) (n : FS.Node) :
  FS.child_name d p = None -> FS.iterdir (FS.put fs p n) d = FS.iterdir fs d.
Proof.
  intros Hp. unfold FS.put. destruct (FS.exists_ fs p).
  - unfold FS.iterdir. induction fs as [|e fs IH]; simpl; [reflexivity|].
    rewrite IH. f_equal.
    destruct (FS.path_eqb (fst e) p) eqn:E; [|reflexivity].
    apply FSFacts.path_eqb_eq in E. simpl. now rewrite <- E in Hp |- *; rewrite Hp.
  - rewrite iterdir_app. unfold FS.iterdir at 2. simpl. rewrite Hp. now rewrite app_nil_r.
Qed.

Lemma iterdir_mkdir_p (fs : FS.t) (d p : FS.Path) :
  FS.is_prefix d p = false -> FS.iterdir (FS.mkdir_p fs p) d = FS.iterdir fs d.
Proof.
  intros Hp. unfold FS.mkdir_p. generalize (seq 1 (List.length p)). intros ks. revert fs.
  induction ks as [|k ks IH]; intros fs; simpl; [reflexivity|].
  rewrite IH. destruct (FS.exists_ fs (firstn k p)); [reflexivity|].
  rewrite iterdir_app. unfold FS.iterdir at 2. simpl.
  destruct (FS.child_name d (firstn k p)) as [n|] eqn:E; [|now rewrite app_nil_r].
  exfalso. apply child_name_prefix in E. apply is_prefix_spec in E. destruct E as [x E].
  assert (Hd : FS.is_prefix d p = true).
  { rewrite <- (firstn_skipn k p), E, <- app_assoc. apply is_prefix_app. }
  congruence.
Qed.

Lemma iterdir_filter_incl (f : FS.Path * FS.Node -> bool) (fs : FS.t) (d : FS.Path) (n : string) :
  In n (FS.iterdir (filter f fs) d) -> In n (FS.iterdir fs d).
Proof.
  unfold FS.iterdir. rewrite !in_flat_map. intros (e & He & Hn).
  apply filter_In in He. exists e. now split; [apply He|].
Qed.

Lemma iterdir_entry (fs : FS.t) (d : FS.Path) (n : string) :
  In n (FS.iterdir fs d) -> exists node, In (d ++ [n], node) fs.
Proof.
  unfold FS.iterdir. rewrite in_flat_map. intros ([p node] & He & Hn). simpl in Hn.
  destruct (FS.child_name d p) as [m|] eqn:E; [|contradiction].
  destruct Hn as [<- | []]. apply child_name_spec in E. subst p. now exists node.
Qed.

Lemma lookup_none_not_in (fs : FS.t) (p : FS.Path) (node : FS.Node) :
  FS.lookup fs p = None -> ~ In (p, node) fs.
Proof.
  unfold FS.lookup. intros H Hin.
  destruct (find (fun e => FS.path_eqb (fst e) p) fs) as [e|] eqn:E; [discriminate|].
  pose proof (find_none _ _ E _ Hin) as Hf. simpl in Hf.
  now rewrite FSFacts.path_eqb_refl in Hf.
Qed.

End ListingFacts.

Lemma for_each_update_fs {A} (l : list A) (f : A -> FS.t -> FS.t) (s : State) :
  for_each l (fun x => update_fs (f x)) s
  = (Ok tt, mkState (fold_left (fun fs x => f x fs) l (st_fs s)) (st_trace s)).
Proof.
  revert s. induction l as [|x l IH]; intros s; simpl; [now destruct s|].
  unfold bind, update_fs at 1. now rewrite IH.
Qed.

Lemma for_each_invariant {A} (Inv : FS.t -> Prop) (l : list A) (body : A -> M unit) :
  (forall x s, Inv (st_fs s) ->
     fst (body x s) = Ok tt /\ Inv (st_fs (snd (body x s)))) ->
  forall s, Inv (st_fs s) ->
    fst (for_each l body s) = Ok tt /\ Inv (st_fs (snd (for_each l body s))).
Proof.
  intros Hb. induction l as [|x l IH]; intros s Hs; simpl; [now split|].
  unfold bind. destruct (Hb x s Hs) as [Ho Hi].
  destruct (body x s) as [o s1]. cbn [fst snd] in Ho, Hi. subst o. now apply IH.
Qed.

(** ** The data directory before the copy-back *)

Section Purge.

Variable cfg : Config.
Variable env : Env.

Hypothesis datadir_outside_backups :
  FS.is_prefix (BACKUP_BASE_DIR cfg) (MYSQL_DATA_DIR cfg) = false.
Hypothesis backups_outside_datadir :
  FS.is_prefix (MYSQL_DATA_DIR cfg) (BACKUP_BASE_DIR cfg) = false.

Lemma is_prefix_app_l (a b p : FS.Path) :
  FS.is_prefix (a ++ b) p = true -> FS.is_prefix a p = true.
Proof.
  revert p. induction a as [|x a IH]; intros p; simpl; [reflexivity|].
  destruct p as [|y p]; [discriminate|].
  rewrite !andb_true_iff. intros [Hxy H]. split; [exact Hxy | now apply IH].
Qed.

Lemma datadir_not_above (c x : FS.Path) :
  FS.is_prefix (MYSQL_DATA_DIR cfg) ((BACKUP_BASE_DIR cfg ++ c) ++ x) = false.
Proof.
  destruct (FS.is_prefix (MYSQL_DATA_DIR cfg) ((BACKUP_BASE_DIR cfg ++ c) ++ x)) eqn:E;
    [|reflexivity].
  exfalso. rewrite <- app_assoc in E.
  apply ListingFacts.is_prefix_app_cases in E. destruct E as [E | E]; congruence.
Qed.

Lemma child_outside (c x : FS.Path) :
  FS.child_name (MYSQL_DATA_DIR cfg) ((BACKUP_BASE_DIR cfg ++ c) ++ x) = None.
Proof.
  destruct (FS.child_name (MYSQL_DATA_DIR cfg) ((BACKUP_BASE_DIR cfg ++ c) ++ x))
    as [n|] eqn:E; [|reflexivity].
  apply ListingFacts.child_name_prefix in E. now rewrite datadir_not_above in E.
Qed.

Lemma iterdir_copy2 (fs : FS.t) (src c x : FS.Path) :
  FS.iterdir (FS.copy2 fs src ((BACKUP_BASE_DIR cfg ++ c) ++ x)) (MYSQL_DATA_DIR cfg)
  = FS.iterdir fs (MYSQL_DATA_DIR cfg).
Proof.
  unfold FS.copy2. destruct (FS.read_text fs src); [|reflexivity].
  apply ListingFacts.iterdir_put, child_outside.
Qed.

Lemma iterdir_copytree (fs : FS.t) (src c x : FS.Path) :
  FS.iterdir (FS.copytree fs src ((BACKUP_BASE_DIR cfg ++ c) ++ x)) (MYSQL_DATA_DIR cfg)
  = FS.iterdir fs (MYSQL_DATA_DIR cfg).
Proof.
  unfold FS.copytree. generalize fs at 1. intros l. revert fs.
  induction l as [|en l IH]; intros fs; simpl; [reflexivity|].
  rewrite IH. destruct (FS.is_prefix src (fst en)); [|reflexivity].
  apply ListingFacts.iterdir_put.
  rewrite <- (app_assoc (BACKUP_BASE_DIR cfg ++ c)). apply child_outside.
Qed.

(** The emptying loop of lines 1191-1199. *)
Lemma emptied (items : list string) (fs : FS.t) :
  Forall (fun n => component n = true) items ->
  (forall n, In n (FS.iterdir fs (MYSQL_DATA_DIR cfg)) -> In n items) ->
  FS.iterdir
    (fold_left (fun fs item =>
                  if FS.is_file fs (FS.join (MYSQL_DATA_DIR cfg) item)
                  then FS.unlink fs (FS.join (MYSQL_DATA_DIR cfg) item)
                  else if FS.is_dir fs (FS.join (MYSQL_DATA_DIR cfg) item)
                  then FS.rmtree fs (FS.join (MYSQL_DATA_DIR cfg) item)
                  else fs)
               items fs)
    (MYSQL_DATA_DIR cfg) = [].
Proof.
  revert fs. induction items as [|a items IH]; intros fs Hclean Hcover; simpl.
  - destruct (FS.iterdir fs (MYSQL_DATA_DIR cfg)) as [|n l]; [reflexivity|].
    now contradiction (Hcover n (or_introl eq_refl)).
  - inversion Hclean as [|? ? Ha Hrest]; subst.
    rewrite (ListingFacts.join_component _ a Ha).
    apply IH; [exact Hrest|]. intros n Hn.
    assert (Hsub : In n (FS.iterdir fs (MYSQL_DATA_DIR cfg))
                   /\ ~ (n = a)).
    { unfold FS.is_file, FS.is_dir in Hn.
      destruct (FS.lookup fs (MYSQL_DATA_DIR cfg ++ [a])) as [[|c]|] eqn:El.
      - split; [now apply (ListingFacts.iterdir_filter_incl _ _ _ _ Hn)|].
        intros ->. apply ListingFacts.iterdir_entry in Hn. destruct Hn as [node Hin].
        unfold FS.rmtree in Hin. apply filter_In in Hin. destruct Hin as [_ Hf].
        cbn [fst] in Hf. now rewrite ListingFacts.is_prefix_refl in Hf.
      - split; [now apply (ListingFacts.iterdir_filter_incl _ _ _ _ Hn)|].
        intros ->. apply ListingFacts.iterdir_entry in Hn. destruct Hn as [node Hin].
        unfold FS.unlink in Hin. apply filter_In in Hin. destruct Hin as [_ Hf].
        cbn [fst] in Hf. now rewrite FSFacts.path_eqb_refl in Hf.
      - split; [exact Hn|].
        intros ->. apply ListingFacts.iterdir_entry in Hn. destruct Hn as [node Hin].
        now apply (ListingFacts.lookup_none_not_in _ _ node El). }
    destruct Hsub as [Hin Hne]. destruct (Hcover n Hin) as [E | H]; [congruence | exact H].
Qed.

End Purge.

(** X22.  When the backup directory and the data directory lie apart and
    the entries of the data directory carry ordinary file names, the purge
    that precedes the copy-back returns normally, runs no tool and leaves
    the data directory with an empty listing ([xtrabackup --copy-back]
    refuses a data directory that is not empty). *)
Theorem X22_data_directory_is_empty_before_copy_back
    (cfg : Config) (env : Env) (s : State) :
  FS.is_prefix (BACKUP_BASE_DIR cfg) (MYSQL_DATA_DIR cfg) = false ->
  FS.is_prefix (MYSQL_DATA_DIR cfg) (BACKUP_BASE_DIR cfg) = false ->
  FS.exists_ (st_fs s) (MYSQL_DATA_DIR cfg) = true ->
  Forall (fun n => component n = true) (FS.iterdir (st_fs s) (MYSQL_DATA_DIR cfg)) ->
  let run := purge_datadir cfg env s in
  fst run = Ok tt
  /\ st_trace (snd run) = st_trace s
  /\ FS.iterdir (st_fs (snd run)) (MYSQL_DATA_DIR cfg) = [].
Proof.
  intros Hout1 Hout2 Hex Hclean run.
  assert (H : exists s', purge_datadir cfg env s = (Ok tt, s')
                         /\ st_trace s' = st_trace s
                         /\ FS.iterdir (st_fs s') (MYSQL_DATA_DIR cfg) = []);
    [|destruct H as (s' & E & Ht & Hl); subst run; rewrite E; now repeat split].
  clear run. unfold purge_datadir. rewrite bind_get_fs, Hex.
  destruct (FS.iterdir (st_fs s) (MYSQL_DATA_DIR cfg)) as [|n0 l0] eqn:Hls.
  - exists s. now repeat split.
  - rewrite <- Hls in Hclean.
    set (existing_backup :=
           FS.join (BACKUP_BASE_DIR cfg)
                   ("existing_data_backup_" ++ now_existing_backup env)).
    unfold bind at 1, update_fs at 1. rewrite bind_get_fs. cbn [st_fs st_trace].
    set (s1 := mkState (FS.mkdir_p (st_fs s) existing_backup) (st_trace s)).
    assert (H1 : FS.iterdir (st_fs s1) (MYSQL_DATA_DIR cfg)
                 = FS.iterdir (st_fs s) (MYSQL_DATA_DIR cfg)).
    { subst s1. cbn [st_fs]. apply ListingFacts.iterdir_mkdir_p.
      unfold existing_backup, FS.join.
      rewrite <- (app_nil_r (BACKUP_BASE_DIR cfg ++ _)).
      now apply datadir_not_above. }
    change (FS.mkdir_p (st_fs s) existing_backup) with (st_fs s1).
    match goal with
    | |- context [bind (for_each (FS.iterdir (st_fs s1) (MYSQL_DATA_DIR cfg)) ?body) _] =>
        pose proof (for_each_invariant
                      (fun fs => FS.iterdir fs (MYSQL_DATA_DIR cfg)
                                 = FS.iterdir (st_fs s) (MYSQL_DATA_DIR cfg))
                      (FS.iterdir (st_fs s1) (MYSQL_DATA_DIR cfg)) body) as Hcopy;
        pose proof (emits_for_each (fun _ => False)
                      (FS.iterdir (st_fs s1) (MYSQL_DATA_DIR cfg)) body) as Hsilent;
        assert (Hb : forall x, emits (fun _ => False) (body x))
          by (intros item; cbv beta; destruct (negb _);
              [apply emits_update_fs | apply emits_ret]);
        specialize (Hsilent Hb); clear Hb;
        unfold bind at 1;
        destruct (for_each (FS.iterdir (st_fs s1) (MYSQL_DATA_DIR cfg)) body s1)
          as [o s2] eqn:Hrun
    end.
    destruct (Hcopy) with (s := s1) as [Hok H2].
    { intros item s0 Hs0. destruct (negb _); [|now split].
      unfold update_fs. cbn [fst snd st_fs]. split; [reflexivity|].
      rewrite <- Hs0. unfold existing_backup, FS.join.
      destruct (FS.is_file (st_fs s0) _); [now apply iterdir_copy2|].
      destruct (FS.is_dir (st_fs s0) _); [now apply iterdir_copytree | reflexivity]. }
    { exact H1. }
    rewrite Hrun in Hok, H2. cbn [fst snd] in Hok, H2. subst o.
    rewrite bind_get_fs, for_each_update_fs.
    eexists. split; [reflexivity|]. cbn [st_fs st_trace]. split.
    + apply (silent_run _ _ _ _ Hsilent Hrun).
    + apply emptied; [now rewrite H2 | now intros n Hn].
Qed.

(** The live data directory of the sample worlds: an index, a binlog and a
    data file. *)
Lemma X22_data_directory_is_empty_before_copy_back_witness :
  FS.iterdir (st_fs (snd (purge_datadir Worlds.cfg_local Worlds.env_ok
                            (mkState Worlds.fs_one_full []))))
             (FS.of_string "/var/lib/mysql") = [].
Proof.
  apply (X22_data_directory_is_empty_before_copy_back Worlds.cfg_local Worlds.env_ok
           (mkState Worlds.fs_one_full [])).
  - reflexivity.
  - reflexivity.
  - reflexivity.
  - vm_compute. repeat constructor.
Defined.

(** ** What the purge keeps *)

Lemma lookup_copy2_other (fs : FS.t) (src dst q : FS.Path) :
  dst <> q -> FS.lookup (FS.copy2 fs src dst) q = FS.lookup fs q.
Proof.
  intros H. unfold FS.copy2, FS.write_text.
  destruct (FS.read_text fs src); [now apply FSFacts.lookup_put_other | reflexivity].
Qed.

Lemma lookup_copytree_other (fs : FS.t) (src dst q : FS.Path) :
  (forall y, dst ++ y <> q) -> FS.lookup (FS.copytree fs src dst) q = FS.lookup fs q.
Proof.
  intros H. unfold FS.copytree. generalize fs at 1. intros l. revert fs.
  induction l as [|en l IH]; intros fs; simpl; [reflexivity|].
  rewrite IH. destruct (FS.is_prefix src (fst en)); [|reflexivity].
  apply FSFacts.lookup_put_other, H.
Qed.

Lemma lookup_rmtree_other (fs : FS.t) (p q : FS.Path) :
  FS.is_prefix p q = false -> FS.lookup (FS.rmtree fs p) q = FS.lookup fs q.
Proof.
  intros H. unfold FS.lookup, FS.rmtree. induction fs as [|e fs IH]; simpl; [reflexivity|].
  destruct (FS.is_prefix p (fst e)) eqn:Ep; simpl.
  - destruct (FS.path_eqb (fst e) q) eqn:Eq; [|exact IH].
    apply FSFacts.path_eqb_eq in Eq. congruence.
  - destruct (FS.path_eqb (fst e) q); [reflexivity | exact IH].
Qed.

Section Saved.

Variable cfg : Config.
Variable env : Env.

Hypothesis datadir_outside_backups :
  FS.is_prefix (BACKUP_BASE_DIR cfg) (MYSQL_DATA_DIR cfg) = false.
Hypothesis backups_outside_datadir :
  FS.is_prefix (MYSQL_DATA_DIR cfg) (BACKUP_BASE_DIR cfg) = false.

Variable n : string.
Variable c : string.
Hypothesis n_component : component n = true.
Hypothesis n_not_binlog : PyStr.startswith "mysql-bin." n = false.

Lemma outside_neq (c0 x y : FS.Path) :
  (BACKUP_BASE_DIR cfg ++ c0) ++ x <> MYSQL_DATA_DIR cfg ++ y.
Proof.
  intros E.
  pose proof (datadir_not_above cfg datadir_outside_backups backups_outside_datadir c0 x) as H.
  now rewrite E, ListingFacts.is_prefix_app in H.
Qed.

(** The copy loop of lines 1179-1187, from any state in which the file is
    still in the data directory. *)
Lemma copied_aside (c0 : FS.Path) (l : list string) (s0 : State) :
  Forall (fun m => component m = true) l ->
  FS.read_text (st_fs s0) (MYSQL_DATA_DIR cfg ++ [n]) = Some c ->
  In n l \/ FS.read_text (st_fs s0) ((BACKUP_BASE_DIR cfg ++ c0) ++ [n]) = Some c ->
  let run :=
    for_each l
      (fun item =>
         if negb (PyStr.startswith "mysql-bin." item)
         then update_fs
                (fun fs =>
                   if FS.is_file fs (FS.join (MYSQL_DATA_DIR cfg) item)
                   then FS.copy2 fs (FS.join (MYSQL_DATA_DIR cfg) item)
                                 (FS.join (BACKUP_BASE_DIR cfg ++ c0) item)
                   else if FS.is_dir fs (FS.join (MYSQL_DATA_DIR cfg) item)
                   then FS.copytree fs (FS.join (MYSQL_DATA_DIR cfg) item)
                                    (FS.join (BACKUP_BASE_DIR cfg ++ c0) item)
                   else fs)
         else ret tt) s0 in
  FS.read_text (st_fs (snd run)) ((BACKUP_BASE_DIR cfg ++ c0) ++ [n]) = Some c.
Proof.
  revert s0. induction l as [|m l IH]; intros s0 Hclean Hsrc Hn; cbv zeta.
  - destruct Hn as [[] | H]. exact H.
  - inversion Hclean as [|? ? Hm Hrest]; subst. cbn [for_each]. unfold bind.
    rewrite !(ListingFacts.join_component _ m Hm).
    destruct (negb (PyStr.startswith "mysql-bin." m)) eqn:Hbin.
    + unfold update_fs at 1. cbn [fst snd st_fs].
      apply IH; [exact Hrest | |]; cbn [st_fs].
      * unfold FS.read_text.
        destruct (FS.is_file (st_fs s0) (MYSQL_DATA_DIR cfg ++ [m])).
        { rewrite lookup_copy2_other; [exact Hsrc|]. apply outside_neq. }
        destruct (FS.is_dir (st_fs s0) (MYSQL_DATA_DIR cfg ++ [m])); [|exact Hsrc].
        rewrite lookup_copytree_other; [exact Hsrc|].
        intros y. rewrite <- app_assoc. apply outside_neq.
      * destruct (String.eqb_spec m n) as [-> | Hne].
        { right.
          assert (Hl : FS.lookup (st_fs s0) (MYSQL_DATA_DIR cfg ++ [n])
                       = Some (FS.File c)).
          { revert Hsrc. unfold FS.read_text.
            destruct (FS.lookup (st_fs s0) (MYSQL_DATA_DIR cfg ++ [n])) as [[|c1]|];
              try discriminate.
            now intros [= ->]. }
          unfold FS.is_file. rewrite Hl. unfold FS.copy2. rewrite Hsrc.
          unfold FS.write_text, FS.read_text. now rewrite FSFacts.lookup_put_same. }
        destruct Hn as [[E | Hin] | Hdst]; [congruence | now left | right].
        unfold FS.read_text.
        destruct (FS.is_file (st_fs s0) (MYSQL_DATA_DIR cfg ++ [m])).
        { rewrite lookup_copy2_other; [exact Hdst|].
          intros E. apply app_inv_head in E. congruence. }
        destruct (FS.is_dir (st_fs s0) (MYSQL_DATA_DIR cfg ++ [m])); [|exact Hdst].
        rewrite lookup_copytree_other; [exact Hdst|].
        intros y E. rewrite <- app_assoc in E. apply app_inv_head in E.
        injection E as E _. congruence.
    + cbn [ret]. apply IH; [exact Hrest | exact Hsrc |].
      destruct Hn as [[E | Hin] | Hdst]; [|now left | now right].
      subst m. rewrite n_not_binlog in Hbin. discriminate.
Qed.

(** The emptying loop does not reach into the backup directory. *)
Lemma kept_aside (c0 x : FS.Path) (l : list string) (fs : FS.t) :
  FS.lookup
    (fold_left (fun fs item =>
                  if FS.is_file fs (FS.join (MYSQL_DATA_DIR cfg) item)
                  then FS.unlink fs (FS.join (MYSQL_DATA_DIR cfg) item)
                  else if FS.is_dir fs (FS.join (MYSQL_DATA_DIR cfg) item)
                  then FS.rmtree fs (FS.join (MYSQL_DATA_DIR cfg) item)
                  else fs)
               l fs)
    ((BACKUP_BASE_DIR cfg ++ c0) ++ x)
  = FS.lookup fs ((BACKUP_BASE_DIR cfg ++ c0) ++ x).
Proof.
  revert fs. induction l as [|m l IH]; intros fs; simpl; [reflexivity|].
  rewrite IH. unfold FS.join.
  destruct (FS.is_file fs _).
  - apply FSFacts.lookup_unlink_other. intros E. symmetry in E. now apply outside_neq in E.
  - destruct (FS.is_dir fs _); [|reflexivity].
    apply lookup_rmtree_other.
    destruct (FS.is_prefix (MYSQL_DATA_DIR cfg ++ FS.of_string m)
                           ((BACKUP_BASE_DIR cfg ++ c0) ++ x)) eqn:E; [|reflexivity].
    apply is_prefix_app_l in E.
    now rewrite (datadir_not_above cfg datadir_outside_backups backups_outside_datadir) in E.
Qed.

End Saved.

(** X23.  Nothing but binlogs is deleted without a copy: when the backup
    directory and the data directory lie apart and the entries of the data
    directory carry ordinary file names, every regular file that lies
    directly in the data directory and whose name does not begin with
    [mysql-bin.] is found after the purge, with the same content, in
    [existing_data_backup_<now>] under the backup directory. *)
Theorem X23_purged_files_are_saved_aside
    (cfg : Config) (env : Env) (s : State) (n c : string) :
  FS.is_prefix (BACKUP_BASE_DIR cfg) (MYSQL_DATA_DIR cfg) = false ->
  FS.is_prefix (MYSQL_DATA_DIR cfg) (BACKUP_BASE_DIR cfg) = false ->
  FS.exists_ (st_fs s) (MYSQL_DATA_DIR cfg) = true ->
  Forall (fun m => component m = true) (FS.iterdir (st_fs s) (MYSQL_DATA_DIR cfg)) ->
  In n (FS.iterdir (st_fs s) (MYSQL_DATA_DIR cfg)) ->
  PyStr.startswith "mysql-bin." n = false ->
  FS.read_text (st_fs s) (FS.join (MYSQL_DATA_DIR cfg) n) = Some c ->
  let existing_backup :=
    FS.join (BACKUP_BASE_DIR cfg) ("existing_data_backup_" ++ now_existing_backup env) in
  FS.read_text (st_fs (snd (purge_datadir cfg env s))) (FS.join existing_backup n)
  = Some c.
Proof.
  intros Hout1 Hout2 Hex Hclean Hin Hbin Hsrc existing_backup.
  assert (Hn : component n = true)
    by exact (proj1 (Forall_forall _ _) Hclean n Hin).
  rewrite (ListingFacts.join_component (MYSQL_DATA_DIR cfg) n Hn) in Hsrc.
  rewrite (ListingFacts.join_component existing_backup n Hn).
  unfold purge_datadir. rewrite bind_get_fs, Hex.
  destruct (FS.iterdir (st_fs s) (MYSQL_DATA_DIR cfg)) as [|n0 l0] eqn:Hls;
    [contradiction|].
  rewrite <- Hls in Hclean, Hin. fold existing_backup.
  unfold bind at 1, update_fs at 1. rewrite bind_get_fs. cbn [st_fs st_trace].
  set (s1 := mkState (FS.mkdir_p (st_fs s) existing_backup) (st_trace s)).
  assert (H1 : FS.iterdir (st_fs s1) (MYSQL_DATA_DIR cfg)
               = FS.iterdir (st_fs s) (MYSQL_DATA_DIR cfg)).
  { subst s1. cbn [st_fs]. apply ListingFacts.iterdir_mkdir_p.
    unfold existing_backup, FS.join.
    rewrite <- (app_nil_r (BACKUP_BASE_DIR cfg ++ _)).
    now apply datadir_not_above. }
  assert (Hsrc1 : FS.read_text (st_fs s1) (MYSQL_DATA_DIR cfg ++ [n]) = Some c).
  { subst s1. cbn [st_fs]. revert Hsrc. unfold FS.read_text.
    destruct (FS.lookup (st_fs s) (MYSQL_DATA_DIR cfg ++ [n])) as [node|] eqn:E;
      [|discriminate].
    now rewrite (FSFacts.lookup_mkdir_p _ _ _ _ E). }
  change (FS.mkdir_p (st_fs s) existing_backup) with (st_fs s1).
  pose proof (copied_aside cfg Hout1 Hout2 n c Hbin
                (FS.of_string ("existing_data_backup_" ++ now_existing_backup env))
                (FS.iterdir (st_fs s1) (MYSQL_DATA_DIR cfg)) s1
                ltac:(now rewrite H1) Hsrc1 ltac:(left; now rewrite H1)) as Hcopy.
  cbv zeta in Hcopy.
  match goal with
  | |- context [bind (for_each (FS.iterdir (st_fs s1) (MYSQL_DATA_DIR cfg)) ?body) _] =>
      destruct (for_each_invariant (fun _ => True)
                  (FS.iterdir (st_fs s1) (MYSQL_DATA_DIR cfg)) body) with (s := s1)
        as [Hok _];
      [intros item s0 _; cbv beta; destruct (negb _); now split | exact I |];
      unfold bind at 1;
      assert (Hdst : FS.read_text
                       (st_fs (snd (for_each (FS.iterdir (st_fs s1) (MYSQL_DATA_DIR cfg))
                                             body s1)))
                       (existing_backup ++ [n]) = Some c) by exact Hcopy;
      clear Hcopy;
      destruct (for_each (FS.iterdir (st_fs s1) (MYSQL_DATA_DIR cfg)) body s1)
        as [o s2] eqn:Hrun
  end.
  cbn [fst snd] in Hok, Hdst. subst o.
  rewrite bind_get_fs, for_each_update_fs. cbn [snd st_fs].
  unfold FS.read_text. unfold existing_backup, FS.join.
  rewrite (kept_aside cfg Hout1 Hout2). exact Hdst.
Qed.

(** The data file of the sample worlds' live data directory. *)
Lemma X23_purged_files_are_saved_aside_witness :
  FS.read_text (st_fs (snd (purge_datadir Worlds.cfg_local Worlds.env_ok
                              (mkState Worlds.fs_one_full []))))
               (FS.of_string "/backups/existing_data_backup_20250110_000001/ibdata1")
  = Some "data".
Proof.
  apply (X23_purged_files_are_saved_aside Worlds.cfg_local Worlds.env_ok
           (mkState Worlds.fs_one_full []) "ibdata1" "data").
  - reflexivity.
  - reflexivity.
  - reflexivity.
  - vm_compute. repeat constructor.
  - vm_compute. auto.
  - reflexivity.
  - reflexivity.
Defined.

(** ** The DDL filter *)

Module DdlFacts.

Import DdlFilter.

Lemma scan_subseq (st : Scan) (lines : list string) : Subseq (scan st lines) lines.
Proof.
  revert st. induction lines as [|line rest IH]; intros st; simpl; [constructor|].
  destruct (step st line) as [st' [|]]; constructor; apply IH.
Qed.

(** The three patterns that open a table statement. *)
Lemma step_plain (line : string) :
  create_table_pattern line = false ->
  drop_table_pattern line = false ->
  alter_table_pattern line = false ->
  step start line = (start, true).
Proof.
  intros Hc Hd Ha. unfold step. rewrite Hc, Hd, Ha. cbn [andb start in_create_table skip_ddl].
  now destruct (comment_pattern line).
Qed.

Lemma scan_plain (lines : list string) :
  Forall (fun line => create_table_pattern line = false
                      /\ drop_table_pattern line = false
                      /\ alter_table_pattern line = false) lines ->
  scan start lines = lines.
Proof.
  induction 1 as [|line rest (Hc & Hd & Ha) _ IH]; simpl; [reflexivity|].
  now rewrite (step_plain line Hc Hd Ha), IH.
Qed.

Lemma concat_keepends (s : string) : String.concat "" (keepends s) = s.
Proof.
  induction s as [|c s IH]; simpl; [reflexivity|].
  destruct (Ascii.eqb_spec c PyStr.LF) as [-> | Hne].
  - destruct (keepends s) as [|h t] eqn:E; simpl in *; [now rewrite <- IH|].
    now rewrite <- IH.
  - destruct (keepends s) as [|h t] eqn:E; simpl in *; [now rewrite <- IH|].
    rewrite <- IH. now destruct t.
Qed.

(** A line that matches the comment pattern does not open a table
    statement: the two begin with different characters. *)
Lemma keyword_head (kw : string) (k c : ascii) (r r' : string) :
  k <> "I"%char -> k <> "S"%char -> k <> "K"%char ->
  keyword (String k kw) (String c r) = Some r' -> PyStr.to_upper c = k.
Proof.
  intros HI HS HK. cbn [keyword].
  destruct (Ascii.eqb_spec k (PyStr.to_upper c)) as [-> | _]; [reflexivity|].
  unfold folded.
  destruct (Ascii.eqb_spec k "I"); [contradiction|].
  destruct (Ascii.eqb_spec k "S"); [contradiction|].
  destruct (Ascii.eqb_spec k "K"); [contradiction|].
  cbn [andb]. destruct r as [|c2 [|c3 r3]]; discriminate.
Qed.

Lemma comment_head (line : string) :
  comment_pattern line = true ->
  exists c r, lstrip line = String c r
              /\ (PyStr.to_upper c = "#" \/ PyStr.to_upper c = "/"
                  \/ PyStr.to_upper c = "-" \/ PyStr.to_upper c = "B")%char.
Proof.
  unfold comment_pattern. destruct (lstrip line) as [|c r]; [discriminate|].
  intros H. exists c, r. split; [reflexivity|].
  rewrite !orb_true_iff in H. unfold matched in H.
  destruct H as [[[H | H] | H] | H].
  - destruct (keyword "#" (String c r)) eqn:E; [|discriminate].
    left. now apply keyword_head in E.
  - destruct (keyword "/*" (String c r)) eqn:E; [|discriminate].
    right. left. now apply keyword_head in E.
  - destruct (keyword "--" (String c r)) eqn:E; [|discriminate].
    right. right. left. now apply keyword_head in E.
  - destruct (keyword "BINLOG" (String c r)) eqn:E; [|discriminate].
    right. right. right. now apply keyword_head in E.
Qed.

Lemma comment_is_no_keyword (k : ascii) (kw line : string) :
  k <> "#"%char -> k <> "/"%char -> k <> "-"%char -> k <> "B"%char ->
  k <> "I"%char -> k <> "S"%char -> k <> "K"%char ->
  comment_pattern line = true ->
  keyword (String k kw) (lstrip line) = None.
Proof.
  intros H1 H2 H3 H4 HI HS HK Hc.
  destruct (comment_head line Hc) as (c & r & -> & Hhead).
  destruct (keyword (String k kw) (String c r)) as [r'|] eqn:E; [|reflexivity].
  apply keyword_head in E; try assumption.
  destruct Hhead as [H | [H | [H | H]]]; congruence.
Qed.

Lemma comment_is_plain (line : string) :
  comment_pattern line = true ->
  create_table_pattern line = false
  /\ drop_table_pattern line = false
  /\ alter_table_pattern line = false.
Proof.
  intros H. unfold create_table_pattern, drop_table_pattern, alter_table_pattern, verb_table.
  rewrite !(comment_is_no_keyword _ _ line) by (exact H || discriminate).
  now repeat split.
Qed.

Lemma scan_no_table_line (st : Scan) (lines : list string) :
  Forall (fun line => create_table_pattern line = false
                      /\ drop_table_pattern line = false
                      /\ alter_table_pattern line = false) (scan st lines).
Proof.
  revert st. induction lines as [|line rest IH]; intros st; simpl; [constructor|].
  destruct (step st line) as [st' written] eqn:E.
  destruct written; [|apply IH]. constructor; [|apply IH].
  revert E. unfold step.
  destruct (comment_pattern line) eqn:Hcm; [intros _; now apply comment_is_plain|].
  cbn [negb]. rewrite !andb_true_r.
  destruct (create_table_pattern line); [discriminate|].
  destruct (drop_table_pattern line); [discriminate|].
  destruct (alter_table_pattern line); [discriminate|].
  now repeat split.
Qed.

End DdlFacts.

(** X24.  [filter_ddl_statements] only leaves lines out: for a readable
    source other than the output file, and an output file that can be
    opened for writing, it reports success, the lines it writes are a
    subsequence of the lines of the source -- decoded as UTF-8 with the
    undecodable bytes left out, line ends read as LF -- in their order and
    unchanged, the count it returns is their number, and the output file
    holds exactly their concatenation. *)
Theorem X24_filter_only_leaves_lines_out
    (fs : FS.t) (sql_file output_file : FS.Path) (content : string) :
  FS.read_text fs sql_file = Some content ->
  sql_file <> output_file ->
  FS.can_open_w fs output_file = true ->
  exists written,
    DdlFilter.filter_ddl_statements fs sql_file output_file
    = (true, List.length written,
       FS.write_text fs output_file (String.concat "" written))
    /\ Subseq written (DdlFilter.readlines content)
    /\ FS.read_text (FS.write_text fs output_file (String.concat "" written)) output_file
       = Some (String.concat "" written).
Proof.
  intros Hread Hne Hopen. exists (DdlFilter.filter_lines (DdlFilter.readlines content)).
  unfold DdlFilter.filter_ddl_statements.
  rewrite Hread, Hopen, (FSFacts.path_eqb_neq _ _ Hne). split; [reflexivity|].
  split; [apply DdlFacts.scan_subseq|].
  unfold FS.read_text, FS.write_text. now rewrite FSFacts.lookup_put_same.
Qed.

(** Four statements, the second a DROP TABLE. *)
Lemma X24_filter_only_leaves_lines_out_witness :
  exists written,
    Subseq written (DdlFilter.readlines (String.concat "" DdlWorlds.statements)).
Proof.
  destruct (X24_filter_only_leaves_lines_out DdlWorlds.fs_replay
              (FS.of_string "/backups/replay.sql") (FS.of_string "/backups/filtered.sql")
              (String.concat "" DdlWorlds.statements))
    as (written & _ & Hsub & _).
  - reflexivity.
  - discriminate.
  - reflexivity.
  - now exists written.
Defined.

(** X25.  A source in which no line opens a CREATE, DROP or ALTER TABLE
    statement passes through whole: the output file holds the text of the
    source as it was read (undecodable bytes left out, line ends read as
    LF) and the count is the number of its lines. *)
Theorem X25_filter_passes_plain_text
    (fs : FS.t) (sql_file output_file : FS.Path) (content : string) :
  FS.read_text fs sql_file = Some content ->
  sql_file <> output_file ->
  FS.can_open_w fs output_file = true ->
  Forall (fun line => DdlFilter.create_table_pattern line = false
                      /\ DdlFilter.drop_table_pattern line = false
                      /\ DdlFilter.alter_table_pattern line = false)
         (DdlFilter.readlines content) ->
  DdlFilter.filter_ddl_statements fs sql_file output_file
  = (true, List.length (DdlFilter.readlines content),
     FS.write_text fs output_file (DdlFilter.read content)).
Proof.
  intros Hread Hne Hopen Hplain. unfold DdlFilter.filter_ddl_statements.
  rewrite Hread, Hopen, (FSFacts.path_eqb_neq _ _ Hne).
  unfold DdlFilter.filter_lines. rewrite (DdlFacts.scan_plain _ Hplain).
  unfold DdlFilter.readlines at 2. now rewrite DdlFacts.concat_keepends.
Qed.

(** A BINLOG line ended by CR LF and an INSERT, with a byte that is not
    UTF-8 in its value. *)
Lemma X25_filter_passes_plain_text_witness :
  DdlFilter.filter_ddl_statements DdlWorlds.fs_plain
    (FS.of_string "/backups/replay.sql") (FS.of_string "/backups/filtered.sql")
  = (true, 2,
     FS.write_text DdlWorlds.fs_plain (FS.of_string "/backups/filtered.sql")
       ("BINLOG 'aGVsbG8=';" ++ String PyStr.LF ""
        ++ "INSERT INTO t VALUES ('');" ++ String PyStr.LF "")%string).
Proof.
  apply (X25_filter_passes_plain_text DdlWorlds.fs_plain
           (FS.of_string "/backups/replay.sql") (FS.of_string "/backups/filtered.sql")
           DdlWorlds.plain).
  - reflexivity.
  - discriminate.
  - reflexivity.
  - assert (E : DdlFilter.readlines DdlWorlds.plain
                = [("BINLOG 'aGVsbG8=';" ++ String PyStr.LF "")%string;
                   ("INSERT INTO t VALUES ('');" ++ String PyStr.LF "")%string])
      by (vm_compute; reflexivity).
    rewrite E.
    constructor; [split; [|split]; vm_compute; reflexivity|].
    constructor; [split; [|split]; vm_compute; reflexivity|].
    constructor.
Defined.

(** X26.  No line that opens a CREATE TABLE, DROP TABLE or ALTER TABLE
    statement is ever written, whatever the source holds; the comment and
    BINLOG lines that are let through match none of the three patterns. *)
Theorem X26_filter_writes_no_table_statement (lines : list string) :
  Forall (fun line => DdlFilter.create_table_pattern line = false
                      /\ DdlFilter.drop_table_pattern line = false
                      /\ DdlFilter.alter_table_pattern line = false)
         (DdlFilter.filter_lines lines).
Proof. apply DdlFacts.scan_no_table_line. Qed.

(** X27.  After a line that opens a DROP TABLE or ALTER TABLE statement the
    filter drops everything up to and including the next line with a
    semicolon, and it does not look for the semicolon on the opening line
    itself: when the line after it is an ordinary statement line with a
    semicolon, both lines are left out and the scan goes on as from the
    start. *)
Theorem X27_statement_after_drop_table_is_left_out
    (opening next : string) (rest : list string) :
  DdlFilter.comment_pattern opening = false ->
  DdlFilter.create_table_pattern opening = false ->
  DdlFilter.drop_table_pattern opening = true
  \/ DdlFilter.alter_table_pattern opening = true ->
  DdlFilter.comment_pattern next = false ->
  DdlFilter.create_table_pattern next = false ->
  DdlFilter.drop_table_pattern next = false ->
  DdlFilter.alter_table_pattern next = false ->
  DdlFilter.has ";" next = true ->
  DdlFilter.filter_lines (opening :: next :: rest) = DdlFilter.filter_lines rest.
Proof.
  intros Hc1 Hcr1 Hda Hc2 Hcr2 Hd2 Ha2 Hsemi.
  unfold DdlFilter.filter_lines. cbn [DdlFilter.scan].
  assert (H1 : DdlFilter.step DdlFilter.start opening
               = (DdlFilter.mkScan false true 0, false)).
  { unfold DdlFilter.step. rewrite Hc1, Hcr1. cbn [andb negb].
    destruct Hda as [-> | Ha].
    - reflexivity.
    - rewrite Ha. now destruct (DdlFilter.drop_table_pattern opening). }
  rewrite H1.
  assert (H2 : DdlFilter.step (DdlFilter.mkScan false true 0) next
               = (DdlFilter.start, false)).
  { unfold DdlFilter.step. rewrite Hc2, Hcr2, Hd2, Ha2, Hsemi. reflexivity. }
  now rewrite H2.
Qed.

(** DROP TABLE old_t; followed by an INSERT. *)
Lemma X27_statement_after_drop_table_is_left_out_witness :
  DdlFilter.filter_lines
    [("DROP TABLE old_t;" ++ String PyStr.LF "")%string;
     ("INSERT INTO t VALUES (2);" ++ String PyStr.LF "")%string;
     ("INSERT INTO t VALUES (3);" ++ String PyStr.LF "")%string]
  = [("INSERT INTO t VALUES (3);" ++ String PyStr.LF "")%string].
Proof.
  rewrite X27_statement_after_drop_table_is_left_out;
    try reflexivity.
  now left.
Defined.

(** ** The base prepare *)

(** What [unpack] leaves: its answer is the presence of the checkpoint
    file, it has run [--decompress] at most, and it raises only when the
    tarball of the directory cannot be extracted, before any tool runs. *)
Lemma unpack_run (env : Env) (dir : FS.Path) (s : State) :
  match unpack env dir s with
  | (Ok ready, s') =>
      ready = FS.exists_ (st_fs s') (checkpoints dir)
      /\ (s' = s
          \/ st_trace s' = st_trace s
          \/ st_trace s'
             = st_trace s
               ++ [Xtrabackup ["--decompress"; ("--target-dir=" ++ FS.str dir)%string]])
      /\ (ready = true ->
          FS.exists_ (st_fs s) (checkpoints dir) = true -> s' = s)
  | (Exit1 _, _) => False
  | (Raised, s') =>
      FS.exists_ (st_fs s) (tarball dir) = true /\ st_trace s' = st_trace s
  end.
Proof.
  unfold unpack. rewrite bind_get_fs.
  destruct (FS.exists_ (st_fs s) (checkpoints dir)) eqn:Hck.
  - cbn [ret]. rewrite Hck. now repeat split; auto.
  - unfold bind at 1.
    assert (HA : (exists s0,
                    (if FS.exists_ (st_fs s) (tarball dir)
                     then extract_tarball env (tarball dir) dir else ret tt) s
                    = (Raised, s0)
                    /\ FS.exists_ (st_fs s) (tarball dir) = true
                    /\ st_trace s0 = st_trace s)
                 \/ exists s0,
                      (if FS.exists_ (st_fs s) (tarball dir)
                       then extract_tarball env (tarball dir) dir else ret tt) s
                      = (Ok tt, s0)
                      /\ st_trace s0 = st_trace s).
    { destruct (FS.exists_ (st_fs s) (tarball dir)); [|right; now exists s].
      unfold extract_tarball. destruct (untar env _ _ (st_fs s)) as [[|] fs1].
      - right. now eexists.
      - left. now eexists. }
    destruct HA as [(s0 & -> & Htar & H0) | (s0 & -> & H0)]; [now split|].
    rewrite bind_get_fs. unfold bind at 1.
    assert (HB : exists s1,
               (match FS.glob_suffix (st_fs s0) dir ".zst" with
                | [] => ret tt
                | _ :: _ =>
                    bind (run_xtrabackup env
                            ["--decompress"; ("--target-dir=" ++ FS.str dir)%string])
                         (fun _ => ret tt)
                end) s0 = (Ok tt, s1)
               /\ (st_trace s1 = st_trace s0
                   \/ st_trace s1
                      = st_trace s0
                        ++ [Xtrabackup ["--decompress";
                                        ("--target-dir=" ++ FS.str dir)%string]])).
    { destruct (FS.glob_suffix (st_fs s0) dir ".zst"); [exists s0; now split; auto|].
      unfold bind, run_xtrabackup, ret.
      destruct (xtrabackup env _ (st_fs s0)) as [rc fs1]. eexists. split; [reflexivity|].
      now right. }
    destruct HB as (s1 & -> & H1). rewrite bind_get_fs. cbn [ret].
    split; [reflexivity|]. split; [|intros _ H; discriminate].
    right. rewrite <- H0. exact H1.
Qed.

(** X28.  The base is prepared only with its checkpoint file in place.
    [xtrabackup --prepare --apply-log-only] runs on the base exactly when
    [xtrabackup_checkpoints] is in the base directory, at once or after
    the unpacking; when it is still missing after the unpacking the restore
    ends in [error_exit] without a prepare; the call raises only when the
    tarball of the base cannot be extracted, and then no tool has run. *)
Theorem X28_base_is_prepared_only_with_checkpoints
    (env : Env) (full_backup_dir : FS.Path) (s : State) :
  let run := prepare_base env full_backup_dir s in
  let target := ("--target-dir=" ++ FS.str full_backup_dir)%string in
  let prepare := ["--prepare"; "--apply-log-only"; target] in
  let decompress := ["--decompress"; target] in
  match fst run with
  | Ok _ =>
      exists pre fs,
        st_trace (snd run) = st_trace s ++ pre ++ [Xtrabackup prepare]
        /\ (pre = [] \/ pre = [Xtrabackup decompress])
        /\ FS.exists_ fs (checkpoints full_backup_dir) = true
        /\ st_fs (snd run) = snd (xtrabackup env prepare fs)
  | Exit1 why =>
      why = CheckpointsMissing
      /\ FS.exists_ (st_fs (snd run)) (checkpoints full_backup_dir) = false
      /\ (st_trace (snd run) = st_trace s
          \/ st_trace (snd run) = st_trace s ++ [Xtrabackup decompress])
  | Raised =>
      FS.exists_ (st_fs s) (tarball full_backup_dir) = true
      /\ st_trace (snd run) = st_trace s
  end.
Proof.
  cbv zeta. unfold prepare_base, bind.
  pose proof (unpack_run env full_backup_dir s) as H.
  destruct (unpack env full_backup_dir s) as [[ready | w |] s'];
    [|contradiction | exact H].
  destruct H as (Hready & Htr & _). destruct ready.
  - unfold run_xtrabackup, ret.
    destruct (xtrabackup env _ (st_fs s')) as [rc fs'] eqn:Hx. cbn [fst snd st_trace st_fs].
    destruct Htr as [-> | [Htr | Htr]].
    + exists [], (st_fs s). rewrite Hx. now repeat split; auto.
    + exists [], (st_fs s'). rewrite Hx, Htr. now repeat split; auto.
    + eexists [_], (st_fs s'). rewrite Hx, Htr, <- app_assoc. now repeat split; auto.
  - cbn [fst snd error_exit]. split; [reflexivity|]. split; [now symmetry|].
    destruct Htr as [-> | [Htr | Htr]]; auto.
Qed.

(** ** Binlog files that came with the snapshot *)

Lemma lookup_unlink (fs : FS.t) (p q : FS.Path) :
  FS.lookup (FS.unlink fs p) q = if FS.path_eqb p q then None else FS.lookup fs q.
Proof.
  destruct (FS.path_eqb p q) eqn:E.
  - apply FSFacts.path_eqb_eq in E. subst q. apply FSFacts.lookup_unlink_same.
  - apply FSFacts.lookup_unlink_other. intros ->. now rewrite FSFacts.path_eqb_refl in E.
Qed.

Lemma lookup_in (fs : FS.t) (p : FS.Path) (node : FS.Node) :
  FS.lookup fs p = Some node -> In (p, node) fs.
Proof.
  unfold FS.lookup.
  destruct (find (fun e => FS.path_eqb (fst e) p) fs) as [[q x]|] eqn:E; [|discriminate].
  intros [= <-]. apply find_some in E. destruct E as [Hin Hq]. cbn [fst] in Hq.
  apply FSFacts.path_eqb_eq in Hq. now subst q.
Qed.

Lemma in_iterdir (fs : FS.t) (d : FS.Path) (m : string) (node : FS.Node) :
  In (d ++ [m], node) fs -> In m (FS.iterdir fs d).
Proof.
  intros H. unfold FS.iterdir. apply in_flat_map. exists (d ++ [m], node).
  split; [exact H|]. cbn [fst]. rewrite ListingFacts.child_name_app. now left.
Qed.

Section Unlinked.

Variable d : FS.Path.

(** The loop of lines 1229-1234. *)
Lemma unlinked_stays_gone (l : list string) (fs : FS.t) (q : FS.Path) :
  FS.is_file fs q = false ->
  FS.is_file
    (fold_left (fun fs n => if FS.is_file fs (FS.join d n)
                            then FS.unlink fs (FS.join d n) else fs) l fs) q = false.
Proof.
  revert fs. induction l as [|n l IH]; intros fs H; simpl; [exact H|].
  apply IH. destruct (FS.is_file fs (FS.join d n)); [|exact H].
  unfold FS.is_file in *. rewrite lookup_unlink.
  now destruct (FS.path_eqb (FS.join d n) q).
Qed.

Lemma unlinked (l : list string) (fs : FS.t) (m : string) :
  In m l ->
  FS.is_file
    (fold_left (fun fs n => if FS.is_file fs (FS.join d n)
                            then FS.unlink fs (FS.join d n) else fs) l fs)
    (FS.join d m) = false.
Proof.
  revert fs. induction l as [|n l IH]; intros fs Hin; simpl; [contradiction|].
  destruct Hin as [-> | Hin]; [|now apply IH].
  apply unlinked_stays_gone.
  destruct (FS.is_file fs (FS.join d m)) eqn:E; [|exact E].
  unfold FS.is_file. now rewrite FSFacts.lookup_unlink_same.
Qed.

End Unlinked.

(** X29.  After the removal of the binlog files that came with the snapshot,
    no regular file whose name begins with [mysql-bin.] is left directly in
    the data directory, the index included; the step runs no tool and
    returns normally. *)
Theorem X29_no_snapshot_binlog_is_left
    (cfg : Config) (s : State) (m : string) :
  let run := drop_stale_binlogs cfg s in
  component m = true ->
  String.prefix "mysql-bin." m = true ->
  fst run = Ok tt
  /\ st_trace (snd run) = st_trace s
  /\ FS.is_file (st_fs (snd run)) (FS.join (MYSQL_DATA_DIR cfg) m) = false.
Proof.
  intros run Hm Hpre.
  assert (H : exists s', drop_stale_binlogs cfg s = (Ok tt, s')
                         /\ st_trace s' = st_trace s
                         /\ FS.is_file (st_fs s') (FS.join (MYSQL_DATA_DIR cfg) m) = false);
    [|destruct H as (s' & E & Ht & Hf); subst run; rewrite E; now repeat split].
  clear run. unfold drop_stale_binlogs. rewrite bind_get_fs.
  destruct (FS.is_file (st_fs s) (FS.join (MYSQL_DATA_DIR cfg) m)) eqn:Hfile.
  - assert (Hin : In m (FS.glob_prefix (st_fs s) (MYSQL_DATA_DIR cfg) "mysql-bin.")).
    { unfold FS.glob_prefix. apply filter_In. split; [|exact Hpre].
      unfold FS.is_file in Hfile.
      rewrite (ListingFacts.join_component _ m Hm) in Hfile.
      destruct (FS.lookup (st_fs s) (MYSQL_DATA_DIR cfg ++ [m])) as [node|] eqn:E;
        [|discriminate].
      apply (in_iterdir _ _ _ node), lookup_in, E. }
    destruct (FS.glob_prefix (st_fs s) (MYSQL_DATA_DIR cfg) "mysql-bin.") as [|n l] eqn:Hg;
      [contradiction|].
    unfold unlink_file. rewrite (bind_ok _ _ _ _ _ (for_each_update_fs _ _ _)).
    unfold update_fs. eexists. split; [reflexivity|]. cbn [st_fs st_trace].
    split; [reflexivity|].
    set (fs1 := fold_left _ (n :: l) (st_fs s)).
    assert (H1 : FS.is_file fs1 (FS.join (MYSQL_DATA_DIR cfg) m) = false)
      by (now apply unlinked).
    destruct (FS.is_file fs1 (FS.join (MYSQL_DATA_DIR cfg) "mysql-bin.index")); [|exact H1].
    unfold FS.is_file in *. rewrite lookup_unlink.
    now destruct (FS.path_eqb _ _).
  - destruct (FS.glob_prefix (st_fs s) (MYSQL_DATA_DIR cfg) "mysql-bin.") as [|n l] eqn:Hg.
    + exists s. now repeat split.
    + unfold unlink_file. rewrite (bind_ok _ _ _ _ _ (for_each_update_fs _ _ _)).
      unfold update_fs. eexists. split; [reflexivity|]. cbn [st_fs st_trace].
      split; [reflexivity|].
      set (fs1 := fold_left _ (n :: l) (st_fs s)).
      assert (H1 : FS.is_file fs1 (FS.join (MYSQL_DATA_DIR cfg) m) = false)
        by (now apply unlinked_stays_gone).
      destruct (FS.is_file fs1 (FS.join (MYSQL_DATA_DIR cfg) "mysql-bin.index")); [|exact H1].
      unfold FS.is_file in *. rewrite lookup_unlink.
      now destruct (FS.path_eqb _ _).
Qed.

(** The binlog of the sample data directory. *)
Lemma X29_no_snapshot_binlog_is_left_witness :
  FS.is_file (st_fs (snd (drop_stale_binlogs Worlds.cfg_local (mkState Worlds.fs_one_full []))))
             (FS.of_string "/var/lib/mysql/mysql-bin.000001") = false.
Proof.
  apply (X29_no_snapshot_binlog_is_left Worlds.cfg_local (mkState Worlds.fs_one_full [])
           "mysql-bin.000001"); reflexivity.
Defined.

(** ** Remote listings and downloads *)

Module ListingText.

Lemma prefix_drop (p s : string) :
  String.prefix p s = true -> s = (p ++ PyStr.drop (String.length p) s)%string.
Proof.
  revert s. induction p as [|a p IH]; intros s; [reflexivity|].
  destruct s as [|b s]; simpl; [discriminate|].
  destruct (ascii_dec a b) as [-> | Hne]; [|discriminate].
  intros H. now rewrite <- (IH s H).
Qed.

Lemma digits_then_spec (n : nat) (s r : string) :
  PyStr.digits_then n s = Some r ->
  exists ds, s = (ds ++ r)%string /\ String.length ds = n
             /\ free_of PyStr.is_space ds = true.
Proof.
  revert s. induction n as [|n IH]; intros s; simpl.
  - intros [= ->]. now exists "".
  - destruct s as [|c s]; [discriminate|].
    destruct (PyStr.is_digit c) eqn:Hd; [|discriminate].
    intros H. destruct (IH s H) as (ds & -> & Hlen & Hfree).
    exists (String c ds). simpl. rewrite Hlen, Hfree.
    repeat split; try reflexivity.
    replace (PyStr.is_space c) with false; [reflexivity|].
    revert Hd. unfold PyStr.is_digit, PyStr.is_space.
    destruct c as [[] [] [] [] [] [] [] []]; simpl; congruence.
Qed.

Lemma substring_app (a b : string) :
  substring 0 (String.length a) (a ++ b) = a.
Proof. induction a as [|c a IH]; simpl; [now destruct b | now rewrite IH]. Qed.

Lemma free_of_app (sep : ascii -> bool) (a b : string) :
  free_of sep (a ++ b) = free_of sep a && free_of sep b.
Proof.
  induction a as [|c a IH]; simpl; [reflexivity|]. now rewrite IH, andb_assoc.
Qed.

(** The text [match_backup_file] accepts. *)
Lemma match_backup_file_spec (f ts : string) :
  PyStr.match_backup_file f = Some ts ->
  free_of PyStr.is_space ts = true
  /\ String.length ts = 15
  /\ (f = ("backup_" ++ ts ++ ".tar.gz")%string
      \/ f = ("backup_" ++ ts ++ ".tar.gz" ++ String PyStr.LF "")%string).
Proof.
  unfold PyStr.match_backup_file.
  destruct (String.prefix "backup_" f) eqn:Hp; [|discriminate].
  apply prefix_drop in Hp. cbn [String.length] in Hp.
  destruct (PyStr.digits_then 8 (PyStr.drop 7 f)) as [[|u r1]|] eqn:H8; try discriminate.
  destruct (Ascii.eqb_spec u "_"%char) as [-> | Hne];
    [|destruct u as [[] [] [] [] [] [] [] []]; try discriminate; now contradiction Hne].
  destruct (PyStr.digits_then 6 r1) as [r2|] eqn:H6; [|discriminate].
  destruct (String.prefix ".tar.gz" r2) eqn:Ht; [|discriminate].
  destruct (PyStr.at_end (PyStr.drop 7 r2)) eqn:He; [|discriminate].
  cbv [andb]. intros H.
  assert (Hts0 : PyStr.slice 0 15 (PyStr.drop 7 f) = ts) by congruence.
  clear H. subst ts.
  apply digits_then_spec in H8. destruct H8 as (d8 & E8 & L8 & F8).
  apply digits_then_spec in H6. destruct H6 as (d6 & E6 & L6 & F6).
  apply prefix_drop in Ht. cbn [String.length] in Ht.
  assert (Happ : forall a b, String.length (a ++ b)%string
                             = String.length a + String.length b).
  { induction a as [|c a IHa]; simpl; intros; [reflexivity | now rewrite IHa]. }
  assert (Hlen : String.length (d8 ++ String "_" d6)%string = 15).
  { rewrite Happ. simpl. now rewrite L8, L6. }
  assert (Er : PyStr.drop 7 f = ((d8 ++ String "_" d6) ++ r2)%string).
  { rewrite E8, E6. now rewrite PathText.append_assoc. }
  assert (Hts : PyStr.slice 0 15 (PyStr.drop 7 f) = (d8 ++ String "_" d6)%string).
  { unfold PyStr.slice. rewrite Er. cbn [Nat.sub]. rewrite <- Hlen at 1.
    apply substring_app. }
  rewrite Hts. split.
  { rewrite free_of_app. simpl. now rewrite F8, F6. }
  split; [exact Hlen|].
  rewrite Hp, Er. rewrite Ht.
  destruct (PyStr.drop 7 r2) as [|c [|c' t]] eqn:Ed; try discriminate.
  - left. now rewrite !PathText.append_assoc.
  - right. simpl in He. apply Ascii.eqb_eq in He. subst c.
    now rewrite !PathText.append_assoc.
Qed.

(** A word of [str.split()] holds no whitespace. *)
Lemma words_free (s : string) :
  Forall (fun w => free_of PyStr.is_space w = true) (PyStr.words s).
Proof.
  induction s as [|c s IH]; simpl; [constructor|].
  destruct (PyStr.is_space c) eqn:Hc; [exact IH|].
  destruct s as [|c' s']; [repeat constructor; simpl; now rewrite Hc|].
  destruct (PyStr.is_space c') eqn:Hc'.
  - constructor; [simpl; now rewrite Hc | exact IH].
  - destruct (PyStr.words (String c' s')) as [|h t];
      [repeat constructor; simpl; now rewrite Hc|].
    inversion IH as [|? ? Hh Ht]; subst. constructor; [|exact Ht].
    simpl. now rewrite Hc, Hh.
Qed.

Lemma lstrip_free (s : string) : free_of PyStr.is_space s = true -> PyStr.lstrip s = s.
Proof.
  destruct s as [|c s]; simpl; [reflexivity|].
  rewrite andb_true_iff, negb_true_iff. now intros [-> _].
Qed.

Lemma rstrip_free (s : string) : free_of PyStr.is_space s = true -> PyStr.rstrip s = s.
Proof.
  induction s as [|c s IH]; simpl; [reflexivity|].
  rewrite andb_true_iff, negb_true_iff. intros [Hc Hs]. rewrite (IH Hs), Hc.
  now destruct s.
Qed.

Lemma strip_free (s : string) : free_of PyStr.is_space s = true -> PyStr.strip s = s.
Proof.
  intros H. unfold PyStr.strip. rewrite (rstrip_free s H). now apply lstrip_free.
Qed.

End ListingText.

(** X30.  A timestamp that the remote listing yields names the object the
    download asks for: it is 15 characters long, it comes
    from a line of a successful [mc ls] whose sixth field is exactly
    [backup_<timestamp>.tar.gz] -- the file name the download functions
    build from the timestamp -- and [download_full_backup_from_s3] accepts
    it unchanged: the blank test passes and [strip] alters nothing. *)
Theorem X30_listed_backup_is_the_object_downloaded
    (cfg : Config) (env : Env) (sub ts : string) (target_dir : FS.Path) (s : State) :
  In ts (s3_timestamps cfg env sub) ->
  let listing := (S3_ALIAS cfg ++ "/" ++ S3_BUCKET cfg ++ "/" ++ sub ++ "/")%string in
  fst (mc_ls env listing) = 0%Z
  /\ (exists line,
        In line (PyStr.split_newline (snd (mc_ls env listing)))
        /\ nth_error (PyStr.words line) 5 = Some ("backup_" ++ ts ++ ".tar.gz")%string)
  /\ String.length ts = 15
  /\ download_full_backup_from_s3 cfg env ts target_dir s
     = download_from_s3 cfg env "full" ts target_dir s.
Proof.
  intros Hin listing. unfold s3_timestamps in Hin. fold listing in Hin.
  destruct (mc_ls env listing) as [rc out]. cbn [fst snd].
  destruct (Z.eqb_spec rc 0) as [-> | Hne]; [|contradiction].
  apply in_flat_map in Hin. destruct Hin as (line & Hline & Hts).
  destruct (nth_error (PyStr.words line) 5) as [filename|] eqn:Hw; [|contradiction].
  destruct (PyStr.match_backup_file filename) as [ts'|] eqn:Hm; [|contradiction].
  destruct Hts as [-> | []].
  destruct (ListingText.match_backup_file_spec _ _ Hm) as (Hfree & Hlen & Hname).
  assert (Hword : free_of PyStr.is_space filename = true).
  { apply nth_error_In in Hw.
    exact (proj1 (Forall_forall _ _) (ListingText.words_free line) _ Hw). }
  split; [reflexivity|]. split; [|split; [exact Hlen|]].
  - exists line. split; [exact Hline|]. destruct Hname as [-> | ->]; [exact Hw|].
    exfalso. rewrite !ListingText.free_of_app in Hword. simpl in Hword.
    now rewrite !andb_false_r in Hword.
  - unfold download_full_backup_from_s3. rewrite (ListingText.strip_free ts Hfree).
    destruct ts; [discriminate | reflexivity].
Qed.

(** The remote store of the sample worlds lists one full backup. *)
Lemma X30_listed_backup_is_the_object_downloaded_witness :
  exists line,
    In line (PyStr.split_newline
               (snd (mc_ls Worlds.env_remote_full "s3/mysql-backups/full/")))
    /\ nth_error (PyStr.words line) 5 = Some "backup_20250105_000000.tar.gz".
Proof.
  destruct (X30_listed_backup_is_the_object_downloaded Worlds.cfg_s3 Worlds.env_remote_full
              "full" "20250105_000000" (FS.of_string "/backups/full/20250105_000000")
              (mkState Worlds.fs_old_full_new_inc []))
    as (_ & Hline & _).
  - vm_compute. auto.
  - exact Hline.
Defined.
